(** * Approval workflow engine of Constructor_ERP_Server

    A shallow embedding of the approval engine: the matrix resolver and
    the other store queries (approvals.repository), the request
    orchestrator (approvals.service), the escalation worker
    (escalation.service), the idempotency guard (idempotency.service and
    idempotency.middleware) and the delegation service
    (delegations.service).

    The relational store is a record of tables, each table a list of rows
    in storage order.  Every service function takes the store and
    returns the store it leaves behind together with its outcome, so a
    rejected call and the store it leaves are both visible.  Wall-clock
    reads ([new Date()]) are passed in as [now], in milliseconds;
    identifiers the store draws for inserted rows are passed in as well.
    Amounts are integers (only their order is used), step orders and SLA
    hours are integers, identifiers are strings compared by equality.
    Audit logging, system logging and the document status adapter are
    outside the engine and are not modelled. *)

From Stdlib Require Import List ZArith String Bool Lia Sorted Permutation.
Import ListNotations.
Local Open Scope string_scope.
Local Open Scope Z_scope.
Local Open Scope list_scope.

Set Implicit Arguments.
Set Warnings "-register-all".

(** ** Rows of the store *)

Definition Id := string.
Definition Time := Z.

Inductive RequestStatus :=
| RPending | InProgress | RApproved | RRejected | RCancelled.

Inductive StepStatus :=
| Pending | Approved | Rejected | Skipped.

Definition RequestStatus_eqb (a b : RequestStatus) : bool :=
  match a, b with
  | RPending, RPending | InProgress, InProgress | RApproved, RApproved
  | RRejected, RRejected | RCancelled, RCancelled => true
  | _, _ => false
  end.

Definition StepStatus_eqb (a b : StepStatus) : bool :=
  match a, b with
  | Pending, Pending | Approved, Approved
  | Rejected, Rejected | Skipped, Skipped => true
  | _, _ => false
  end.

Record Role := {
  role_id_ : Id;
  role_code : string;
  role_is_active : bool }.

Record User := {
  user_id : Id;
  user_role_id : option Id;
  manager_id : option Id;
  user_is_active : bool;
  deleted_at : option Time }.

Record ApprovalMatrix := {
  mx_id : Id;
  mx_doc_type : string;
  mx_project_id : option Id;
  min_amount : option Z;
  max_amount : option Z;
  mx_department : option string;
  mx_role_id : option Id;
  mx_step_order : Z;
  escalation_hours : option Z }.

Record ApprovalRequest := {
  req_id : Id;
  doc_type : string;
  doc_id : string;
  project_id : option Id;
  requested_by : Id;
  current_status : RequestStatus;
  total_steps : Z;
  current_step : Z;
  amount : Z;
  department : option string;
  is_completed : bool;
  completed_at : option Time;
  created_at : option Time }.

Record ApprovalStep := {
  step_id : Id;
  approval_request_id : Id;
  step_order : Z;
  role_id : option Id;
  approver_user : option Id;
  status : StepStatus;
  action : option string;
  remarks : option string;
  approved_at : option Time;
  escalated : bool;
  escalated_to : option Id }.

Record ApprovalDelegation := {
  dlg_id : Id;
  from_user : Id;
  to_user : Id;
  start_date : Time;
  end_date : Time;
  dlg_is_active : bool }.

(** JSON values: request bodies and the response bodies kept for replay. *)
Inductive Json :=
| JNull
| JBool (b : bool)
| JNumber (n : Z)
| JString (s : string)
| JArray (items : list Json)
| JObject (fields : list (string * Json)).

Record IdempotencyKey := {
  idem_key : string;
  idem_user_id : option Id;
  idem_route : string;
  request_hash : string;
  response_body : Json;
  expires_at : Time }.

Record DB := {
  roles : list Role;
  users : list User;
  approvalMatrix : list ApprovalMatrix;
  approvalRequest : list ApprovalRequest;
  approvalStep : list ApprovalStep;
  approvalDelegation : list ApprovalDelegation;
  idempotencyKey : list IdempotencyKey }.

(** Outcome of a service call: a value, or an application error with its
    HTTP-style status code ([createAppError]). *)
Inductive Result (A : Type) :=
| Ok (a : A)
| AppError (statusCode : Z).
Arguments Ok {A} a.
Arguments AppError {A} statusCode.

(** ** Small helpers for nullable columns *)

Definition opt_eqb (o : option string) (x : string) : bool :=
  match o with
  | Some y => String.eqb y x
  | None => false
  end.

Definition is_null {A} (o : option A) : bool :=
  match o with
  | Some _ => false
  | None => true
  end.

(** JavaScript truthiness of an optional string argument: [null],
    [undefined] and the empty string are falsy. *)
Definition truthy (o : option string) : bool :=
  match o with
  | Some s => negb (String.eqb s "")
  | None => false
  end.

(** ** Ordering by step order ([orderBy: { step_order: "asc" }]) *)

Section OrderBy.
Variable A : Type.
Variable key : A -> Z.

Fixpoint insert_by (x : A) (l : list A) : list A :=
  match l with
  | [] => [x]
  | y :: l' => if key x <=? key y then x :: y :: l' else y :: insert_by x l'
  end.

Fixpoint orderBy (l : list A) : list A :=
  match l with
  | [] => []
  | x :: l' => insert_by x (orderBy l')
  end.

Definition key_le (a b : A) : Prop := key a <= key b.
End OrderBy.

(** ** Matrix resolver (approvals.repository, findMatrices) *)

Definition baseWhere (docType : string) (amt : Z) (department_ : option string)
    (m : ApprovalMatrix) : bool :=
  String.eqb (mx_doc_type m) docType
  && (match min_amount m with None => true | Some lo => lo <=? amt end)
  && (match max_amount m with None => true | Some hi => amt <=? hi end)
  && (if truthy department_
      then match mx_department m, department_ with
           | None, _ => true
           | Some d, Some d' => String.eqb d d'
           | Some _, None => false
           end
      else true).

Definition findMatrices (db : DB) (docType : string) (projectId : Id)
    (amt : Z) (department_ : option string) : list ApprovalMatrix :=
  let matrices :=
    orderBy mx_step_order
      (filter (fun m => baseWhere docType amt department_ m
                        && opt_eqb (mx_project_id m) projectId)
              (approvalMatrix db)) in
  match matrices with
  | [] =>
      orderBy mx_step_order
        (filter (fun m => baseWhere docType amt department_ m
                          && is_null (mx_project_id m))
                (approvalMatrix db))
  | _ :: _ => matrices
  end.

(** ** The other store queries (approvals.repository) *)

Definition opt_id_eqb (a b : option Id) : bool :=
  match a, b with
  | Some x, Some y => String.eqb x y
  | None, None => true
  | _, _ => false
  end.

(** The [roles] relation of a user row ([include: { roles: ... }]). *)
Definition user_roles (db : DB) (u : User) : option Role :=
  match user_role_id u with
  | Some rid => find (fun r => String.eqb (role_id_ r) rid) (roles db)
  | None => None
  end.

(** [u.roles?.code === code] *)
Definition role_code_is (db : DB) (u : User) (code : string) : bool :=
  match user_roles db u with
  | Some r => String.eqb (role_code r) code
  | None => false
  end.

Definition findActiveRequest (db : DB) (docType docId : string)
    : option ApprovalRequest :=
  find (fun r => String.eqb (doc_type r) docType
                 && String.eqb (doc_id r) docId
                 && (RequestStatus_eqb (current_status r) RPending
                     || RequestStatus_eqb (current_status r) InProgress))
       (approvalRequest db).

Definition findRequestById (db : DB) (approvalRequestId : Id)
    : option ApprovalRequest :=
  find (fun r => String.eqb (req_id r) approvalRequestId) (approvalRequest db).

(** The [approval_steps] relation of a request, as [findRequestById]
    includes it: ordered by step order. *)
Definition approval_steps (db : DB) (approvalRequestId : Id)
    : list ApprovalStep :=
  orderBy step_order
    (filter (fun s => String.eqb (approval_request_id s) approvalRequestId)
            (approvalStep db)).

Definition findNextStepOrder (db : DB) (approvalRequestId : Id)
    (currentStepOrder : Z) : option Z :=
  match orderBy step_order
          (filter (fun s => String.eqb (approval_request_id s) approvalRequestId
                            && (currentStepOrder <? step_order s)
                            && StepStatus_eqb (status s) Pending)
                  (approvalStep db)) with
  | next :: _ => Some (step_order next)
  | [] => None
  end.

Definition delegation_active_at (now : Time) (d : ApprovalDelegation) : bool :=
  dlg_is_active d && (start_date d <=? now) && (now <=? end_date d).

Definition findPendingDelegation (db : DB) (userId : Id) (now : Time)
    : option ApprovalDelegation :=
  find (fun d => String.eqb (from_user d) userId && delegation_active_at now d)
       (approvalDelegation db).

(** Already projected on [from_user] ([select: { from_user: true }]). *)
Definition findDelegationsForInbox (db : DB) (toUserId : Id) (now : Time)
    : list Id :=
  map from_user
    (filter (fun d => String.eqb (to_user d) toUserId
                      && delegation_active_at now d)
            (approvalDelegation db)).

Definition findUserById (db : DB) (userId : Id) : option User :=
  find (fun u => String.eqb (user_id u) userId
                 && is_null (deleted_at u) && user_is_active u)
       (users db).

Definition findUsersByRole (db : DB) (roleId : Id) : list User :=
  filter (fun u => opt_eqb (user_role_id u) roleId
                   && user_is_active u && is_null (deleted_at u))
         (users db).

(** ** Approver resolver (approvals.service, resolveApprover) *)

Record Resolved := { userId : Id; delegated : bool }.

(** The loop of resolveApprover over the candidates.  Every candidate was
    found through its role, so its [roles] relation is present and
    [user.roles.code] is read like [user.roles?.code]. *)
Fixpoint resolve_candidates (db : DB) (requestedBy : Id) (now : Time)
    (candidates : list User) : option Resolved :=
  match candidates with
  | [] => None
  | user :: rest =>
      if String.eqb (user_id user) requestedBy
         && negb (role_code_is db user "super_admin")
      then resolve_candidates db requestedBy now rest
      else
        match findPendingDelegation db (user_id user) now with
        | Some delegation =>
            if negb (String.eqb (to_user delegation) requestedBy)
            then Some {| userId := to_user delegation; delegated := true |}
            else resolve_candidates db requestedBy now rest
        | None => Some {| userId := user_id user; delegated := false |}
        end
  end.

Definition resolveApprover (db : DB) (roleId : option Id) (requestedBy : Id)
    (now : Time) : option Resolved :=
  match roleId with
  | Some rid =>
      if String.eqb rid "" then None
      else resolve_candidates db requestedBy now (findUsersByRole db rid)
  | None => None
  end.

(** ** Request orchestrator (approvals.service) *)

Record RequestData := {
  rd_docType : string;
  rd_docId : string;
  rd_projectId : Id;
  rd_amount : Z;
  rd_department : option string }.

Record RequestOutcome := {
  ro_approvalRequestId : Id;
  ro_currentStatus : RequestStatus;
  ro_totalSteps : Z;
  ro_currentStep : Z }.

(** [[...new Set(xs)]]: the distinct values, in order of first occurrence. *)
Fixpoint new_Set (seen xs : list Z) : list Z :=
  match xs with
  | [] => []
  | x :: xs' =>
      if existsb (Z.eqb x) seen then new_Set seen xs'
      else x :: new_Set (x :: seen) xs'
  end.

(** [x || null] on an optional string. *)
Definition or_null (o : option string) : option string :=
  if truthy o then o else None.

(** The rows of [stepInserts], once [createMany] has given each the
    request id and an id of its own; [n] counts the rows already built. *)
Fixpoint stepInserts (db : DB) (actorId : Id) (now : Time) (reqId : Id)
    (stepIds : nat -> Id) (n : nat) (matrices : list ApprovalMatrix)
    : list ApprovalStep :=
  match matrices with
  | [] => []
  | matrix :: rest =>
      let resolved := resolveApprover db (mx_role_id matrix) actorId now in
      {| step_id := stepIds n;
         approval_request_id := reqId;
         step_order := mx_step_order matrix;
         role_id := mx_role_id matrix;
         approver_user := or_null (option_map userId resolved);
         status := Pending;
         action := None;
         remarks := None;
         approved_at := None;
         escalated := false;
         escalated_to := None |}
      :: stepInserts db actorId now reqId stepIds (S n) rest
  end.

Definition with_requests (db : DB) (rs : list ApprovalRequest) : DB :=
  {| roles := roles db; users := users db;
     approvalMatrix := approvalMatrix db;
     approvalRequest := rs;
     approvalStep := approvalStep db;
     approvalDelegation := approvalDelegation db;
     idempotencyKey := idempotencyKey db |}.

Definition with_steps (db : DB) (ss : list ApprovalStep) : DB :=
  {| roles := roles db; users := users db;
     approvalMatrix := approvalMatrix db;
     approvalRequest := approvalRequest db;
     approvalStep := ss;
     approvalDelegation := approvalDelegation db;
     idempotencyKey := idempotencyKey db |}.

Definition requestApproval (data : RequestData) (actorId : Id) (now : Time)
    (reqId : Id) (stepIds : nat -> Id) (db : DB)
    : DB * Result RequestOutcome :=
  match findActiveRequest db (rd_docType data) (rd_docId data) with
  | Some _ => (db, AppError 409)
  | None =>
      let numericAmount := rd_amount data in
      let matrices :=
        findMatrices db (rd_docType data) (rd_projectId data) numericAmount
                     (rd_department data) in
      match matrices with
      | [] => (db, AppError 422)
      | _ :: _ =>
          let uniqueStepOrders :=
            orderBy (fun z => z) (new_Set [] (map mx_step_order matrices)) in
          let firstStepOrder := hd 0 uniqueStepOrders in
          let inserts := stepInserts db actorId now reqId stepIds 0 matrices in
          let req :=
            {| req_id := reqId;
               doc_type := rd_docType data;
               doc_id := rd_docId data;
               project_id := or_null (Some (rd_projectId data));
               requested_by := actorId;
               current_status := InProgress;
               total_steps := Z.of_nat (List.length uniqueStepOrders);
               current_step := firstStepOrder;
               amount := numericAmount;
               department := or_null (rd_department data);
               is_completed := false;
               completed_at := None;
               created_at := Some now |} in
          (with_steps (with_requests db (approvalRequest db ++ [req]))
                      (approvalStep db ++ inserts),
           Ok {| ro_approvalRequestId := req_id req;
                 ro_currentStatus := current_status req;
                 ro_totalSteps := total_steps req;
                 ro_currentStep := current_step req |})
      end
  end.

Record StepOutcome := {
  so_approvalRequestId : Id;
  so_currentStatus : RequestStatus;
  so_currentStep : option Z;
  so_note : option string }.

(** [isAdmin] of approveStep and rejectStep: the actor's role code is
    [super_admin] or [erp_admin]. *)
Definition isAdmin (db : DB) (actor : User) : bool :=
  role_code_is db actor "super_admin" || role_code_is db actor "erp_admin".

(** [tx.approvalStep.update({ where: { id }, data })] *)
Definition update_step (id : Id) (data : ApprovalStep -> ApprovalStep)
    (db : DB) : DB :=
  with_steps db
    (map (fun s => if String.eqb (step_id s) id then data s else s)
         (approvalStep db)).

(** [tx.approvalRequest.update({ where: { id }, data })] *)
Definition update_request (id : Id) (data : ApprovalRequest -> ApprovalRequest)
    (db : DB) : DB :=
  with_requests db
    (map (fun r => if String.eqb (req_id r) id then data r else r)
         (approvalRequest db)).

(** [tx.approvalStep.updateMany({ where: { approval_request_id, status:
    "pending" }, data: { status: "skipped" } })] *)
Definition set_status (st : StepStatus) (s : ApprovalStep) : ApprovalStep :=
  {| step_id := step_id s;
     approval_request_id := approval_request_id s;
     step_order := step_order s;
     role_id := role_id s;
     approver_user := approver_user s;
     status := st;
     action := action s;
     remarks := remarks s;
     approved_at := approved_at s;
     escalated := escalated s;
     escalated_to := escalated_to s |}.

Definition skip_pending (approvalRequestId : Id) (db : DB) : DB :=
  with_steps db
    (map (fun s => if String.eqb (approval_request_id s) approvalRequestId
                      && StepStatus_eqb (status s) Pending
                   then set_status Skipped s else s)
         (approvalStep db)).

(** The data written on the acted step by approve and by reject. *)
Definition act_on (st : StepStatus) (act : string) (remarks_ : option string)
    (now : Time) (actorId : Id) (s : ApprovalStep) : ApprovalStep :=
  {| step_id := step_id s;
     approval_request_id := approval_request_id s;
     step_order := step_order s;
     role_id := role_id s;
     approver_user := Some actorId;
     status := st;
     action := Some act;
     remarks := or_null remarks_;
     approved_at := Some now;
     escalated := escalated s;
     escalated_to := escalated_to s |}.

Definition set_current_step (n : Z) (r : ApprovalRequest) : ApprovalRequest :=
  {| req_id := req_id r; doc_type := doc_type r; doc_id := doc_id r;
     project_id := project_id r; requested_by := requested_by r;
     current_status := current_status r;
     total_steps := total_steps r;
     current_step := n;
     amount := amount r; department := department r;
     is_completed := is_completed r;
     completed_at := completed_at r;
     created_at := created_at r |}.

Definition complete_as (st : RequestStatus) (now : Time)
    (r : ApprovalRequest) : ApprovalRequest :=
  {| req_id := req_id r; doc_type := doc_type r; doc_id := doc_id r;
     project_id := project_id r; requested_by := requested_by r;
     current_status := st;
     total_steps := total_steps r;
     current_step := current_step r;
     amount := amount r; department := department r;
     is_completed := true;
     completed_at := Some now;
     created_at := created_at r |}.

(** The filter of approveStep: the steps the actor can act on at the
    current step order. *)
Definition actable (db : DB) (actor : User) (actorId : Id)
    (delegatorIds : list Id) (request : ApprovalRequest)
    (s : ApprovalStep) : bool :=
  if negb (step_order s =? current_step request) then false
  else if negb (StepStatus_eqb (status s) Pending) then false
  else if isAdmin db actor then true
  else opt_eqb (approver_user s) actorId
       || opt_id_eqb (role_id s) (user_role_id actor)
       || (truthy (approver_user s)
           && existsb (fun d => opt_eqb (approver_user s) d) delegatorIds).

(** The test of the idempotency check of approveStep: a step at the
    current order, of the actor or of the actor's role, already approved. *)
Definition already_approved (actor : User) (actorId : Id)
    (request : ApprovalRequest) (s : ApprovalStep) : bool :=
  (step_order s =? current_step request)
  && (opt_eqb (approver_user s) actorId
      || opt_id_eqb (role_id s) (user_role_id actor))
  && StepStatus_eqb (status s) Approved.

Definition approveStep (approvalRequestId actorId : Id)
    (remarks_ : option string) (now : Time) (db : DB)
    : DB * Result StepOutcome :=
  match findUserById db actorId with
  | None => (db, AppError 404)
  | Some actor =>
  match findRequestById db approvalRequestId with
  | None => (db, AppError 404)
  | Some request =>
  if negb (RequestStatus_eqb (current_status request) InProgress)
  then (db, AppError 409)
  else if String.eqb (requested_by request) actorId && negb (isAdmin db actor)
  then (db, AppError 403)
  else
    let steps := approval_steps db approvalRequestId in
    let delegatorIds := findDelegationsForInbox db actorId now in
    let actableSteps :=
      filter (actable db actor actorId delegatorIds request) steps in
    match actableSteps with
    | [] =>
        let alreadyDone :=
          find (already_approved actor actorId request) steps in
        match alreadyDone with
        | Some _ =>
            (db, Ok {| so_approvalRequestId := approvalRequestId;
                       so_currentStatus := current_status request;
                       so_currentStep := Some (current_step request);
                       so_note := Some "Already approved at this step" |})
        | None => (db, AppError 403)
        end
    | _ :: _ =>
        let tx :=
          fold_left
            (fun d step =>
               update_step (step_id step)
                 (act_on Approved "approve" remarks_ now actorId) d)
            actableSteps db in
        let allStepsAtCurrentOrder :=
          filter (fun s => step_order s =? current_step request) steps in
        let stillPending :=
          filter (fun s =>
                    negb (existsb (fun a => String.eqb (step_id a) (step_id s))
                                  actableSteps)
                    && StepStatus_eqb (status s) Pending)
                 allStepsAtCurrentOrder in
        match stillPending with
        | _ :: _ =>
            (tx, Ok {| so_approvalRequestId := approvalRequestId;
                       so_currentStatus := current_status request;
                       so_currentStep := Some (current_step request);
                       so_note := None |})
        | [] =>
            (* read through the repository, not through the transaction *)
            match findNextStepOrder db approvalRequestId
                                    (current_step request) with
            | Some nextStepOrder =>
                let updated := set_current_step nextStepOrder request in
                (update_request approvalRequestId
                                (set_current_step nextStepOrder) tx,
                 Ok {| so_approvalRequestId := approvalRequestId;
                       so_currentStatus := current_status updated;
                       so_currentStep := Some nextStepOrder;
                       so_note := None |})
            | None =>
                let updated := complete_as RApproved now request in
                (update_request approvalRequestId
                                (complete_as RApproved now) tx,
                 Ok {| so_approvalRequestId := approvalRequestId;
                       so_currentStatus := current_status updated;
                       so_currentStep := None;
                       so_note := None |})
            end
        end
    end
  end end.

Definition rejectStep (approvalRequestId actorId : Id)
    (remarks_ : option string) (now : Time) (db : DB)
    : DB * Result StepOutcome :=
  match findUserById db actorId with
  | None => (db, AppError 404)
  | Some actor =>
  match findRequestById db approvalRequestId with
  | None => (db, AppError 404)
  | Some request =>
  if negb (RequestStatus_eqb (current_status request) InProgress)
  then (db, AppError 409)
  else
    let actableStep :=
      find (fun s =>
              if negb (step_order s =? current_step request) then false
              else if negb (StepStatus_eqb (status s) Pending) then false
              else if isAdmin db actor then true
              else opt_eqb (approver_user s) actorId
                   || opt_id_eqb (role_id s) (user_role_id actor))
           (approval_steps db approvalRequestId) in
    match actableStep with
    | None => (db, AppError 403)
    | Some step =>
        (skip_pending approvalRequestId
           (update_request approvalRequestId (complete_as RRejected now)
              (update_step (step_id step)
                 (act_on Rejected "reject" remarks_ now actorId) db)),
         Ok {| so_approvalRequestId := approvalRequestId;
               so_currentStatus := RRejected;
               so_currentStep := None;
               so_note := None |})
    end
  end end.

Definition cancelApproval (approvalRequestId actorId : Id) (now : Time)
    (db : DB) : DB * Result StepOutcome :=
  match findUserById db actorId with
  | None => (db, AppError 404)
  | Some actor =>
  match findRequestById db approvalRequestId with
  | None => (db, AppError 404)
  | Some request =>
  if negb (RequestStatus_eqb (current_status request) InProgress)
  then (db, AppError 409)
  else
    let isRequester := String.eqb (requested_by request) actorId in
    let isAdmin_ := role_code_is db actor "SUPER_ADMIN" in
    if negb isRequester && negb isAdmin_ then (db, AppError 403)
    else
      (skip_pending approvalRequestId
         (update_request approvalRequestId (complete_as RCancelled now) db),
       Ok {| so_approvalRequestId := approvalRequestId;
             so_currentStatus := RCancelled;
             so_currentStep := None;
             so_note := None |})
  end end.

(** ** Escalation worker (escalation.service) *)

(** First block of resolveEscalationTarget: the approver's manager,
    when the approver row is not deleted and the manager row is active
    and not deleted. *)
Definition active_manager (db : DB) (approverUserId : option Id)
    : option Id :=
  if truthy approverUserId then
    match find (fun u => opt_eqb approverUserId (user_id u)
                         && is_null (deleted_at u))
               (users db) with
    | Some approver =>
        if truthy (manager_id approver) then
          match find (fun u => opt_eqb (manager_id approver) (user_id u)
                               && user_is_active u && is_null (deleted_at u))
                     (users db) with
          | Some manager => Some (user_id manager)
          | None => None
          end
        else None
    | None => None
    end
  else None.

(** Second block: the first active user of the first active role whose
    code is [SUPER_ADMIN]. *)
Definition first_super_admin (db : DB) : option Id :=
  match find (fun r => String.eqb (role_code r) "SUPER_ADMIN"
                       && role_is_active r)
             (roles db) with
  | None => None
  | Some adminRole =>
      match find (fun u => opt_eqb (user_role_id u) (role_id_ adminRole)
                           && user_is_active u && is_null (deleted_at u))
                 (users db) with
      | Some admin => or_null (Some (user_id admin))
      | None => None
      end
  end.

Definition resolveEscalationTarget (db : DB) (approverUserId : option Id)
    : option Id :=
  match active_manager db approverUserId with
  | Some m => Some m
  | None => first_super_admin db
  end.

(** The matrix row the worker reads the SLA from. *)
Definition sla_matrix (db : DB) (request : ApprovalRequest)
    (step : ApprovalStep) : option ApprovalMatrix :=
  find (fun m => String.eqb (mx_doc_type m) (doc_type request)
                 && (mx_step_order m =? step_order step)
                 && negb (is_null (escalation_hours m)))
       (approvalMatrix db).

Definition ms_per_hour : Z := 1000 * 60 * 60.

Definition set_escalated (escalatedTo : option Id) (s : ApprovalStep)
    : ApprovalStep :=
  {| step_id := step_id s;
     approval_request_id := approval_request_id s;
     step_order := step_order s;
     role_id := role_id s;
     approver_user := approver_user s;
     status := status s;
     action := action s;
     remarks := remarks s;
     approved_at := approved_at s;
     escalated := true;
     escalated_to := escalatedTo |}.

Record EscalationCounts := { escalatedCount : Z; errorCount : Z }.

Inductive Iteration :=
| Continue            (* the step is left as it is *)
| Escalate (to : option Id)
| Caught.             (* a storage call raised; counted, step left as it is *)

(** The body of the loop for one selected step, with the request row that
    was fetched along with it.  [raises] tells for which steps a storage
    call raises; the first storage call of the body is the matrix lookup.
    [ageHours < escalation_hours] is compared exactly, in milliseconds. *)
Definition escalation_body (raises : Id -> bool) (now : Time) (db : DB)
    (step : ApprovalStep) (request : ApprovalRequest) : Iteration :=
  match created_at request with
  | None => Continue
  | Some createdAt =>
      if raises (step_id step) then Caught
      else
        match sla_matrix db request step with
        | None => Continue
        | Some matrix =>
            match escalation_hours matrix with
            | None => Continue
            | Some hours =>
                if hours =? 0 then Continue
                else
                  let ageMs := now - createdAt in
                  if ageMs <? hours * ms_per_hour then Continue
                  else Escalate
                         (or_null (resolveEscalationTarget db
                                     (approver_user step)))
            end
        end
  end.

(** The steps the worker selects, each with its parent request:
    pending, not escalated, parent request in progress. *)
Definition activePending (db : DB) : list (ApprovalStep * ApprovalRequest) :=
  flat_map
    (fun s =>
       if StepStatus_eqb (status s) Pending && negb (escalated s) then
         match findRequestById db (approval_request_id s) with
         | Some r =>
             if RequestStatus_eqb (current_status r) InProgress
             then [(s, r)] else []
         | None => []
         end
       else [])
    (approvalStep db).

Definition runEscalation (raises : Id -> bool) (now : Time) (db : DB)
    : DB * EscalationCounts :=
  fold_left
    (fun (acc : DB * EscalationCounts) (sr : ApprovalStep * ApprovalRequest) =>
       let (d, counts) := acc in
       let (step, request) := sr in
       match escalation_body raises now d step request with
       | Continue => acc
       | Caught =>
           (d, {| escalatedCount := escalatedCount counts;
                  errorCount := errorCount counts + 1 |})
       | Escalate to =>
           (update_step (step_id step) (set_escalated to) d,
            {| escalatedCount := escalatedCount counts + 1;
               errorCount := errorCount counts |})
       end)
    (activePending db)
    (db, {| escalatedCount := 0; errorCount := 0 |}).

(** ** Idempotency guard (idempotency.service, idempotency.middleware) *)

Definition with_idempotencyKey (db : DB) (ks : list IdempotencyKey) : DB :=
  {| roles := roles db; users := users db;
     approvalMatrix := approvalMatrix db;
     approvalRequest := approvalRequest db;
     approvalStep := approvalStep db;
     approvalDelegation := approvalDelegation db;
     idempotencyKey := ks |}.

Definition json_truthy (j : Json) : bool :=
  match j with
  | JNull => false
  | JBool b => b
  | JNumber n => negb (n =? 0)
  | JString s => negb (String.eqb s "")
  | JArray _ | JObject _ => true
  end.

Section Idempotency.
(** [JSON.stringify] and the hexadecimal SHA-256 digest. *)
Variable JSON_stringify : Json -> string.
Variable sha256_hex : string -> string.

(** [body ?? {}]: an absent body and a [null] body are both hashed as the
    empty object. *)
Definition hashBody (body : option Json) : string :=
  String.substring 0 64
    (sha256_hex (JSON_stringify (match body with
                                 | None | Some JNull => JObject []
                                 | Some b => b
                                 end))).

Record Idempotency := { conflict : bool; cached : option Json }.

Definition checkIdempotency (key : string) (userId_ : option Id)
    (route requestHash : string) (now : Time) (db : DB)
    : DB * Idempotency :=
  match find (fun k => String.eqb (idem_key k) key) (idempotencyKey db) with
  | None => (db, {| conflict := false; cached := None |})
  | Some existing =>
      if expires_at existing <? now then
        (with_idempotencyKey db
           (filter (fun k => negb (String.eqb (idem_key k) key))
                   (idempotencyKey db)),
         {| conflict := false; cached := None |})
      else if String.eqb (request_hash existing) requestHash then
        (db, {| conflict := false;
                cached := Some (response_body existing) |})
      else (db, {| conflict := true; cached := None |})
  end.

Definition saveIdempotency (key : string) (userId_ : option Id)
    (route requestHash : string) (responseBody : Json) (ttlMinutes : Z)
    (now : Time) (db : DB) : DB :=
  match find (fun k => String.eqb (idem_key k) key) (idempotencyKey db) with
  | Some _ =>
      with_idempotencyKey db
        (map (fun k => if String.eqb (idem_key k) key
                       then {| idem_key := idem_key k;
                               idem_user_id := idem_user_id k;
                               idem_route := idem_route k;
                               request_hash := request_hash k;
                               response_body := responseBody;
                               expires_at := expires_at k |}
                       else k)
             (idempotencyKey db))
  | None =>
      with_idempotencyKey db
        (idempotencyKey db
         ++ [{| idem_key := key;
                idem_user_id := userId_;
                idem_route := route;
                request_hash := requestHash;
                response_body := responseBody;
                expires_at := now + ttlMinutes * 60 * 1000 |}])
  end.

Record HttpRequest := {
  idempotency_key_header : option string;
  req_user : option Id;
  originalUrl : string;
  req_body : option Json;
  requestId : option string }.

Record HttpResponse := { res_status : Z; res_body : Json }.

Definition conflict_response (req : HttpRequest) : HttpResponse :=
  {| res_status := 409;
     res_body :=
       JObject
         ([("success", JBool false);
           ("message",
            JString "Idempotency conflict: this key was already used with a different request payload")]
          ++ match requestId req with
             | Some r => [("requestId", JString r)]
             | None => []
             end) |}.

(** The wrapped [res.json]: a 2xx response is saved against the key
    before it is sent.  [later] is the clock read of [saveIdempotency]. *)
Definition capture (idemKey : string) (userId_ : option Id)
    (route reqHash : string) (later : Time) (sent : DB * HttpResponse)
    : DB * HttpResponse :=
  let (db2, res) := sent in
  if (200 <=? res_status res) && (res_status res <? 300)
  then (saveIdempotency idemKey userId_ route reqHash (res_body res) 1440
                        later db2, res)
  else (db2, res).

(** The middleware around the rest of the route, [next]: the handler
    that performs the write and sends the response.  A storage error in
    [checkIdempotency] (fail open) is not modelled. *)
Definition idempotent (req : HttpRequest) (next : DB -> DB * HttpResponse)
    (now later : Time) (db : DB) : DB * HttpResponse :=
  if negb (truthy (idempotency_key_header req)) then next db
  else
    let idemKey := match idempotency_key_header req with
                   | Some k => k
                   | None => ""
                   end in
    let route := originalUrl req in
    let reqHash := hashBody (req_body req) in
    let (db1, chk) :=
      checkIdempotency idemKey (req_user req) route reqHash now db in
    if conflict chk then (db1, conflict_response req)
    else
      match cached chk with
      | Some body =>
          if json_truthy body
          then (db1, {| res_status := 200; res_body := body |})
          else capture idemKey (req_user req) route reqHash later (next db1)
      | None => capture idemKey (req_user req) route reqHash later (next db1)
      end.
End Idempotency.

(** ** Delegation service (delegations.service, createDelegation) *)

Record DelegationData := {
  dd_fromUser : Id;
  dd_toUser : Id;
  dd_startDate : Time;
  dd_endDate : Time }.

Definition with_delegations (db : DB) (ds : list ApprovalDelegation) : DB :=
  {| roles := roles db; users := users db;
     approvalMatrix := approvalMatrix db;
     approvalRequest := approvalRequest db;
     approvalStep := approvalStep db;
     approvalDelegation := ds;
     idempotencyKey := idempotencyKey db |}.

Definition createDelegation (data : DelegationData) (now : Time) (newId : Id)
    (db : DB) : DB * Result ApprovalDelegation :=
  let fromUser := dd_fromUser data in
  let toUser := dd_toUser data in
  if String.eqb fromUser toUser then (db, AppError 400)
  else
    match findUserById db fromUser, findUserById db toUser with
    | None, _ => (db, AppError 404)
    | Some _, None => (db, AppError 404)
    | Some _, Some _ =>
        let circular :=
          find (fun d => String.eqb (from_user d) toUser
                         && String.eqb (to_user d) fromUser
                         && dlg_is_active d
                         && (now <=? end_date d))
               (approvalDelegation db) in
        match circular with
        | Some _ => (db, AppError 409)
        | None =>
            let overlap :=
              find (fun d => String.eqb (from_user d) fromUser
                             && dlg_is_active d
                             && (start_date d <=? dd_endDate data)
                             && (dd_startDate data <=? end_date d))
                   (approvalDelegation db) in
            match overlap with
            | Some _ => (db, AppError 409)
            | None =>
                let delegation :=
                  {| dlg_id := newId;
                     from_user := fromUser;
                     to_user := toUser;
                     start_date := dd_startDate data;
                     end_date := dd_endDate data;
                     dlg_is_active := true |} in
                (with_delegations db (approvalDelegation db ++ [delegation]),
                 Ok delegation)
            end
        end
    end.

(** ** Notions used to state the properties *)

Definition in_amount_range (amt : Z) (m : ApprovalMatrix) : Prop :=
  (forall lo, min_amount m = Some lo -> lo <= amt)
  /\ (forall hi, max_amount m = Some hi -> amt <= hi).

(** A department is given when the argument is a non-empty string. *)
Definition department_ok (department_ : option string) (m : ApprovalMatrix)
    : Prop :=
  truthy department_ = true ->
  mx_department m = None \/ mx_department m = department_.

Definition rule_matches (docType : string) (amt : Z)
    (department_ : option string) (m : ApprovalMatrix) : Prop :=
  mx_doc_type m = docType /\ in_amount_range amt m
  /\ department_ok department_ m.

(** [l] keeps some of the rows of [l'], in the order they have there. *)
Inductive subsequence {A : Type} : list A -> list A -> Prop :=
| subsequence_nil : subsequence [] []
| subsequence_skip x l l' : subsequence l l' -> subsequence l (x :: l')
| subsequence_take x l l' : subsequence l l' -> subsequence (x :: l) (x :: l').

(** The user holds the role with this code: the role row its role id
    names (the first with that id in the role table) carries the code. *)
Definition holds_role (db : DB) (u : User) (code : string) : Prop :=
  exists rid pre r post,
    user_role_id u = Some rid
    /\ roles db = pre ++ r :: post
    /\ role_id_ r = rid
    /\ Forall (fun r' => role_id_ r' <> rid) pre
    /\ role_code r = code.

(** A delegation granted by [uid], switched on, whose window contains
    [now]. *)
Definition delegates_at (uid : Id) (now : Time) (d : ApprovalDelegation)
    : Prop :=
  from_user d = uid /\ dlg_is_active d = true
  /\ start_date d <= now <= end_date d.

(** The delegation of [uid] in force at [now]: the first such row of the
    delegation table. *)
Definition delegation_in_force (db : DB) (uid : Id) (now : Time)
    (d : ApprovalDelegation) : Prop :=
  exists pre post,
    approvalDelegation db = pre ++ d :: post
    /\ delegates_at uid now d
    /\ Forall (fun d' => ~ delegates_at uid now d') pre.

Definition no_delegation_in_force (db : DB) (uid : Id) (now : Time) : Prop :=
  forall d, In d (approvalDelegation db) -> ~ delegates_at uid now d.

(** A candidate is passed over when it is the requester without the
    [super_admin] role, or when its delegation in force at [now] points
    to the requester. *)
Definition passed_over (db : DB) (requestedBy : Id) (now : Time) (c : User)
    : Prop :=
  (user_id c = requestedBy /\ ~ holds_role db c "super_admin")
  \/ (exists d, delegation_in_force db (user_id c) now d
                /\ to_user d = requestedBy).

(** What a candidate that is not passed over resolves to: its delegate,
    flagged as a redirect, when it has a delegation in force at [now],
    and itself otherwise. *)
Definition resolves_to (db : DB) (requestedBy : Id) (now : Time) (c : User)
    (r : Resolved) : Prop :=
  (user_id c = requestedBy -> holds_role db c "super_admin")
  /\ ((exists d, delegation_in_force db (user_id c) now d
                 /\ to_user d <> requestedBy
                 /\ r = {| userId := to_user d; delegated := true |})
      \/ (no_delegation_in_force db (user_id c) now
          /\ r = {| userId := user_id c; delegated := false |})).

(** A request the orchestrator treats as still active for its document
    ([findActiveRequest]): in progress, or carrying the [pending] status
    that the query also accepts. *)
Definition active_for (docType docId : string) (r : ApprovalRequest) : Prop :=
  doc_type r = docType /\ doc_id r = docId
  /\ (current_status r = InProgress \/ current_status r = RPending).

(** A created step row answers its matrix rule. *)
Definition step_of_rule (reqId : Id) (m : ApprovalMatrix) (s : ApprovalStep)
    : Prop :=
  approval_request_id s = reqId
  /\ step_order s = mx_step_order m
  /\ role_id s = mx_role_id m
  /\ status s = Pending
  /\ escalated s = false.

(** Some step of the request is pending at step order [n]. *)
Definition pending_at (db : DB) (approvalRequestId : Id) (n : Z) : Prop :=
  exists s, In s (approvalStep db)
            /\ approval_request_id s = approvalRequestId
            /\ step_order s = n
            /\ status s = Pending.

(** Step rows have distinct ids (the primary key of the table). *)
Definition step_ids_unique (db : DB) : Prop :=
  NoDup (map step_id (approvalStep db)).

(** The steps the approve transaction writes, and those at the current
    order it leaves pending. *)
Definition actableSteps (db : DB) (actor : User) (actorId : Id) (now : Time)
    (request : ApprovalRequest) : list ApprovalStep :=
  filter (actable db actor actorId (findDelegationsForInbox db actorId now)
                  request)
         (approval_steps db (req_id request)).

Definition approve_marked (acts : list ApprovalStep)
    (remarks_ : option string) (now : Time) (actorId : Id)
    (s : ApprovalStep) : ApprovalStep :=
  if existsb (fun a => String.eqb (step_id a) (step_id s)) acts
  then act_on Approved "approve" remarks_ now actorId s
  else s.

(** The steps at the current order that the approve transaction leaves
    pending. *)
Definition stillPending (db : DB) (request : ApprovalRequest)
    (acts : list ApprovalStep) : list ApprovalStep :=
  filter (fun s =>
            negb (existsb (fun a => String.eqb (step_id a) (step_id s)) acts)
            && StepStatus_eqb (status s) Pending)
         (filter (fun s => step_order s =? current_step request)
                 (approval_steps db (req_id request))).

(** ** A small store, used to run the functions on concrete inputs

    Role codes are those of the seed ([seed_rbac]).  alice is a site
    engineer, bob and erin are project managers (erin manages bob), carol
    is an accountant and dave a super administrator.  Purchase requests
    ([PR]) need a project manager at order 1 and, above 1,000,000, an
    accountant at order 2; purchase orders ([PO]) of project [proj-1] need
    a project manager and an accountant in parallel at order 1. *)
Module Fixture.

Definition role (id code : string) : Role :=
  {| role_id_ := id; role_code := code; role_is_active := true |}.

Definition user (id roleId : string) (manager : option Id) : User :=
  {| user_id := id; user_role_id := Some roleId; manager_id := manager;
     user_is_active := true; deleted_at := None |}.

Definition rule (id docType : string) (project : option Id)
    (lo : option Z) (roleId : string) (order : Z) (sla : option Z)
    : ApprovalMatrix :=
  {| mx_id := id; mx_doc_type := docType; mx_project_id := project;
     min_amount := lo; max_amount := None; mx_department := None;
     mx_role_id := Some roleId; mx_step_order := order;
     escalation_hours := sla |}.

Definition db0 : DB :=
  {| roles := [role "r-sa" "super_admin"; role "r-erp" "erp_admin";
               role "r-pm" "project_manager"; role "r-acc" "accountant";
               role "r-se" "site_engineer"];
     users := [user "alice" "r-se" None; user "bob" "r-pm" (Some "erin");
               user "carol" "r-acc" None; user "dave" "r-sa" None;
               user "erin" "r-pm" None];
     approvalMatrix :=
       [rule "m1" "PR" None None "r-pm" 1 (Some 24);
        rule "m2" "PR" None (Some 1000001) "r-acc" 2 (Some 48);
        rule "m3" "PO" (Some "proj-1") None "r-pm" 1 None;
        rule "m4" "PO" (Some "proj-1") None "r-acc" 1 None];
     approvalRequest := [];
     approvalStep := [];
     approvalDelegation := [];
     idempotencyKey := [] |}.

Definition stepIds (n : nat) : Id :=
  match n with
  | O => "s1"
  | S O => "s2"
  | _ => "s3"
  end.

Definition submit (docType docId : string) (amt : Z) : RequestData :=
  {| rd_docType := docType; rd_docId := docId; rd_projectId := "proj-1";
     rd_amount := amt; rd_department := None |}.

(** alice submits a purchase request of 50,000: one step, for bob. *)
Definition db_small : DB :=
  fst (requestApproval (submit "PR" "doc-1" 50000) "alice" 1000 "req-1"
                       stepIds db0).

(** alice submits a purchase request of 2,000,000: two steps in
    sequence, for bob and then for carol. *)
Definition db_large : DB :=
  fst (requestApproval (submit "PR" "doc-2" 2000000) "alice" 1000 "req-1"
                       stepIds db0).

(** alice submits a purchase order: two parallel steps at order 1, for
    bob and for carol. *)
Definition db_parallel : DB :=
  fst (requestApproval (submit "PO" "doc-3" 700) "alice" 1000 "req-1"
                       stepIds db0).

End Fixture.

Module Scenario.
Import Fixture.

(** bob, assigned the only step of the small purchase request, delegates
    to carol from 0 to 10,000. *)
Definition db_delegated : DB :=
  fst (createDelegation
         {| dd_fromUser := "bob"; dd_toUser := "carol";
            dd_startDate := 0; dd_endDate := 10000 |}
         1500 "d1" db_small).

End Scenario.

(** ** Notions about delegations *)

Definition in_window (d : ApprovalDelegation) (t : Time) : Prop :=
  start_date d <= t <= end_date d.

(** The target already has a delegation back to the grantor that is
    active and has not ended at [now]. *)
Definition delegates_back (db : DB) (now : Time) (fromUser toUser : Id)
    : Prop :=
  exists d, In d (approvalDelegation db)
            /\ from_user d = toUser /\ to_user d = fromUser
            /\ dlg_is_active d = true /\ now <= end_date d.

(** The grantor already has an active delegation whose window shares an
    instant with the requested period. *)
Definition overlaps_existing (db : DB) (fromUser : Id)
    (startDate endDate : Time) : Prop :=
  exists d t, In d (approvalDelegation db)
              /\ from_user d = fromUser /\ dlg_is_active d = true
              /\ in_window d t /\ startDate <= t <= endDate.

(** No two active delegation rows of one grantor share an instant. *)
Definition no_overlap (ds : list ApprovalDelegation) : Prop :=
  ForallOrdPairs
    (fun d1 d2 =>
       from_user d1 = from_user d2 ->
       dlg_is_active d1 = true -> dlg_is_active d2 = true ->
       forall t, ~ (in_window d1 t /\ in_window d2 t))
    ds.

(** From [now] on, no two active delegations in opposite directions
    between two users are in their windows at the same instant. *)
Definition no_two_cycle (now : Time) (ds : list ApprovalDelegation) : Prop :=
  forall d1 d2, In d1 ds -> In d2 ds ->
    from_user d1 = to_user d2 -> to_user d1 = from_user d2 ->
    dlg_is_active d1 = true -> dlg_is_active d2 = true ->
    forall t, now <= t -> ~ (in_window d1 t /\ in_window d2 t).

(** ** Notions about the escalation scan *)

(** The step's matrix rule has an SLA configured (a non-null, non-zero
    number of hours) and the time since [t] has reached it. *)
Definition sla_reached (db : DB) (now : Time) (step : ApprovalStep)
    (request : ApprovalRequest) (t : Time) : Prop :=
  exists matrix hours,
    sla_matrix db request step = Some matrix
    /\ escalation_hours matrix = Some hours
    /\ hours <> 0
    /\ hours * ms_per_hour <= now - t.

(** What one run of the scan leaves of a step row. *)
Definition scan_step (raises : Id -> bool) (now : Time) (db : DB)
    (s : ApprovalStep) : ApprovalStep :=
  if StepStatus_eqb (status s) Pending && negb (escalated s) then
    match findRequestById db (approval_request_id s) with
    | Some r =>
        if RequestStatus_eqb (current_status r) InProgress then
          match escalation_body raises now db s r with
          | Escalate to => set_escalated to s
          | Continue | Caught => s
          end
        else s
    | None => s
    end
  else s.

(** The row the loop leaves of [s], given the selected steps. *)
Definition scan_selected (raises : Id -> bool) (now : Time) (db : DB)
    (sel : list (ApprovalStep * ApprovalRequest)) (s : ApprovalStep)
    : ApprovalStep :=
  match find (fun ar => String.eqb (step_id (fst ar)) (step_id s)) sel with
  | Some (a, r) =>
      match escalation_body raises now db a r with
      | Escalate to => set_escalated to s
      | Continue | Caught => s
      end
  | None => s
  end.

(** ** Disabling a delegation (delegations.service, disableDelegation) *)

Definition disableDelegation (id : Id) (db : DB)
    : DB * Result ApprovalDelegation :=
  match find (fun d => String.eqb (dlg_id d) id) (approvalDelegation db) with
  | None => (db, AppError 404)
  | Some delegation =>
      if negb (dlg_is_active delegation) then (db, AppError 409)
      else
        let disabled (d : ApprovalDelegation) :=
          {| dlg_id := dlg_id d; from_user := from_user d;
             to_user := to_user d; start_date := start_date d;
             end_date := end_date d; dlg_is_active := false |} in
        (with_delegations db
           (map (fun d => if String.eqb (dlg_id d) id then disabled d else d)
                (approvalDelegation db)),
         Ok (disabled delegation))
  end.

(** ** Sequences of service calls

    The calls the controllers and the worker make on the engine, each
    with the arguments it is given, and the store a sequence of them
    leaves. *)

Inductive Call :=
| CallRequestApproval (data : RequestData) (actorId : Id) (now : Time)
                      (reqId : Id) (stepIds : nat -> Id)
| CallApproveStep (approvalRequestId actorId : Id) (remarks_ : option string)
                  (now : Time)
| CallRejectStep (approvalRequestId actorId : Id) (remarks_ : option string)
                 (now : Time)
| CallCancelApproval (approvalRequestId actorId : Id) (now : Time)
| CallRunEscalation (raises : Id -> bool) (now : Time)
| CallCreateDelegation (data : DelegationData) (now : Time) (newId : Id)
| CallDisableDelegation (id : Id).

Definition perform (c : Call) (db : DB) : DB :=
  match c with
  | CallRequestApproval data actorId now reqId stepIds =>
      fst (requestApproval data actorId now reqId stepIds db)
  | CallApproveStep rid actorId rem now =>
      fst (approveStep rid actorId rem now db)
  | CallRejectStep rid actorId rem now =>
      fst (rejectStep rid actorId rem now db)
  | CallCancelApproval rid actorId now =>
      fst (cancelApproval rid actorId now db)
  | CallRunEscalation raises now => fst (runEscalation raises now db)
  | CallCreateDelegation data now newId =>
      fst (createDelegation data now newId db)
  | CallDisableDelegation id => fst (disableDelegation id db)
  end.

Definition perform_all (calls : list Call) (db : DB) : DB :=
  fold_left (fun d c => perform c d) calls db.

(** The clock reading of a call that creates a delegation stays below [T]. *)
Definition before (T : Time) (c : Call) : Prop :=
  match c with
  | CallCreateDelegation _ now _ => now <= T
  | _ => True
  end.

(** No two request rows that are active (in progress, or pending) belong
    to the same document. *)
Definition one_active_per_document (rs : list ApprovalRequest) : Prop :=
  ForallOrdPairs
    (fun r1 r2 =>
       ~ (active_for (doc_type r1) (doc_id r1) r1
          /\ active_for (doc_type r1) (doc_id r1) r2))
    rs.

(** What the escalation scan may do to a step row: nothing, or set the
    two escalation fields. *)
Definition flagged (s s' : ApprovalStep) : Prop :=
  s' = s \/ exists to, s' = set_escalated to s.

(** How one call may change the request table: not at all; by adding one
    row, in progress, for a document that has no active request; or by
    rewriting the rows that carry the id of a request in progress, either
    moving the current step or completing with a terminal status. *)
Definition table_change (rs rs' : list ApprovalRequest) : Prop :=
  rs' = rs
  \/ (exists x,
        rs' = rs ++ [x] /\ current_status x = InProgress
        /\ forall r, In r rs -> ~ active_for (doc_type x) (doc_id x) r)
  \/ (exists rid f request,
        find (fun r => String.eqb (req_id r) rid) rs = Some request
        /\ current_status request = InProgress
        /\ ((exists n, f = set_current_step n)
            \/ (exists st now, f = complete_as st now
                               /\ st <> InProgress /\ st <> RPending))
        /\ rs' = map (fun r => if String.eqb (req_id r) rid then f r else r)
                     rs).

Module Trace.
Import Fixture.

(** The small request after bob has approved its only step: approved and
    completed. *)
Definition db_decided : DB := fst (approveStep "req-1" "bob" None 2000 db_small).

(** Later calls: a new submission for the same document, a repeated
    approval, a rejection and a cancellation of the decided request, a
    scan, and a delegation. *)
Definition later_calls : list Call :=
  [CallRequestApproval (submit "PR" "doc-1" 60000) "alice" 3000 "req-2"
                       (fun _ => "s9");
   CallApproveStep "req-1" "dave" None 3100;
   CallRejectStep "req-1" "bob" (Some "late") 3200;
   CallCancelApproval "req-1" "alice" 3300;
   CallApproveStep "req-2" "erin" None 3400;
   CallRunEscalation (fun _ => false) 90000000;
   CallCreateDelegation {| dd_fromUser := "bob"; dd_toUser := "erin";
                           dd_startDate := 4000; dd_endDate := 9000 |}
                        3500 "d7";
   CallDisableDelegation "d7"].

End Trace.

(** ** Notions about the progress of a request *)

(** A request in progress can be acted on: some step is pending at its
    current step order, and none at a lower order. *)
Definition actionable (db : DB) (rid : Id) : Prop :=
  forall request,
    findRequestById db rid = Some request ->
    current_status request = InProgress ->
    pending_at db rid (current_step request)
    /\ forall k, k < current_step request -> ~ pending_at db rid k.

(** The number of pending step rows of a request. *)
Definition pending_count (db : DB) (rid : Id) : nat :=
  List.length
    (filter (fun s => String.eqb (approval_request_id s) rid
                      && StepStatus_eqb (status s) Pending)
            (approvalStep db)).

(** ** Approver inbox (approvals.repository, findInboxSteps) *)

Section SortWith.
Variable A : Type.
Variable leb : A -> A -> bool.

Fixpoint insertWith (x : A) (l : list A) : list A :=
  match l with
  | [] => [x]
  | y :: l' => if leb x y then x :: y :: l' else y :: insertWith x l'
  end.

Fixpoint sortWith (l : list A) : list A :=
  match l with
  | [] => []
  | x :: l' => insertWith x (sortWith l')
  end.
End SortWith.

(** The [approval_requests] relation of a step row. *)
Definition approval_requests (db : DB) (s : ApprovalStep)
    : option ApprovalRequest :=
  findRequestById db (approval_request_id s).

(** [orderBy: { approval_requests: { created_at: "asc" } }]: by the
    creation time of the parent request, nulls last. *)
Definition created_asc (db : DB) (s1 s2 : ApprovalStep) : bool :=
  match option_map created_at (approval_requests db s1),
        option_map created_at (approval_requests db s2) with
  | Some (Some t1), Some (Some t2) => t1 <=? t2
  | Some (Some _), _ => true
  | _, Some (Some _) => false
  | _, _ => true
  end.

Definition findInboxSteps (db : DB) (userId : Id) (userRoleId : option Id)
    (statusFilter : option StepStatus) : list ApprovalStep :=
  let stepStatus := match statusFilter with
                    | Some st => st
                    | None => Pending
                    end in
  let steps :=
    sortWith (created_asc db)
      (filter (fun s =>
                 StepStatus_eqb (status s) stepStatus
                 && (opt_eqb (approver_user s) userId
                     || opt_id_eqb (role_id s) userRoleId)
                 && match approval_requests db s with
                    | Some req =>
                        RequestStatus_eqb (current_status req) InProgress
                    | None => false
                    end)
              (approvalStep db)) in
  filter (fun s => match approval_requests db s with
                   | Some req => step_order s =? current_step req
                   | None => false
                   end)
         steps.

(** Everything of a step row but its two escalation fields. *)
Definition same_but_escalation (s s' : ApprovalStep) : Prop :=
  step_id s' = step_id s
  /\ approval_request_id s' = approval_request_id s
  /\ step_order s' = step_order s
  /\ role_id s' = role_id s
  /\ approver_user s' = approver_user s
  /\ status s' = status s
  /\ action s' = action s
  /\ remarks s' = remarks s
  /\ approved_at s' = approved_at s.

Module Retry.

(** A call to approve request [req-1], carrying the key [k1]. *)
Definition call : HttpRequest :=
  {| idempotency_key_header := Some "k1"; req_user := Some "bob";
     originalUrl := "/api/approvals/req-1/approve";
     req_body := Some (JObject [("remarks", JString "ok")]);
     requestId := None |}.

(** The handler behind it: the approve controller, answering 200 with
    the outcome or handing the error status on. *)
Definition approve_handler (db : DB) : DB * HttpResponse :=
  match approveStep "req-1" "bob" (Some "ok") 2000 db with
  | (db', Ok out) =>
      (db', {| res_status := 200;
               res_body := JObject [("success", JBool true);
                                    ("message", JString "Step approved")] |})
  | (db', AppError code) =>
      (db', {| res_status := code;
               res_body := JObject [("success", JBool false)] |})
  end.

End Retry.

(** ** Notions about disabling and about sequences of delegation calls *)

(** The row [disableDelegation] writes for a delegation: the same row
    with [is_active] false. *)
Definition disabled_row (d : ApprovalDelegation) : ApprovalDelegation :=
  {| dlg_id := dlg_id d; from_user := from_user d; to_user := to_user d;
     start_date := start_date d; end_date := end_date d;
     dlg_is_active := false |}.

(** The requester may be the approver of a step only as a holder of the
    [super_admin] role. *)
Definition not_self_approved (db : DB) (requestedBy : Id) (s : ApprovalStep)
    : Prop :=
  approver_user s = Some requestedBy ->
  exists u, In u (users db) /\ user_id u = requestedBy
            /\ user_is_active u = true /\ deleted_at u = None
            /\ role_code_is db u "super_admin" = true.

(** What the scan may write on a step: nothing, a flag with no target,
    or a flag whose target is an active user that is not deleted. *)
Definition escalated_to_active (db : DB) (s s' : ApprovalStep) : Prop :=
  s' = s
  \/ s' = set_escalated None s
  \/ exists u, In u (users db) /\ user_is_active u = true
               /\ deleted_at u = None
               /\ s' = set_escalated (Some (user_id u)) s.

Module Deleg.
Import Fixture.

Definition grant (fromUser toUser : Id) (startDate endDate : Time)
    : DelegationData :=
  {| dd_fromUser := fromUser; dd_toUser := toUser;
     dd_startDate := startDate; dd_endDate := endDate |}.

(** bob delegates to carol; carol's delegation back and a second,
    overlapping delegation of bob are refused; the first delegation is
    disabled, after which carol's delegation back is accepted; bob
    approves; disabling the first delegation again is refused. *)
Definition calls : list Call :=
  [CallCreateDelegation (grant "bob" "carol" 0 10000) 1500 "d1";
   CallCreateDelegation (grant "carol" "bob" 5000 20000) 1600 "d2";
   CallCreateDelegation (grant "bob" "erin" 9000 12000) 1700 "d3";
   CallDisableDelegation "d1";
   CallCreateDelegation (grant "carol" "bob" 5000 20000) 1800 "d4";
   CallApproveStep "req-1" "bob" None 2000;
   CallDisableDelegation "d1"].

End Deleg.

(** ** Roles and permissions (roles.service)

    The role rows with the columns the role service reads and writes,
    the permission catalogue and the role-permission assignments. *)

Record RoleRow := {
  rr_id : Id;
  rr_name : string;
  rr_code : string;
  rr_is_system_role : bool;
  rr_is_active : bool;
  rr_deleted_at : option Time;
  rr_updated_at : option Time }.

Record Permission := { perm_id : Id; perm_code : string }.

Record RolePermission := { rp_role_id : Id; rp_permission_id : Id }.

Record RbacStore := {
  rbac_role : list RoleRow;
  rbac_user : list User;
  rbac_permission : list Permission;
  rbac_rolePermission : list RolePermission }.

(** [prisma.role.findFirst({ where: { id, deleted_at: null } })] *)
Definition role_findFirst (st : RbacStore) (id : Id) : option RoleRow :=
  find (fun r => String.eqb (rr_id r) id && is_null (rr_deleted_at r))
       (rbac_role st).

Definition with_rolePermission (st : RbacStore) (rps : list RolePermission)
    : RbacStore :=
  {| rbac_role := rbac_role st; rbac_user := rbac_user st;
     rbac_permission := rbac_permission st;
     rbac_rolePermission := rps |}.

Definition with_role (st : RbacStore) (rs : list RoleRow) : RbacStore :=
  {| rbac_role := rs; rbac_user := rbac_user st;
     rbac_permission := rbac_permission st;
     rbac_rolePermission := rbac_rolePermission st |}.

Record AssignOutcome := { added : Z; skipped : Z; total : Z }.

(** The permission rows whose code is among the requested ones. *)
Definition permissions_in (st : RbacStore) (permissionCodes : list string)
    : list Permission :=
  filter (fun p => existsb (String.eqb (perm_code p)) permissionCodes)
         (rbac_permission st).

(** The rows to create: one for each found permission the role does not
    have yet. *)
Definition newAssignments (st : RbacStore) (roleId : Id)
    (permissionCodes : list string) : list RolePermission :=
  let existing :=
    filter (fun e => String.eqb (rp_role_id e) roleId)
           (rbac_rolePermission st) in
  let existingPermIds := map rp_permission_id existing in
  map (fun p => {| rp_role_id := roleId; rp_permission_id := perm_id p |})
      (filter (fun p => negb (existsb (String.eqb (perm_id p))
                                      existingPermIds))
              (permissions_in st permissionCodes)).

Definition assignPermissions (roleId : Id) (permissionCodes : list string)
    (st : RbacStore) : RbacStore * Result AssignOutcome :=
  match role_findFirst st roleId with
  | None => (st, AppError 404)
  | Some _ =>
      let permissions := permissions_in st permissionCodes in
      let foundCodes := map perm_code permissions in
      let missing :=
        filter (fun c => negb (existsb (String.eqb c) foundCodes))
               permissionCodes in
      if (0 <? List.length missing)%nat then (st, AppError 400)
      else
        let news := newAssignments st roleId permissionCodes in
        (with_rolePermission st (rbac_rolePermission st ++ news),
         Ok {| added := Z.of_nat (List.length news);
               skipped := Z.of_nat (List.length permissions)
                          - Z.of_nat (List.length news);
               total := Z.of_nat (List.length permissions) |})
  end.

(** [deleteRole]: a soft delete.  [now] and [later] are the two clock
    readings of the update. *)
Definition deleteRole (id : Id) (now later : Time) (st : RbacStore)
    : RbacStore * Result unit :=
  match role_findFirst st id with
  | None => (st, AppError 404)
  | Some role =>
      if rr_is_system_role role then (st, AppError 403)
      else
        let usersWithRole :=
          List.length
            (filter (fun u => opt_eqb (user_role_id u) id
                              && is_null (deleted_at u) && user_is_active u)
                    (rbac_user st)) in
        if (0 <? usersWithRole)%nat then (st, AppError 409)
        else
          (with_role st
             (map (fun r =>
                     if String.eqb (rr_id r) id
                     then {| rr_id := rr_id r; rr_name := rr_name r;
                             rr_code := rr_code r;
                             rr_is_system_role := rr_is_system_role r;
                             rr_is_active := false;
                             rr_deleted_at := Some now;
                             rr_updated_at := Some later |}
                     else r)
                  (rbac_role st)),
           Ok tt)
  end.

(** [getRoleById]: the role row, with its assignments and the
    permission row of each. *)
Definition getRoleById (id : Id) (st : RbacStore)
    : Result (RoleRow * list (RolePermission * option Permission)) :=
  match role_findFirst st id with
  | None => AppError 404
  | Some role =>
      Ok (role,
          map (fun rp =>
                 (rp, find (fun p => String.eqb (perm_id p)
                                                (rp_permission_id rp))
                           (rbac_permission st)))
              (filter (fun rp => String.eqb (rp_role_id rp) id)
                      (rbac_rolePermission st)))
  end.

Module Rbac.

Definition role (id code : string) (system : bool) : RoleRow :=
  {| rr_id := id; rr_name := code; rr_code := code;
     rr_is_system_role := system; rr_is_active := true;
     rr_deleted_at := None; rr_updated_at := None |}.

(** The users of the approval fixture; the role [r-old] has no holder,
    and the project managers already hold one permission. *)
Definition st0 : RbacStore :=
  {| rbac_role := [role "r-sa" "super_admin" true;
                   role "r-pm" "project_manager" false;
                   role "r-old" "legacy" false];
     rbac_user := users Fixture.db0;
     rbac_permission :=
       [{| perm_id := "p1"; perm_code := "approval.request" |};
        {| perm_id := "p2"; perm_code := "approval.approve" |};
        {| perm_id := "p3"; perm_code := "role.manage" |}];
     rbac_rolePermission :=
       [{| rp_role_id := "r-pm"; rp_permission_id := "p1" |}] |}.

Definition codes : list string :=
  ["approval.approve"; "approval.request"; "approval.approve"].

End Rbac.

(** ** Notions about a repeated approval *)

(** Some step of the request, still pending at order [n], is assigned to
    a user who has a delegation to [actorId], switched on and in its
    window at [now]. *)
Definition delegated_pending (db : DB) (rid : Id) (n : Z) (actorId : Id)
    (now : Time) : Prop :=
  exists s u d,
    In s (approvalStep db) /\ approval_request_id s = rid
    /\ step_order s = n /\ status s = Pending
    /\ approver_user s = Some u /\ u <> ""
    /\ In d (approvalDelegation db) /\ delegates_at u now d
    /\ to_user d = actorId.

Module Repeat.
Import Fixture.

(** The parallel purchase order, bob's and carol's steps both pending at
    order 1, with a delegation from carol to bob whose window opens at
    2500. *)
Definition db_opening : DB :=
  fst (createDelegation
         {| dd_fromUser := "carol"; dd_toUser := "bob";
            dd_startDate := 2500; dd_endDate := 10000 |}
         1500 "d1" db_parallel).

End Repeat.

Module Escalation.
Import Fixture.

(** bob submits a purchase request of 50,000: its only step goes to erin,
    the other project manager, who has no manager. *)
Definition db_due : DB :=
  fst (requestApproval (submit "PR" "doc-4" 50000) "bob" 1000 "req-1"
                       stepIds db0).

(** The seeded store with one more rule: purchase orders of any project,
    order 1, with an SLA of 24 hours. *)
Definition db0_global_sla : DB :=
  {| roles := roles db0; users := users db0;
     approvalMatrix :=
       approvalMatrix db0 ++ [rule "m5" "PO" None None "r-acc" 1 (Some 24)];
     approvalRequest := approvalRequest db0;
     approvalStep := approvalStep db0;
     approvalDelegation := approvalDelegation db0;
     idempotencyKey := idempotencyKey db0 |}.

(** alice's purchase order for proj-1 is matched by the two rules of that
    project, neither of which carries an SLA. *)
Definition db_other_rule : DB :=
  fst (requestApproval (submit "PO" "doc-3" 700) "alice" 1000 "req-1"
                       stepIds db0_global_sla).

End Escalation.

(** * Properties *)

(** ** Ordering *)

Section OrderByFacts.
Variable A : Type.
Variable key : A -> Z.

Lemma insert_by_perm (x : A) (l : list A) :
  Permutation (insert_by key x l) (x :: l).
Proof.
  induction l as [|y l IH]; simpl; [reflexivity|].
  destruct (key x <=? key y); [reflexivity|].
  rewrite IH. apply perm_swap.
Qed.

Lemma orderBy_perm (l : list A) : Permutation (orderBy key l) l.
Proof.
  induction l as [|x l IH]; simpl; [constructor|].
  rewrite insert_by_perm. now constructor.
Qed.

Lemma orderBy_In (l : list A) (x : A) : In x (orderBy key l) <-> In x l.
Proof.
  split; apply Permutation_in;
    [apply orderBy_perm | symmetry; apply orderBy_perm].
Qed.

Lemma insert_by_sorted (x : A) (l : list A) :
  StronglySorted (key_le key) l ->
  StronglySorted (key_le key) (insert_by key x l).
Proof.
  induction 1 as [|y l Hs IH Hall]; simpl.
  - repeat constructor.
  - destruct (key x <=? key y) eqn:E.
    + apply Z.leb_le in E. constructor.
      * now constructor.
      * constructor; [exact E|].
        eapply Forall_impl; [|exact Hall].
        unfold key_le; intros; lia.
    + apply Z.leb_gt in E. constructor; [exact IH|].
      eapply Permutation_Forall.
      * symmetry. apply insert_by_perm.
      * constructor; [unfold key_le; lia | exact Hall].
Qed.

Lemma orderBy_sorted (l : list A) : StronglySorted (key_le key) (orderBy key l).
Proof.
  induction l as [|x l IH]; simpl; [constructor|].
  now apply insert_by_sorted.
Qed.

Lemma orderBy_nil (l : list A) : orderBy key l = [] -> l = [].
Proof.
  intros H. apply Permutation_nil. rewrite <- H. apply orderBy_perm.
Qed.

(** The first row of an ordered result has the least key. *)
Lemma orderBy_head (l : list A) (x : A) (rest : list A) :
  orderBy key l = x :: rest ->
  In x l /\ forall y, In y l -> key x <= key y.
Proof.
  intros H. split.
  - apply orderBy_In. rewrite H. now left.
  - intros y Hy. apply orderBy_In in Hy. rewrite H in Hy.
    pose proof (orderBy_sorted l) as Hs. rewrite H in Hs.
    inversion Hs as [|? ? _ Hall]; subst.
    destruct Hy as [->|Hy]; [lia|].
    rewrite Forall_forall in Hall. now apply Hall.
Qed.
End OrderByFacts.

(** ** Matrix resolver *)

Lemma baseWhere_spec docType amt department_ m :
  baseWhere docType amt department_ m = true
  <-> rule_matches docType amt department_ m.
Proof.
  unfold baseWhere, rule_matches, in_amount_range, department_ok.
  rewrite !andb_true_iff, String.eqb_eq.
  split.
  - intros [[[Hd Hlo] Hhi] Hdep]. split; [exact Hd|]. split; [split|].
    + intros lo E. rewrite E in Hlo. now apply Z.leb_le.
    + intros hi E. rewrite E in Hhi. now apply Z.leb_le.
    + intros T. rewrite T in Hdep.
      destruct (mx_department m) as [d|]; [|now left].
      destruct department_ as [d'|]; [|discriminate].
      apply String.eqb_eq in Hdep. right. now subst.
  - intros [Hd [[Hlo Hhi] Hdep]]. repeat split; try exact Hd.
    + destruct (min_amount m) as [lo|]; [|reflexivity].
      apply Z.leb_le. now apply Hlo.
    + destruct (max_amount m) as [hi|]; [|reflexivity].
      apply Z.leb_le. now apply Hhi.
    + destruct (truthy department_) eqn:T; [|reflexivity].
      destruct (Hdep eq_refl) as [E|E]; rewrite E; [reflexivity|].
      destruct department_ as [d'|]; [|discriminate].
      apply String.eqb_refl.
Qed.

Lemma opt_eqb_eq o x : opt_eqb o x = true <-> o = Some x.
Proof.
  destruct o as [y|]; simpl; [|split; discriminate].
  rewrite String.eqb_eq. split; congruence.
Qed.

Lemma is_null_eq {A} (o : option A) : is_null o = true <-> o = None.
Proof. destruct o; simpl; split; congruence. Qed.

(** C6.  [findMatrices] returns exactly the rules of the document type
    whose amount range contains the amount (inclusive bounds, a null
    bound unbounded) and whose department is null or the given one when
    a department is given; these are the rules scoped to the project when
    at least one such rule exists and the global rules (project null)
    otherwise; and the result is in ascending step order. *)
Theorem findMatrices_exact db docType projectId amt department_ :
  let result := findMatrices db docType projectId amt department_ in
  let scoped :=
    exists m, In m (approvalMatrix db)
              /\ rule_matches docType amt department_ m
              /\ mx_project_id m = Some projectId in
  (forall m,
      In m result <->
      In m (approvalMatrix db)
      /\ rule_matches docType amt department_ m
      /\ (scoped -> mx_project_id m = Some projectId)
      /\ (~ scoped -> mx_project_id m = None))
  /\ StronglySorted (key_le mx_step_order) result.
Proof.
  cbv zeta. unfold findMatrices.
  set (proj := filter (fun m => baseWhere docType amt department_ m
                                && opt_eqb (mx_project_id m) projectId)
                      (approvalMatrix db)).
  set (glob := filter (fun m => baseWhere docType amt department_ m
                                && is_null (mx_project_id m))
                      (approvalMatrix db)).
  assert (Hproj : forall m, In m proj <->
            In m (approvalMatrix db) /\ rule_matches docType amt department_ m
            /\ mx_project_id m = Some projectId).
  { intros m. unfold proj.
    rewrite filter_In, andb_true_iff, baseWhere_spec, opt_eqb_eq. tauto. }
  assert (Hglob : forall m, In m glob <->
            In m (approvalMatrix db) /\ rule_matches docType amt department_ m
            /\ mx_project_id m = None).
  { intros m. unfold glob.
    rewrite filter_In, andb_true_iff, baseWhere_spec, is_null_eq. tauto. }
  destruct (orderBy mx_step_order proj) as [|m0 rest] eqn:E.
  - apply orderBy_nil in E.
    assert (Hno : ~ exists m, In m (approvalMatrix db)
                    /\ rule_matches docType amt department_ m
                    /\ mx_project_id m = Some projectId).
    { intros [m Hm]. apply Hproj in Hm. rewrite E in Hm. destruct Hm. }
    split; [|apply orderBy_sorted].
    intros m. rewrite orderBy_In, Hglob. tauto.
  - assert (Hyes : exists m, In m (approvalMatrix db)
                    /\ rule_matches docType amt department_ m
                    /\ mx_project_id m = Some projectId).
    { exists m0. apply Hproj. apply (orderBy_In mx_step_order).
      rewrite E. now left. }
    split; [|rewrite <- E; apply orderBy_sorted].
    intros m. rewrite <- E, orderBy_In, Hproj. tauto.
Qed.

(** ** Approver resolver *)

Lemma findUsersByRole_In db roleId u :
  In u (findUsersByRole db roleId) <->
  In u (users db) /\ user_role_id u = Some roleId
  /\ user_is_active u = true /\ deleted_at u = None.
Proof.
  unfold findUsersByRole.
  rewrite filter_In, !andb_true_iff, opt_eqb_eq, is_null_eq. tauto.
Qed.

Lemma findPendingDelegation_Some db uid now d :
  findPendingDelegation db uid now = Some d ->
  In d (approvalDelegation db) /\ from_user d = uid
  /\ dlg_is_active d = true /\ start_date d <= now <= end_date d.
Proof.
  unfold findPendingDelegation, delegation_active_at. intros H.
  apply find_some in H. destruct H as [Hin H].
  rewrite !andb_true_iff, String.eqb_eq, !Z.leb_le in H. tauto.
Qed.

Lemma findPendingDelegation_None db uid now :
  findPendingDelegation db uid now = None ->
  forall d, In d (approvalDelegation db) -> from_user d = uid ->
            dlg_is_active d = true -> ~ (start_date d <= now <= end_date d).
Proof.
  unfold findPendingDelegation, delegation_active_at. intros H d Hin Hf Ha Hw.
  pose proof (find_none _ _ H d Hin) as Hn. simpl in Hn.
  rewrite Hf, String.eqb_refl, Ha in Hn. simpl in Hn.
  apply andb_false_iff in Hn. rewrite !Z.leb_gt in Hn. lia.
Qed.

Lemma find_first {A} (P : A -> bool) l x :
  find P l = Some x <->
  exists pre post,
    l = pre ++ x :: post /\ P x = true /\ Forall (fun y => P y = false) pre.
Proof.
  induction l as [|a l IH]; simpl.
  - split; [discriminate|]. intros (pre & post & E & _).
    destruct pre; discriminate.
  - destruct (P a) eqn:Ea.
    + split.
      * intros [= <-]. exists [], l. repeat split; auto.
      * intros (pre & post & E & Hx & Hpre).
        destruct pre as [|p pre]; simpl in E; injection E as -> ->;
          [reflexivity|].
        inversion Hpre; subst. congruence.
    + rewrite IH. split.
      * intros (pre & post & -> & Hx & Hpre). exists (a :: pre), post.
        repeat split; auto.
      * intros (pre & post & E & Hx & Hpre).
        destruct pre as [|p pre]; simpl in E; injection E as -> ->;
          [congruence|].
        inversion Hpre; subst. exists pre, post. auto.
Qed.

Lemma find_absent {A} (P : A -> bool) l :
  find P l = None <-> forall y, In y l -> P y = false.
Proof.
  split; [intros H y; now apply find_none|].
  induction l as [|a l IH]; simpl; intros H; [reflexivity|].
  rewrite (H a) by now left. apply IH. intros y Hy. apply H. now right.
Qed.

Lemma role_code_is_holds db u code :
  role_code_is db u code = true <-> holds_role db u code.
Proof.
  unfold role_code_is, user_roles, holds_role.
  destruct (user_role_id u) as [rid|].
  - split.
    + destruct (find _ (roles db)) as [r|] eqn:E; [|discriminate].
      intros Hc. apply find_first in E.
      destruct E as (pre & post & Hl & Hr & Hpre).
      exists rid, pre, r, post. apply String.eqb_eq in Hr, Hc.
      repeat split; auto.
      eapply Forall_impl; [|exact Hpre]. intros r'. apply String.eqb_neq.
    + intros (rid' & pre & r & post & [= <-] & Hl & Hr & Hpre & Hc).
      assert (E : find (fun r0 => String.eqb (role_id_ r0) rid) (roles db)
                  = Some r).
      { apply find_first. exists pre, post. split; [exact Hl|].
        split; [now apply String.eqb_eq|].
        eapply Forall_impl; [|exact Hpre]. intros r'. apply String.eqb_neq. }
      rewrite E. now apply String.eqb_eq.
  - split; [discriminate|]. intros (rid & _ & _ & _ & E & _). discriminate.
Qed.

Lemma role_code_is_not db u code :
  role_code_is db u code = false <-> ~ holds_role db u code.
Proof.
  rewrite <- role_code_is_holds.
  destruct (role_code_is db u code); split; congruence.
Qed.

Lemma delegates_at_test uid now d :
  String.eqb (from_user d) uid && delegation_active_at now d = true
  <-> delegates_at uid now d.
Proof.
  unfold delegation_active_at, delegates_at.
  rewrite !andb_true_iff, String.eqb_eq, !Z.leb_le. tauto.
Qed.

Lemma delegates_at_test_false uid now d :
  String.eqb (from_user d) uid && delegation_active_at now d = false
  <-> ~ delegates_at uid now d.
Proof.
  rewrite <- delegates_at_test.
  destruct (String.eqb (from_user d) uid && delegation_active_at now d);
    split; congruence.
Qed.

Lemma findPendingDelegation_in_force db uid now d :
  findPendingDelegation db uid now = Some d <->
  delegation_in_force db uid now d.
Proof.
  unfold findPendingDelegation, delegation_in_force. rewrite find_first.
  split; intros (pre & post & Hl & Hd & Hpre); exists pre, post;
    (split; [exact Hl|]); (split; [now apply delegates_at_test|]);
    (eapply Forall_impl; [|exact Hpre]); intros d';
    apply delegates_at_test_false.
Qed.

Lemma findPendingDelegation_absent db uid now :
  findPendingDelegation db uid now = None <->
  no_delegation_in_force db uid now.
Proof.
  unfold findPendingDelegation, no_delegation_in_force. rewrite find_absent.
  split; intros H d Hin; apply delegates_at_test_false; now apply H.
Qed.

Lemma filter_subsequence {A} (P : A -> bool) l : subsequence (filter P l) l.
Proof.
  induction l as [|a l IH]; simpl; [constructor|].
  destruct (P a); now constructor.
Qed.

Lemma passed_over_step db requestedBy now c :
  passed_over db requestedBy now c ->
  forall rest,
    resolve_candidates db requestedBy now (c :: rest)
    = resolve_candidates db requestedBy now rest.
Proof.
  intros [[Hc Hr]|[d [Hd Ht]]] rest; simpl.
  - apply role_code_is_not in Hr.
    rewrite Hc, String.eqb_refl, Hr. reflexivity.
  - destruct (String.eqb (user_id c) requestedBy
              && negb (role_code_is db c "super_admin")); [reflexivity|].
    apply findPendingDelegation_in_force in Hd.
    rewrite Hd, Ht, String.eqb_refl. reflexivity.
Qed.

Lemma resolves_to_step db requestedBy now c r :
  resolves_to db requestedBy now c r ->
  forall rest, resolve_candidates db requestedBy now (c :: rest) = Some r.
Proof.
  intros [Hself Hd] rest. simpl.
  assert (Hguard : String.eqb (user_id c) requestedBy
                   && negb (role_code_is db c "super_admin") = false).
  { destruct (String.eqb (user_id c) requestedBy) eqn:E; [|reflexivity].
    apply String.eqb_eq in E. apply Hself, role_code_is_holds in E.
    now rewrite E. }
  rewrite Hguard.
  destruct Hd as [(d & Hd & Hne & ->)|[Hd ->]].
  - apply findPendingDelegation_in_force in Hd. rewrite Hd.
    apply String.eqb_neq in Hne. now rewrite Hne.
  - apply findPendingDelegation_absent in Hd. now rewrite Hd.
Qed.

Lemma candidate_cases db requestedBy now c :
  passed_over db requestedBy now c
  \/ exists r, resolves_to db requestedBy now c r.
Proof.
  unfold passed_over, resolves_to.
  assert (Hself : (user_id c = requestedBy
                   /\ ~ holds_role db c "super_admin")
                  \/ (user_id c = requestedBy ->
                      holds_role db c "super_admin")).
  { destruct (role_code_is db c "super_admin") eqn:R.
    - right. intros _. now apply role_code_is_holds.
    - destruct (String.eqb (user_id c) requestedBy) eqn:E.
      + apply String.eqb_eq in E. left. split; [exact E|].
        now apply role_code_is_not.
      + apply String.eqb_neq in E. right. intros. contradiction. }
  destruct Hself as [Hself|Hself]; [now left; left|].
  destruct (findPendingDelegation db (user_id c) now) as [d|] eqn:D.
  - apply findPendingDelegation_in_force in D.
    destruct (String.eqb (to_user d) requestedBy) eqn:T.
    + apply String.eqb_eq in T. left; right. now exists d.
    + apply String.eqb_neq in T. right. eexists. split; [exact Hself|].
      left. exists d. split; [exact D|]. split; [exact T|reflexivity].
  - apply findPendingDelegation_absent in D.
    right. eexists. split; [exact Hself|]. right. split; [exact D|reflexivity].
Qed.

Lemma passed_over_not_resolves db requestedBy now c r :
  passed_over db requestedBy now c -> ~ resolves_to db requestedBy now c r.
Proof.
  intros [[Hc Hr]|[d [Hd Ht]]] [Hself Hres].
  - exact (Hr (Hself Hc)).
  - apply findPendingDelegation_in_force in Hd.
    destruct Hres as [(d' & Hd' & Hne & _)|[Hnone _]].
    + apply findPendingDelegation_in_force in Hd'.
      rewrite Hd in Hd'. injection Hd' as <-. contradiction.
    + apply findPendingDelegation_absent in Hnone.
      rewrite Hd in Hnone. discriminate.
Qed.

Lemma resolve_candidates_Some db requestedBy now cands r :
  resolve_candidates db requestedBy now cands = Some r <->
  exists pre c post,
    cands = pre ++ c :: post
    /\ Forall (passed_over db requestedBy now) pre
    /\ resolves_to db requestedBy now c r.
Proof.
  induction cands as [|c rest IH].
  - simpl. split; [discriminate|].
    intros (pre & c & post & E & _). destruct pre; discriminate.
  - destruct (candidate_cases db requestedBy now c) as [Hp|[r' Hr']].
    + rewrite (passed_over_step Hp). rewrite IH. split.
      * intros (pre & c' & post & -> & Hall & Hres).
        exists (c :: pre), c', post.
        split; [reflexivity|]. split; [now constructor | exact Hres].
      * intros (pre & c' & post & E & Hall & Hres).
        destruct pre as [|p pre]; simpl in E; injection E as -> ->.
        -- exfalso. eapply passed_over_not_resolves; eauto.
        -- inversion Hall; subst. exists pre, c', post. auto.
    + rewrite (resolves_to_step Hr'). split.
      * intros [= <-]. exists [], c, rest.
        split; [reflexivity|]. split; [constructor | exact Hr'].
      * intros (pre & c' & post & E & Hall & Hres).
        destruct pre as [|p pre]; simpl in E; injection E as -> ->.
        -- pose proof (resolves_to_step Hres post) as H1.
           rewrite (resolves_to_step Hr' post) in H1. exact H1.
        -- inversion Hall; subst.
           exfalso. eapply passed_over_not_resolves; eauto.
Qed.

Lemma resolve_candidates_None db requestedBy now cands :
  resolve_candidates db requestedBy now cands = None <->
  Forall (passed_over db requestedBy now) cands.
Proof.
  induction cands as [|c rest IH].
  - simpl. split; auto.
  - destruct (candidate_cases db requestedBy now c) as [Hp|[r' Hr']].
    + rewrite (passed_over_step Hp), IH. split.
      * intros H. now constructor.
      * intros H. now inversion H.
    + rewrite (resolves_to_step Hr'). split; [discriminate|].
      intros H. inversion H; subst.
      exfalso. eapply passed_over_not_resolves; eauto.
Qed.

(** C7.  [resolveApprover] walks the active, non-deleted holders of the
    role, in the order the user table has them, and returns what the
    first candidate that is not passed over resolves to.  A candidate is
    passed over when it is the requester (unless the role row its role id
    names is coded [super_admin]) or when its delegation in force at
    [now], that is the first row of the delegation table granted by it,
    switched on and with [start_date <= now <= end_date], points to the
    requester.  Otherwise it resolves to the delegate of that delegation,
    flagged as a redirect, and to itself, not flagged, when the table has
    no such row.  When every candidate is passed over, or no role is
    given, the result is none, a value and not an error. *)
Theorem resolveApprover_first db roleId requestedBy now :
  (forall u, In u (findUsersByRole db roleId) <->
             In u (users db) /\ user_role_id u = Some roleId
             /\ user_is_active u = true /\ deleted_at u = None)
  /\ subsequence (findUsersByRole db roleId) (users db)
  /\ (roleId <> "" ->
      (forall r,
          resolveApprover db (Some roleId) requestedBy now = Some r <->
          exists pre c post,
            findUsersByRole db roleId = pre ++ c :: post
            /\ Forall (passed_over db requestedBy now) pre
            /\ resolves_to db requestedBy now c r)
      /\ (resolveApprover db (Some roleId) requestedBy now = None <->
          Forall (passed_over db requestedBy now)
                 (findUsersByRole db roleId)))
  /\ resolveApprover db (Some "") requestedBy now = None
  /\ resolveApprover db None requestedBy now = None.
Proof.
  split; [intros u; apply findUsersByRole_In|].
  split; [apply filter_subsequence|].
  split; [|split; reflexivity].
  intros Hne. apply String.eqb_neq in Hne.
  unfold resolveApprover. rewrite Hne. split.
  - intros r. apply resolve_candidates_Some.
  - apply resolve_candidates_None.
Qed.

(** ** Request creation *)

Lemma RequestStatus_eqb_eq a b : RequestStatus_eqb a b = true <-> a = b.
Proof. destruct a, b; simpl; split; congruence. Qed.

Lemma StepStatus_eqb_eq a b : StepStatus_eqb a b = true <-> a = b.
Proof. destruct a, b; simpl; split; congruence. Qed.

Lemma findActiveRequest_None db docType docId :
  findActiveRequest db docType docId = None <->
  forall r, In r (approvalRequest db) -> ~ active_for docType docId r.
Proof.
  unfold findActiveRequest, active_for. split.
  - intros H r Hin (Ht & Hi & Hs).
    pose proof (find_none _ _ H r Hin) as Hn. simpl in Hn.
    rewrite Ht, Hi, !String.eqb_refl in Hn. simpl in Hn.
    destruct Hs as [Hs|Hs]; rewrite Hs in Hn; discriminate.
  - intros H.
    destruct (find _ (approvalRequest db)) as [r|] eqn:E; [|reflexivity].
    apply find_some in E. destruct E as [Hin E].
    rewrite !andb_true_iff, orb_true_iff, !String.eqb_eq,
      !RequestStatus_eqb_eq in E.
    exfalso. apply (H r Hin). tauto.
Qed.

Lemma new_Set_In seen xs z :
  In z (new_Set seen xs) <-> In z xs /\ ~ In z seen.
Proof.
  revert seen. induction xs as [|x xs IH]; intros seen; simpl.
  - tauto.
  - destruct (existsb (Z.eqb x) seen) eqn:E.
    + apply existsb_exists in E. destruct E as [y [Hy Exy]].
      apply Z.eqb_eq in Exy. subst y. rewrite IH.
      split; [tauto|]. intros [[->|H] Hn]; tauto.
    + assert (Hx : ~ In x seen).
      { intros Hin. apply Bool.not_true_iff_false in E. apply E.
        apply existsb_exists. exists x. split; [exact Hin|apply Z.eqb_refl]. }
      simpl. rewrite IH. simpl.
      destruct (Z.eq_dec x z) as [->|Hne]; [tauto|]. tauto.
Qed.

Lemma new_Set_NoDup seen xs : NoDup (new_Set seen xs).
Proof.
  revert seen. induction xs as [|x xs IH]; intros seen; simpl.
  - constructor.
  - destruct (existsb (Z.eqb x) seen); [apply IH|].
    constructor; [|apply IH].
    rewrite new_Set_In. simpl. tauto.
Qed.

Lemma stepInserts_rows db actorId now reqId stepIds n matrices :
  Forall2 (step_of_rule reqId) matrices
          (stepInserts db actorId now reqId stepIds n matrices).
Proof.
  revert n. induction matrices as [|m ms IH]; intros n; simpl.
  - constructor.
  - constructor; [|apply IH]. unfold step_of_rule. simpl. tauto.
Qed.

(** C1.  [requestApproval] on a document with an active request is
    rejected with 409; with no active request and no matching matrix rule
    it is rejected with 422; both leave the store as it was, so no request
    and no step is created.  Otherwise one request row and one step row
    per matched rule are added in a single store transition: the request
    is in progress, its current step is the least step order of the
    matched rules, its step total is the number of distinct step orders,
    and every new step is pending and carries its rule's step order and
    role. *)
Theorem requestApproval_create data actorId now reqId stepIds db :
  let docType := rd_docType data in
  let docId := rd_docId data in
  let matrices :=
    findMatrices db docType (rd_projectId data) (rd_amount data)
                 (rd_department data) in
  let out := requestApproval data actorId now reqId stepIds db in
  ((exists r, In r (approvalRequest db) /\ active_for docType docId r) ->
   out = (db, AppError 409))
  /\ ((forall r, In r (approvalRequest db) -> ~ active_for docType docId r) ->
      matrices = [] ->
      out = (db, AppError 422))
  /\ ((forall r, In r (approvalRequest db) -> ~ active_for docType docId r) ->
      matrices <> [] ->
      exists req new_steps distinct,
        fst out = with_steps (with_requests db (approvalRequest db ++ [req]))
                             (approvalStep db ++ new_steps)
        /\ snd out = Ok {| ro_approvalRequestId := reqId;
                           ro_currentStatus := InProgress;
                           ro_totalSteps := total_steps req;
                           ro_currentStep := current_step req |}
        /\ req_id req = reqId
        /\ doc_type req = docType /\ doc_id req = docId
        /\ requested_by req = actorId
        /\ current_status req = InProgress
        /\ is_completed req = false
        /\ In (current_step req) (map mx_step_order matrices)
        /\ (forall m, In m matrices -> current_step req <= mx_step_order m)
        /\ NoDup distinct
        /\ (forall z, In z distinct <-> In z (map mx_step_order matrices))
        /\ total_steps req = Z.of_nat (List.length distinct)
        /\ Forall2 (step_of_rule reqId) matrices new_steps).
Proof.
  cbv zeta. unfold requestApproval. split; [|split].
  - intros [r [Hin Hact]].
    destruct (findActiveRequest db (rd_docType data) (rd_docId data)) eqn:E;
      [reflexivity|].
    exfalso. rewrite findActiveRequest_None in E. exact (E r Hin Hact).
  - intros Hno Hm. apply findActiveRequest_None in Hno. rewrite Hno, Hm.
    reflexivity.
  - intros Hno Hm. apply findActiveRequest_None in Hno. rewrite Hno.
    destruct (findMatrices db (rd_docType data) (rd_projectId data)
                (rd_amount data) (rd_department data)) as [|m0 ms] eqn:EM;
      [congruence|].
    set (orders := map mx_step_order (m0 :: ms)).
    set (uniq := orderBy (fun z => z) (new_Set [] orders)).
    assert (Hmem : forall z, In z uniq <-> In z orders).
    { intros z. unfold uniq. rewrite orderBy_In, new_Set_In. simpl. tauto. }
    destruct uniq as [|first rest] eqn:EU.
    { exfalso. apply (proj2 (Hmem (mx_step_order m0))). now left. }
    pose proof (orderBy_head (fun z => z) (new_Set [] orders) EU) as [_ Hmin].
    eexists. exists (stepInserts db actorId now reqId stepIds 0 (m0 :: ms)).
    exists (first :: rest).
    simpl fst. simpl snd. cbn [req_id doc_type doc_id requested_by
      current_status is_completed current_step total_steps hd].
    repeat (split; [reflexivity|]).
    split; [apply Hmem; now left|].
    split.
    { intros m Hin. apply Hmin. apply new_Set_In. split; [|tauto].
      apply in_map. exact Hin. }
    split.
    { rewrite <- EU. unfold uniq.
      eapply Permutation_NoDup; [symmetry; apply orderBy_perm|].
      apply new_Set_NoDup. }
    split; [exact Hmem|].
    split; [reflexivity|].
    apply stepInserts_rows.
Qed.

(** ** Store updates *)

Lemma findRequestById_id db rid r :
  findRequestById db rid = Some r ->
  req_id r = rid /\ In r (approvalRequest db).
Proof.
  unfold findRequestById. intros H. apply find_some in H.
  destruct H as [Hin H]. apply String.eqb_eq in H. auto.
Qed.

Lemma find_map_request rid (f : ApprovalRequest -> ApprovalRequest) rs :
  (forall r, req_id (f r) = req_id r) ->
  find (fun r => String.eqb (req_id r) rid)
       (map (fun r => if String.eqb (req_id r) rid then f r else r) rs)
  = option_map f (find (fun r => String.eqb (req_id r) rid) rs).
Proof.
  intros Hid. induction rs as [|r rs IH]; simpl; [reflexivity|].
  destruct (String.eqb (req_id r) rid) eqn:E.
  - rewrite Hid, E. reflexivity.
  - rewrite E. exact IH.
Qed.

Lemma findRequestById_update_request db rid f :
  (forall r, req_id (f r) = req_id r) ->
  findRequestById (update_request rid f db) rid
  = option_map f (findRequestById db rid).
Proof.
  intros Hid. unfold findRequestById. simpl. now apply find_map_request.
Qed.

Lemma fold_update_step_requests (f : ApprovalStep -> ApprovalStep) acts db :
  approvalRequest
    (fold_left (fun d step => update_step (step_id step) f d) acts db)
  = approvalRequest db.
Proof.
  revert db. induction acts as [|a acts IH]; intros db; simpl; [reflexivity|].
  now rewrite IH.
Qed.

Lemma fold_update_step_steps (f : ApprovalStep -> ApprovalStep) acts db :
  (forall s, step_id (f s) = step_id s) ->
  (forall s, f (f s) = f s) ->
  approvalStep
    (fold_left (fun d step => update_step (step_id step) f d) acts db)
  = map (fun s => if existsb (fun a => String.eqb (step_id a) (step_id s)) acts
                  then f s else s)
        (approvalStep db).
Proof.
  intros Hid Hidem. revert db.
  induction acts as [|a acts IH]; intros db; simpl.
  - symmetry. apply map_id.
  - rewrite IH. simpl. rewrite map_map. apply map_ext. intros s.
    rewrite (String.eqb_sym (step_id a) (step_id s)).
    destruct (String.eqb (step_id s) (step_id a)) eqn:E; simpl.
    + rewrite Hid.
      destruct (existsb _ acts); [apply Hidem | reflexivity].
    + reflexivity.
Qed.

Lemma act_on_idem st act rem now actorId s :
  act_on st act rem now actorId (act_on st act rem now actorId s)
  = act_on st act rem now actorId s.
Proof. reflexivity. Qed.

Lemma approve_tx_steps acts rem now actorId db :
  approvalStep
    (fold_left (fun d step =>
                  update_step (step_id step)
                              (act_on Approved "approve" rem now actorId) d)
               acts db)
  = map (approve_marked acts rem now actorId) (approvalStep db).
Proof.
  rewrite fold_update_step_steps; [reflexivity| reflexivity |].
  intros s. apply act_on_idem.
Qed.

Lemma NoDup_map_eq {A B} (f : A -> B) (l : list A) x y :
  NoDup (map f l) -> In x l -> In y l -> f x = f y -> x = y.
Proof.
  induction l as [|a l IH]; simpl; [tauto|].
  intros Hnd Hx Hy E. inversion Hnd as [|? ? Hna Hnd']; subst.
  destruct Hx as [->|Hx], Hy as [->|Hy]; auto.
  - exfalso. apply Hna. rewrite E. now apply in_map.
  - exfalso. apply Hna. rewrite <- E. now apply in_map.
Qed.

Lemma approval_steps_In db rid s :
  In s (approval_steps db rid) <->
  In s (approvalStep db) /\ approval_request_id s = rid.
Proof.
  unfold approval_steps. rewrite orderBy_In, filter_In, String.eqb_eq. tauto.
Qed.

Lemma findNextStepOrder_Some db rid cur n :
  findNextStepOrder db rid cur = Some n ->
  cur < n
  /\ pending_at db rid n
  /\ forall k, cur < k -> pending_at db rid k -> n <= k.
Proof.
  unfold findNextStepOrder.
  destruct (orderBy step_order _) as [|next rest] eqn:E; [discriminate|].
  intros [= <-]. apply orderBy_head in E. destruct E as [Hin Hmin].
  apply filter_In in Hin. destruct Hin as [Hin Hc].
  rewrite !andb_true_iff, String.eqb_eq, Z.ltb_lt, StepStatus_eqb_eq in Hc.
  split; [tauto|]. split.
  - exists next. tauto.
  - intros k Hk (s & Hs & Hr & Ho & Hp). subst k. apply Hmin.
    apply filter_In. split; [exact Hs|].
    rewrite !andb_true_iff, String.eqb_eq, Z.ltb_lt, StepStatus_eqb_eq. tauto.
Qed.

Lemma findNextStepOrder_None db rid cur :
  findNextStepOrder db rid cur = None ->
  forall k, cur < k -> ~ pending_at db rid k.
Proof.
  unfold findNextStepOrder.
  destruct (orderBy step_order _) as [|next rest] eqn:E; [|discriminate].
  intros _ k Hk (s & Hs & Hr & Ho & Hp). subst k.
  apply orderBy_nil in E.
  assert (Hin : In s []); [|destruct Hin].
  rewrite <- E. apply filter_In. split; [exact Hs|].
  rewrite !andb_true_iff, String.eqb_eq, Z.ltb_lt, StepStatus_eqb_eq. tauto.
Qed.

(** ** Approve *)

(** The shape of a successful [approveStep] that went through the
    transaction. *)
Lemma approveStep_transaction rid actorId rem now db db' out :
  approveStep rid actorId rem now db = (db', Ok out) ->
  so_note out = None ->
  exists actor request acts tx,
    findUserById db actorId = Some actor
    /\ findRequestById db rid = Some request
    /\ current_status request = InProgress
    /\ acts = actableSteps db actor actorId now request
    /\ acts <> []
    /\ tx = fold_left
              (fun d step =>
                 update_step (step_id step)
                             (act_on Approved "approve" rem now actorId) d)
              acts db
    /\ ((stillPending db request acts <> []
         /\ db' = tx
         /\ so_currentStatus out = InProgress
         /\ so_currentStep out = Some (current_step request))
        \/ (stillPending db request acts = []
            /\ exists n,
                findNextStepOrder db rid (current_step request) = Some n
                /\ db' = update_request rid (set_current_step n) tx
                /\ so_currentStatus out = InProgress
                /\ so_currentStep out = Some n)
        \/ (stillPending db request acts = []
            /\ findNextStepOrder db rid (current_step request) = None
            /\ db' = update_request rid (complete_as RApproved now) tx
            /\ so_currentStatus out = RApproved
            /\ so_currentStep out = None)).
Proof.
  unfold approveStep. intros H Hnote.
  destruct (findUserById db actorId) as [actor|] eqn:EA; [|discriminate].
  destruct (findRequestById db rid) as [request|] eqn:ER; [|discriminate].
  destruct (RequestStatus_eqb (current_status request) InProgress) eqn:ES;
    [|discriminate].
  apply RequestStatus_eqb_eq in ES. simpl in H.
  destruct (String.eqb (requested_by request) actorId
            && negb (isAdmin db actor)); [discriminate|].
  pose proof (findRequestById_id _ _ ER) as [Hid _].
  exists actor, request, (actableSteps db actor actorId now request).
  unfold stillPending, actableSteps. rewrite Hid.
  destruct (filter (actable db actor actorId
                      (findDelegationsForInbox db actorId now) request)
                   (approval_steps db rid)) as [|a acts] eqn:EF.
  - exfalso.
    destruct (find _ (approval_steps db rid)); [|discriminate].
    injection H as _ <-. discriminate.
  - eexists. split; [reflexivity|]. split; [reflexivity|].
    split; [exact ES|]. split; [reflexivity|].
    split; [discriminate|]. split; [reflexivity|].
    match type of H with
    | context [match ?sp with [] => _ | _ :: _ => _ end] =>
        destruct sp as [|p ps] eqn:ESP
    end.
    + right.
      destruct (findNextStepOrder db rid (current_step request)) as [n|] eqn:EN.
      * left. split; [reflexivity|]. exists n.
        injection H as <- <-. simpl. rewrite ES. auto.
      * right. split; [reflexivity|].
        injection H as <- <-. simpl. auto.
    + left. split; [discriminate|].
      injection H as <- <-. simpl. rewrite ES. auto.
Qed.

Lemma approve_marked_pending acts rem now actorId s :
  status (approve_marked acts rem now actorId s) = Pending ->
  approve_marked acts rem now actorId s = s
  /\ existsb (fun a => String.eqb (step_id a) (step_id s)) acts = false.
Proof.
  unfold approve_marked.
  destruct (existsb _ acts); simpl; [discriminate|auto].
Qed.

Lemma approve_marked_keeps acts rem now actorId s :
  approval_request_id (approve_marked acts rem now actorId s)
  = approval_request_id s
  /\ step_order (approve_marked acts rem now actorId s) = step_order s
  /\ step_id (approve_marked acts rem now actorId s) = step_id s.
Proof. unfold approve_marked. destruct (existsb _ acts); simpl; auto. Qed.

(** Pending steps of the store after the step writes are pending steps of
    the store before them. *)
Lemma pending_after_tx acts rem now actorId db rid n :
  pending_at
    (with_steps db (map (approve_marked acts rem now actorId)
                        (approvalStep db))) rid n ->
  pending_at db rid n.
Proof.
  intros (s' & Hin & Hr & Ho & Hp). simpl in Hin.
  apply in_map_iff in Hin. destruct Hin as (s & <- & Hin).
  apply approve_marked_pending in Hp as Hp'. destruct Hp' as [E _].
  rewrite E in *. exists s. auto.
Qed.

Lemma pending_at_steps db1 db2 rid n :
  approvalStep db1 = approvalStep db2 ->
  pending_at db1 rid n <-> pending_at db2 rid n.
Proof. unfold pending_at. intros ->. tauto. Qed.

Lemma actable_true db actor actorId dels request s :
  actable db actor actorId dels request s = true ->
  step_order s = current_step request /\ status s = Pending.
Proof.
  unfold actable.
  destruct (step_order s =? current_step request) eqn:E1; [|discriminate].
  destruct (StepStatus_eqb (status s) Pending) eqn:E2; [|discriminate].
  intros _. apply Z.eqb_eq in E1. apply StepStatus_eqb_eq in E2. auto.
Qed.

Lemma actableSteps_In db actor actorId now request a :
  In a (actableSteps db actor actorId now request) ->
  In a (approvalStep db)
  /\ approval_request_id a = req_id request
  /\ step_order a = current_step request
  /\ status a = Pending.
Proof.
  unfold actableSteps. rewrite filter_In, approval_steps_In.
  intros [[Hin Hr] Ha]. apply actable_true in Ha. tauto.
Qed.

(** After the step writes, a step is pending at the current order exactly
    when the transaction counted it as still pending. *)
Lemma pending_current_after_tx db actor actorId now request rem :
  let acts := actableSteps db actor actorId now request in
  pending_at
    (with_steps db (map (approve_marked acts rem now actorId)
                        (approvalStep db)))
    (req_id request) (current_step request)
  <-> stillPending db request acts <> [].
Proof.
  cbv zeta. set (acts := actableSteps db actor actorId now request). split.
  - intros (s' & Hin & Hr & Ho & Hp). simpl in Hin.
    apply in_map_iff in Hin. destruct Hin as (s & <- & Hin).
    apply approve_marked_pending in Hp as Hp'. destruct Hp' as [E Hex].
    rewrite E in *.
    assert (Hs : In s (stillPending db request acts)).
    { unfold stillPending. rewrite !filter_In, approval_steps_In.
      rewrite andb_true_iff, negb_true_iff, Z.eqb_eq, StepStatus_eqb_eq.
      tauto. }
    intros Hnil. rewrite Hnil in Hs. destruct Hs.
  - destruct (stillPending db request acts) as [|p ps] eqn:E; [congruence|].
    intros _.
    assert (Hp : In p (stillPending db request acts)) by (rewrite E; now left).
    unfold stillPending in Hp. rewrite !filter_In, approval_steps_In in Hp.
    rewrite andb_true_iff, negb_true_iff, Z.eqb_eq, StepStatus_eqb_eq in Hp.
    destruct Hp as [[[Hin Hr] Ho] [Hex Hst]].
    exists p. simpl. repeat split; auto.
    apply in_map_iff. exists p. split; [|exact Hin].
    unfold approve_marked. now rewrite Hex.
Qed.

(** With distinct step ids, the step writes leave the steps of the later
    orders as they were. *)
Lemma pending_later_after_tx db actor actorId now request rem k :
  step_ids_unique db ->
  current_step request < k ->
  let acts := actableSteps db actor actorId now request in
  pending_at db (req_id request) k ->
  pending_at
    (with_steps db (map (approve_marked acts rem now actorId)
                        (approvalStep db)))
    (req_id request) k.
Proof.
  cbv zeta. intros Hnd Hk (s & Hin & Hr & Ho & Hp).
  exists s. simpl. repeat split; auto.
  apply in_map_iff. exists s. split; [|exact Hin].
  unfold approve_marked.
  destruct (existsb _ _) eqn:Hex; [|reflexivity].
  exfalso. apply existsb_exists in Hex. destruct Hex as (a & Ha & Eid).
  apply String.eqb_eq in Eid.
  apply actableSteps_In in Ha. destruct Ha as (Hain & _ & Hao & _).
  assert (a = s) by (eapply NoDup_map_eq; eauto).
  subst a. lia.
Qed.

(** C2.  A successful approve that went through the transaction leaves
    the request where it was, still in progress, when some step at the
    current order is still pending; otherwise it moves the current step
    to the least greater order that has a pending step, or, when there is
    none, marks the request approved and completed at [now].  No order
    from the old current step up to the new one keeps a pending step, and
    the current step never decreases. *)
Theorem approveStep_advance rid actorId rem now db db' out request :
  step_ids_unique db ->
  findRequestById db rid = Some request ->
  approveStep rid actorId rem now db = (db', Ok out) ->
  so_note out = None ->
  exists request',
    findRequestById db' rid = Some request'
    /\ current_status request = InProgress
    /\ (pending_at db' rid (current_step request) ->
        current_step request' = current_step request
        /\ current_status request' = current_status request
        /\ is_completed request' = is_completed request)
    /\ (~ pending_at db' rid (current_step request) ->
        (current_status request' = InProgress
         /\ current_step request < current_step request'
         /\ pending_at db' rid (current_step request')
         /\ forall k, current_step request < k < current_step request' ->
                      ~ pending_at db' rid k)
        \/ (current_status request' = RApproved
            /\ is_completed request' = true
            /\ completed_at request' = Some now
            /\ forall k, current_step request < k -> ~ pending_at db' rid k))
    /\ (forall k, current_step request <= k < current_step request' ->
                  ~ pending_at db' rid k)
    /\ current_step request <= current_step request'.
Proof.
  intros Hnd Hreq H Hnote.
  destruct (approveStep_transaction _ _ _ _ _ H Hnote)
    as (actor & request0 & acts & tx & HA & HR & HS & Hacts & Hne & Htx
        & Hcases).
  rewrite Hreq in HR. injection HR as <-. subst acts.
  set (acts := actableSteps db actor actorId now request) in *.
  pose proof (findRequestById_id _ _ Hreq) as [Hid _].
  assert (Hsteps : approvalStep tx
                   = map (approve_marked acts rem now actorId) (approvalStep db)).
  { subst tx. apply approve_tx_steps. }
  assert (Hreqs : approvalRequest tx = approvalRequest db).
  { subst tx. apply fold_update_step_requests. }
  assert (Hcur : forall d, approvalStep d = approvalStep tx ->
            (pending_at d rid (current_step request)
             <-> stillPending db request acts <> [])).
  { intros d Hd. rewrite <- Hid at 1.
    rewrite (@pending_at_steps d
               (with_steps db (map (approve_marked acts rem now actorId)
                                   (approvalStep db)))
               (req_id request) (current_step request))
      by (rewrite Hd, Hsteps; reflexivity).
    apply pending_current_after_tx. }
  assert (Hback : forall d k, approvalStep d = approvalStep tx ->
            pending_at d rid k -> pending_at db rid k).
  { intros d k Hd Hp. apply (@pending_after_tx acts rem now actorId db rid k).
    eapply pending_at_steps; [|exact Hp]. simpl. now rewrite Hd, Hsteps. }
  assert (Hfwd : forall d k, approvalStep d = approvalStep tx ->
            current_step request < k ->
            pending_at db rid k -> pending_at d rid k).
  { intros d k Hd Hk Hp.
    eapply pending_at_steps;
      [|rewrite <- Hid;
        apply (@pending_later_after_tx db actor actorId now request rem k
                 Hnd Hk); rewrite Hid; exact Hp].
    simpl. now rewrite Hd, Hsteps. }
  destruct Hcases as [(Hsp & -> & _) | [(Hsp & n & Hn & -> & _)
                                       | (Hsp & Hn & -> & _)]].
  - (* parallel wait *)
    exists request.
    assert (Hfind : findRequestById tx rid = Some request).
    { unfold findRequestById. rewrite Hreqs. exact Hreq. }
    split; [exact Hfind|]. split; [exact HS|].
    split; [auto|]. split.
    + intros Hno. exfalso. apply Hno. apply (Hcur tx eq_refl). exact Hsp.
    + split; [intros k Hk; lia | lia].
  - (* advance *)
    exists (set_current_step n request).
    apply findNextStepOrder_Some in Hn. destruct Hn as (Hlt & Hpn & Hmin).
    set (d := update_request rid (set_current_step n) tx).
    assert (Hd : approvalStep d = approvalStep tx) by reflexivity.
    assert (Hnocur : ~ pending_at d rid (current_step request)).
    { rewrite (Hcur d Hd). congruence. }
    assert (Hbetween : forall k, current_step request < k < n ->
                                 ~ pending_at d rid k).
    { intros k Hk Hp. apply (Hback d k Hd) in Hp.
      specialize (Hmin k (proj1 Hk) Hp). lia. }
    split.
    { unfold d. rewrite findRequestById_update_request by reflexivity.
      unfold findRequestById. rewrite Hreqs.
      unfold findRequestById in Hreq. rewrite Hreq. reflexivity. }
    split; [exact HS|].
    split; [intros Hp; contradiction|].
    split.
    { intros _. left. simpl. split; [exact HS|]. split; [exact Hlt|].
      split; [apply (Hfwd d n Hd Hlt Hpn) | exact Hbetween]. }
    simpl. split; [|lia].
    intros k Hk. destruct (Z.eq_dec k (current_step request)) as [->|Hne'].
    + exact Hnocur.
    + apply Hbetween. lia.
  - (* complete *)
    exists (complete_as RApproved now request).
    set (d := update_request rid (complete_as RApproved now) tx).
    assert (Hd : approvalStep d = approvalStep tx) by reflexivity.
    assert (Hnocur : ~ pending_at d rid (current_step request)).
    { rewrite (Hcur d Hd). congruence. }
    split.
    { unfold d. rewrite findRequestById_update_request by reflexivity.
      unfold findRequestById. rewrite Hreqs.
      unfold findRequestById in Hreq. rewrite Hreq. reflexivity. }
    split; [exact HS|].
    split; [intros Hp; contradiction|].
    split.
    { intros _. right. simpl. repeat split.
      intros k Hk Hp. apply (Hback d k Hd) in Hp.
      exact (findNextStepOrder_None Hn Hk Hp). }
    simpl. split; [intros k Hk; lia | lia].
Qed.

Lemma with_steps_same db : with_steps db (approvalStep db) = db.
Proof. now destruct db. Qed.

Lemma approve_tx_eq acts rem now actorId db :
  fold_left (fun d step =>
               update_step (step_id step)
                           (act_on Approved "approve" rem now actorId) d)
            acts db
  = with_steps db (map (approve_marked acts rem now actorId) (approvalStep db)).
Proof.
  rewrite <- (with_steps_same (fold_left _ acts db)).
  rewrite approve_tx_steps. unfold with_steps. f_equal.
  - generalize db. induction acts as [|a acts IH]; intros d; simpl;
      [reflexivity | now rewrite IH].
  - generalize db. induction acts as [|a acts IH]; intros d; simpl;
      [reflexivity | now rewrite IH].
  - generalize db. induction acts as [|a acts IH]; intros d; simpl;
      [reflexivity | now rewrite IH].
  - apply fold_update_step_requests.
  - generalize db. induction acts as [|a acts IH]; intros d; simpl;
      [reflexivity | now rewrite IH].
  - generalize db. induction acts as [|a acts IH]; intros d; simpl;
      [reflexivity | now rewrite IH].
Qed.

Lemma filter_nil {A} (P : A -> bool) l :
  (forall x, In x l -> P x = false) -> filter P l = [].
Proof.
  induction l as [|x l IH]; simpl; intros H; [reflexivity|].
  rewrite (H x) by now left. apply IH. intros y Hy. apply H. now right.
Qed.

Lemma find_is_Some {A} (P : A -> bool) l x :
  In x l -> P x = true -> exists y, find P l = Some y.
Proof.
  intros Hin Hp. destruct (find P l) as [y|] eqn:E; [now exists y|].
  rewrite (find_none _ _ E x Hin) in Hp. discriminate.
Qed.

(** The shape of a successful [approveStep] that answered from the
    already-approved check. *)
Lemma approveStep_replayed rid actorId rem now db db' out :
  approveStep rid actorId rem now db = (db', Ok out) ->
  so_note out <> None ->
  exists actor request,
    findUserById db actorId = Some actor
    /\ findRequestById db rid = Some request
    /\ current_status request = InProgress
    /\ (String.eqb (requested_by request) actorId && negb (isAdmin db actor))
       = false
    /\ actableSteps db actor actorId now request = []
    /\ (exists done, find (already_approved actor actorId request)
                          (approval_steps db rid) = Some done)
    /\ db' = db
    /\ out = {| so_approvalRequestId := rid;
                so_currentStatus := InProgress;
                so_currentStep := Some (current_step request);
                so_note := Some "Already approved at this step" |}.
Proof.
  unfold approveStep. intros H Hnote.
  destruct (findUserById db actorId) as [actor|] eqn:EA; [|discriminate].
  destruct (findRequestById db rid) as [request|] eqn:ER; [|discriminate].
  destruct (RequestStatus_eqb (current_status request) InProgress) eqn:ES;
    [|discriminate].
  apply RequestStatus_eqb_eq in ES. simpl in H.
  destruct (String.eqb (requested_by request) actorId
            && negb (isAdmin db actor)) eqn:ESelf; [discriminate|].
  pose proof (findRequestById_id _ _ ER) as [Hid _].
  exists actor, request. unfold actableSteps. rewrite Hid.
  destruct (filter (actable db actor actorId
                      (findDelegationsForInbox db actorId now) request)
                   (approval_steps db rid)) as [|a acts] eqn:EF.
  - destruct (find _ (approval_steps db rid)) as [done|]; [|discriminate].
    injection H as <- <-. rewrite ES.
    repeat split; try reflexivity; try exact ESelf. now exists done.
  - exfalso.
    match type of H with
    | context [match ?sp with [] => _ | _ :: _ => _ end] => destruct sp
    end.
    + destruct (findNextStepOrder db rid (current_step request));
        injection H as _ <-; now apply Hnote.
    + injection H as _ <-. now apply Hnote.
Qed.

Lemma approveStep_guards rid actorId rem now db db' out :
  approveStep rid actorId rem now db = (db', Ok out) ->
  exists actor request,
    findUserById db actorId = Some actor
    /\ findRequestById db rid = Some request
    /\ current_status request = InProgress
    /\ (String.eqb (requested_by request) actorId && negb (isAdmin db actor))
       = false.
Proof.
  unfold approveStep. intros H.
  destruct (findUserById db actorId) as [actor|]; [|discriminate].
  destruct (findRequestById db rid) as [request|]; [|discriminate].
  destruct (RequestStatus_eqb (current_status request) InProgress) eqn:ES;
    [|discriminate].
  apply RequestStatus_eqb_eq in ES. simpl in H.
  destruct (String.eqb (requested_by request) actorId
            && negb (isAdmin db actor)) eqn:ESelf; [discriminate|].
  exists actor, request. auto.
Qed.

Lemma approveStep_replay_intro rid actorId rem now db actor request done :
  findUserById db actorId = Some actor ->
  findRequestById db rid = Some request ->
  current_status request = InProgress ->
  (String.eqb (requested_by request) actorId && negb (isAdmin db actor))
  = false ->
  actableSteps db actor actorId now request = [] ->
  find (already_approved actor actorId request) (approval_steps db rid)
  = Some done ->
  approveStep rid actorId rem now db
  = (db, Ok {| so_approvalRequestId := rid;
               so_currentStatus := InProgress;
               so_currentStep := Some (current_step request);
               so_note := Some "Already approved at this step" |}).
Proof.
  intros HA HR HS Hself Hacts Hdone. unfold approveStep.
  rewrite HA, HR, HS. simpl. rewrite Hself.
  pose proof (findRequestById_id _ _ HR) as [Hid _].
  unfold actableSteps in Hacts. rewrite Hid in Hacts.
  rewrite Hacts, Hdone. reflexivity.
Qed.

Lemma filter_nil_inv {A} (P : A -> bool) l x :
  filter P l = [] -> In x l -> P x = false.
Proof.
  intros E Hin. destruct (P x) eqn:Hp; [|reflexivity].
  assert (H : In x (filter P l)) by (apply filter_In; auto).
  rewrite E in H. destruct H.
Qed.

Lemma findDelegationsForInbox_In db toUserId now u :
  In u (findDelegationsForInbox db toUserId now) <->
  exists d, In d (approvalDelegation db) /\ delegates_at u now d
            /\ to_user d = toUserId.
Proof.
  unfold findDelegationsForInbox, delegates_at, delegation_active_at.
  rewrite in_map_iff. split.
  - intros (d & <- & Hin). apply filter_In in Hin. destruct Hin as [Hin H].
    rewrite !andb_true_iff, String.eqb_eq, !Z.leb_le in H.
    exists d. tauto.
  - intros (d & Hin & (Hf & Ha & Hw) & Ht). exists d. split; [exact Hf|].
    apply filter_In. split; [exact Hin|].
    rewrite !andb_true_iff, String.eqb_eq, !Z.leb_le. tauto.
Qed.

(** A step the actor can act on with one list of grantors and not with
    another is assigned to a grantor of the first list. *)
Lemma actable_gained db actor actorId dels dels' request s :
  actable db actor actorId dels' request s = true ->
  actable db actor actorId dels request s = false ->
  exists u, approver_user s = Some u /\ u <> "" /\ In u dels'.
Proof.
  unfold actable.
  destruct (negb (step_order s =? current_step request)); [discriminate|].
  destruct (negb (StepStatus_eqb (status s) Pending)); [discriminate|].
  destruct (isAdmin db actor); [discriminate|].
  destruct (opt_eqb (approver_user s) actorId
            || opt_id_eqb (role_id s) (user_role_id actor));
    [discriminate|].
  simpl. intros H _. apply andb_true_iff in H. destruct H as [Ht He].
  apply existsb_exists in He. destruct He as (u & Hin & Hu).
  apply opt_eqb_eq in Hu. exists u. split; [exact Hu|]. split; [|exact Hin].
  rewrite Hu in Ht. simpl in Ht. apply String.eqb_neq.
  now destruct (String.eqb u "").
Qed.

Lemma actable_delegated db actor actorId dels request s u :
  step_order s = current_step request -> status s = Pending ->
  approver_user s = Some u -> u <> "" -> In u dels ->
  actable db actor actorId dels request s = true.
Proof.
  intros Ho Hp Hu Hne Hin. unfold actable.
  rewrite Ho, Z.eqb_refl, Hp, Hu. simpl.
  destruct (isAdmin db actor); [reflexivity|].
  apply orb_true_iff. right. apply String.eqb_neq in Hne. rewrite Hne. simpl.
  apply existsb_exists. exists u. split; [exact Hin|apply String.eqb_refl].
Qed.

(** The store a successful approve leaves when the request stays in
    progress at the order it was at: the actor and the request are found
    as before, a step of the actor at that order is approved, and none of
    the request's steps is open to the actor through what opened steps to
    it in that call. *)
Lemma approveStep_same_order rid actorId rem now db db' out request :
  findRequestById db rid = Some request ->
  approveStep rid actorId rem now db = (db', Ok out) ->
  so_currentStatus out = InProgress ->
  so_currentStep out = Some (current_step request) ->
  exists actor done,
    findUserById db' actorId = Some actor
    /\ findRequestById db' rid = Some request
    /\ current_status request = InProgress
    /\ (String.eqb (requested_by request) actorId
        && negb (isAdmin db' actor)) = false
    /\ find (already_approved actor actorId request) (approval_steps db' rid)
       = Some done
    /\ forall s, In s (approval_steps db' rid) ->
         actable db' actor actorId (findDelegationsForInbox db actorId now)
                 request s = false.
Proof.
  intros Hreq H Hst Hcs.
  destruct (so_note out) as [note|] eqn:Hnote.
  - (* the first call was already a repeat *)
    assert (Hn : so_note out <> None) by (rewrite Hnote; discriminate).
    destruct (approveStep_replayed _ _ _ _ _ H Hn)
      as (actor & request0 & HA & HR & HS & Hself & Hacts & [done Hdone]
          & -> & _).
    rewrite Hreq in HR. injection HR as <-.
    exists actor, done. do 5 (split; [assumption|]).
    intros s Hs. unfold actableSteps in Hacts.
    pose proof (findRequestById_id _ _ Hreq) as [Hid _].
    rewrite Hid in Hacts. exact (filter_nil_inv _ _ _ Hacts Hs).
  - destruct (approveStep_guards _ _ _ _ _ H)
      as (actor0 & request0 & HA0 & HR0 & _ & Hself).
    destruct (approveStep_transaction _ _ _ _ _ H Hnote)
      as (actor & request1 & acts & tx & HA & HR & HS & Hacts & Hne & Htx
          & Hcases).
    rewrite HA in HA0. injection HA0 as <-.
    rewrite Hreq in HR0, HR. injection HR0 as <-. injection HR as <-.
    pose proof (findRequestById_id _ _ Hreq) as [Hid _].
    rewrite approve_tx_eq in Htx.
    destruct Hcases as [(Hsp & -> & _) | [(_ & n & Hn & _ & _ & Hstep)
                                         | (_ & _ & _ & Hs' & _)]].
    2:{ apply findNextStepOrder_Some in Hn. destruct Hn as [Hlt _].
        rewrite Hstep in Hcs. injection Hcs as ->. lia. }
    2:{ rewrite Hs' in Hst. discriminate. }
    subst tx.
    destruct acts as [|a acts'] eqn:Eacts; [congruence|].
    rewrite <- Eacts in *. clear Hne.
    assert (Ha : In a acts) by (rewrite Eacts; now left).
    assert (Hmark : approve_marked acts rem now actorId a
                    = act_on Approved "approve" rem now actorId a).
    { unfold approve_marked.
      replace (existsb _ acts) with true; [reflexivity|].
      symmetry. apply existsb_exists. exists a. split; [exact Ha|].
      apply String.eqb_refl. }
    rewrite Hacts in Ha. apply actableSteps_In in Ha.
    destruct Ha as (Hain & Har & Hao & _).
    destruct (@find_is_Some _ (already_approved actor actorId request)
                (approval_steps
                   (with_steps db (map (approve_marked acts rem now actorId)
                                       (approvalStep db))) rid)
                (act_on Approved "approve" rem now actorId a))
      as [done Hdone].
    { apply approval_steps_In. simpl. split; [|congruence].
      apply in_map_iff. exists a. auto. }
    { unfold already_approved. simpl.
      rewrite Hao, Z.eqb_refl, String.eqb_refl. reflexivity. }
    exists actor, done.
    split; [exact HA|]. split; [exact Hreq|]. split; [exact HS|].
    split; [exact Hself|]. split; [exact Hdone|].
    intros s' Hs'. apply approval_steps_In in Hs'. simpl in Hs'.
    destruct Hs' as [Hin Hr]. apply in_map_iff in Hin.
    destruct Hin as (s & <- & Hin).
    unfold approve_marked in *.
    destruct (existsb (fun a0 => String.eqb (step_id a0) (step_id s)) acts)
      eqn:Hex.
    + unfold actable. simpl.
      destruct (step_order s =? current_step request); reflexivity.
    + destruct (actable
                  (with_steps db
                     (map (fun s0 =>
                             if existsb (fun a0 => String.eqb (step_id a0)
                                                              (step_id s0)) acts
                             then act_on Approved "approve" rem now actorId s0
                             else s0)
                          (approvalStep db)))
                  actor actorId (findDelegationsForInbox db actorId now)
                  request s) eqn:Eact; [|reflexivity].
      exfalso.
      assert (Hs : In s acts).
      { rewrite Hacts. unfold actableSteps. apply filter_In.
        split; [|exact Eact]. apply approval_steps_In. split; congruence. }
      apply Bool.not_true_iff_false in Hex. apply Hex.
      apply existsb_exists. exists s. split; [exact Hs|apply String.eqb_refl].
Qed.

(** The store a successful approve leaves when it completes the request:
    the actor is found as before and the request is approved. *)
Lemma approveStep_completed rid actorId rem now db db' out :
  approveStep rid actorId rem now db = (db', Ok out) ->
  so_currentStatus out = RApproved ->
  exists actor request,
    findUserById db' actorId = Some actor
    /\ findRequestById db' rid = Some request
    /\ current_status request = RApproved.
Proof.
  intros H Hst.
  destruct (so_note out) as [note|] eqn:Hnote.
  - assert (Hn : so_note out <> None) by (rewrite Hnote; discriminate).
    destruct (approveStep_replayed _ _ _ _ _ H Hn)
      as (actor & request & _ & _ & _ & _ & _ & _ & _ & Hout).
    rewrite Hout in Hst. discriminate.
  - destruct (approveStep_transaction _ _ _ _ _ H Hnote)
      as (actor & request & acts & tx & HA & HR & HS & _ & _ & Htx & Hcases).
    rewrite approve_tx_eq in Htx. subst tx.
    destruct Hcases as [(_ & _ & Hs' & _) | [(_ & n & _ & _ & Hs' & _)
                                           | (_ & _ & -> & _)]];
      try (rewrite Hs' in Hst; discriminate).
    exists actor, (complete_as RApproved now request).
    split; [exact HA|]. split; [|reflexivity].
    rewrite findRequestById_update_request by reflexivity.
    change (findRequestById (with_steps db _) rid)
      with (findRequestById db rid).
    now rewrite HR.
Qed.

(** C8, as amended.  When a successful approve leaves the request in
    progress at the step order it was at (the parallel group is still
    waiting, or the call was itself a repeat), a further call by the same
    actor is answered with the current status and step, raises no error
    and leaves the store untouched, exactly when no step of the request
    still pending at that order is assigned to a user who has a
    delegation to the actor, switched on and in its window at the time of
    the further call.  When the approve completed the request, the
    further call is refused with 409 and leaves the store untouched. *)
Theorem approveStep_again rid actorId rem rem' now now' db db' out request :
  findRequestById db rid = Some request ->
  approveStep rid actorId rem now db = (db', Ok out) ->
  (so_currentStatus out = InProgress ->
   so_currentStep out = Some (current_step request) ->
   (approveStep rid actorId rem' now' db'
    = (db', Ok {| so_approvalRequestId := rid;
                  so_currentStatus := InProgress;
                  so_currentStep := Some (current_step request);
                  so_note := Some "Already approved at this step" |})
    <-> ~ delegated_pending db' rid (current_step request) actorId now'))
  /\ (so_currentStatus out = RApproved ->
      approveStep rid actorId rem' now' db' = (db', AppError 409)).
Proof.
  intros Hreq H. split.
  - intros Hst Hcs.
    destruct (approveStep_same_order _ _ _ _ _ Hreq H Hst Hcs)
      as (actor & done & HA & HR & HS & Hself & Hdone & Hclosed).
    pose proof (findRequestById_id _ _ HR) as [Hid _].
    split.
    + intros Heq (s & u & d & Hin & Hr & Ho & Hp & Hu & Hne & Hd & Hw & Ht).
      assert (Hn : so_note {| so_approvalRequestId := rid;
                              so_currentStatus := InProgress;
                              so_currentStep := Some (current_step request);
                              so_note := Some "Already approved at this step" |}
                   <> None) by discriminate.
      destruct (approveStep_replayed _ _ _ _ _ Heq Hn)
        as (actor' & request' & HA' & HR' & _ & _ & Hacts & _).
      rewrite HA in HA'. injection HA' as <-.
      rewrite HR in HR'. injection HR' as <-.
      unfold actableSteps in Hacts. rewrite Hid in Hacts.
      assert (Hs : In s (approval_steps db' rid))
        by (apply approval_steps_In; auto).
      pose proof (filter_nil_inv _ _ _ Hacts Hs) as Hno.
      rewrite (@actable_delegated db' actor actorId
                 (findDelegationsForInbox db' actorId now') request s u)
        in Hno; auto; [discriminate|].
      apply findDelegationsForInbox_In. now exists d.
    + intros Hnone.
      eapply approveStep_replay_intro; eauto.
      unfold actableSteps. rewrite Hid. apply filter_nil.
      intros s Hs.
      destruct (actable db' actor actorId
                        (findDelegationsForInbox db' actorId now') request s)
        eqn:Eact; [|reflexivity].
      exfalso. apply Hnone.
      destruct (actable_gained _ _ _ _ _ _ _ Eact (Hclosed s Hs))
        as (u & Hu & Hne & Hin).
      apply actable_true in Eact. destruct Eact as [Ho Hp].
      apply approval_steps_In in Hs. destruct Hs as [Hs Hr].
      apply findDelegationsForInbox_In in Hin.
      destruct Hin as (d & Hd & Hw & Ht).
      exists s, u, d. repeat split; auto; apply Hw.
  - intros Hst.
    destruct (approveStep_completed _ _ _ _ _ H Hst)
      as (actor & request' & HA & HR & HS).
    unfold approveStep. rewrite HA, HR, HS. reflexivity.
Qed.

(** ** The functions on the small store *)

Ltac run := vm_compute; reflexivity.

Ltac distinct_ids :=
  unfold step_ids_unique; vm_compute;
  repeat (constructor; [simpl; intuition discriminate|]); constructor.

Lemma approveStep_advance_witness :
  exists request',
    findRequestById
      (fst (approveStep "req-1" "bob" None 2000 Fixture.db_large)) "req-1"
    = Some request'
    /\ 1 <= current_step request'.
Proof.
  edestruct (@approveStep_advance "req-1" "bob" None 2000 Fixture.db_large
               (fst (approveStep "req-1" "bob" None 2000 Fixture.db_large)))
    as (r' & Hf & _ & _ & _ & _ & Hle).
  - distinct_ids.
  - run.
  - run.
  - reflexivity.
  - exists r'. split; [exact Hf | exact Hle].
Defined.

(** C8, as stated, fails.  bob approves the only step of the small
    request, which completes it; his repeated call is rejected with 409.
    bob approves order 1 of the large request, which moves it to order 2;
    his repeated call is rejected with 403.  bob approves his step of the
    parallel order at 2000, carol's step staying pending; at 3000 carol's
    delegation to bob has opened, and his repeated call approves her step
    and completes the request. *)
Lemma approveStep_repeat_rejected :
  (snd (approveStep "req-1" "bob" None 2000 Fixture.db_small)
   = Ok {| so_approvalRequestId := "req-1"; so_currentStatus := RApproved;
           so_currentStep := None; so_note := None |}
   /\ snd (approveStep "req-1" "bob" None 3000
             (fst (approveStep "req-1" "bob" None 2000 Fixture.db_small)))
      = AppError 409)
  /\ (snd (approveStep "req-1" "bob" None 2000 Fixture.db_large)
      = Ok {| so_approvalRequestId := "req-1"; so_currentStatus := InProgress;
              so_currentStep := Some 2; so_note := None |}
      /\ snd (approveStep "req-1" "bob" None 3000
                (fst (approveStep "req-1" "bob" None 2000 Fixture.db_large)))
         = AppError 403)
  /\ (snd (approveStep "req-1" "bob" None 2000 Repeat.db_opening)
      = Ok {| so_approvalRequestId := "req-1"; so_currentStatus := InProgress;
              so_currentStep := Some 1; so_note := None |}
      /\ map (fun s => (approver_user s, status s))
             (approvalStep
                (fst (approveStep "req-1" "bob" None 2000 Repeat.db_opening)))
         = [(Some "bob", Approved); (Some "carol", Pending)]
      /\ snd (approveStep "req-1" "bob" None 3000
                (fst (approveStep "req-1" "bob" None 2000
                                  Repeat.db_opening)))
         = Ok {| so_approvalRequestId := "req-1";
                 so_currentStatus := RApproved;
                 so_currentStep := None; so_note := None |}
      /\ map (fun s => (approver_user s, status s))
             (approvalStep
                (fst (approveStep "req-1" "bob" None 3000
                        (fst (approveStep "req-1" "bob" None 2000
                                          Repeat.db_opening)))))
         = [(Some "bob", Approved); (Some "bob", Approved)]).
Proof. repeat split; run. Qed.

Lemma approveStep_again_witness :
  approveStep "req-1" "bob" None 3000
    (fst (approveStep "req-1" "bob" None 2000 Fixture.db_parallel))
  = (fst (approveStep "req-1" "bob" None 2000 Fixture.db_parallel),
     Ok {| so_approvalRequestId := "req-1"; so_currentStatus := InProgress;
           so_currentStep := Some 1;
           so_note := Some "Already approved at this step" |}).
Proof.
  let r := eval vm_compute in (findRequestById Fixture.db_parallel "req-1") in
  match r with
  | Some ?x =>
      destruct (@approveStep_again "req-1" "bob" None None 2000 3000
                  Fixture.db_parallel
                  (fst (approveStep "req-1" "bob" None 2000
                                    Fixture.db_parallel))
                  {| so_approvalRequestId := "req-1";
                     so_currentStatus := InProgress;
                     so_currentStep := Some 1; so_note := None |} x)
        as [Hsame _]
  end.
  - run.
  - run.
  - apply (Hsame eq_refl eq_refl).
    intros (s & u & d & _ & _ & _ & _ & _ & _ & Hd & _).
    vm_compute in Hd. exact Hd.
Defined.

(** C4: the code departs from the claim.  carol holds an active
    delegation from bob, the approver of the pending step.  Her approve
    is accepted, her reject is refused with 403 and changes nothing:
    [rejectStep] does not look at delegations. *)
Theorem rejectStep_refuses_delegate :
  findDelegationsForInbox Scenario.db_delegated "carol" 2000 = ["bob"]
  /\ snd (approveStep "req-1" "carol" None 2000 Scenario.db_delegated)
     = Ok {| so_approvalRequestId := "req-1"; so_currentStatus := RApproved;
             so_currentStep := None; so_note := None |}
  /\ rejectStep "req-1" "carol" (Some "no") 2000 Scenario.db_delegated
     = (Scenario.db_delegated, AppError 403).
Proof. repeat split; run. Qed.

(** C9: the code departs from the claim.  dave holds the seeded
    [super_admin] role, which approve and reject treat as administrator;
    his cancel of alice's request in progress is refused with 403,
    because [cancelApproval] compares the role code with ["SUPER_ADMIN"]. *)
Theorem cancelApproval_refuses_super_admin :
  (exists dave request,
      findUserById Fixture.db_small "dave" = Some dave
      /\ isAdmin Fixture.db_small dave = true
      /\ role_code_is Fixture.db_small dave "super_admin" = true
      /\ findRequestById Fixture.db_small "req-1" = Some request
      /\ current_status request = InProgress)
  /\ cancelApproval "req-1" "dave" 2000 Fixture.db_small
     = (Fixture.db_small, AppError 403).
Proof.
  split; [|run].
  eexists. eexists. repeat split; run.
Qed.

(** ** Delegations *)

Lemma ForallOrdPairs_snoc {A} (R : A -> A -> Prop) l x :
  ForallOrdPairs R l -> Forall (fun y => R y x) l ->
  ForallOrdPairs R (l ++ [x]).
Proof.
  induction 1 as [|a l Ha Hl IH]; intros Hx; simpl.
  - repeat constructor.
  - inversion Hx; subst. constructor.
    + apply Forall_app. split; [exact Ha | now constructor].
    + now apply IH.
Qed.

(** What a successful [createDelegation] has checked and written. *)
Lemma createDelegation_Ok data now newId db d :
  snd (createDelegation data now newId db) = Ok d ->
  dd_fromUser data <> dd_toUser data
  /\ (forall d0, In d0 (approvalDelegation db) ->
        from_user d0 = dd_toUser data -> to_user d0 = dd_fromUser data ->
        dlg_is_active d0 = true -> end_date d0 < now)
  /\ (forall d0, In d0 (approvalDelegation db) ->
        from_user d0 = dd_fromUser data -> dlg_is_active d0 = true ->
        ~ (start_date d0 <= dd_endDate data
           /\ dd_startDate data <= end_date d0))
  /\ d = {| dlg_id := newId; from_user := dd_fromUser data;
            to_user := dd_toUser data; start_date := dd_startDate data;
            end_date := dd_endDate data; dlg_is_active := true |}
  /\ fst (createDelegation data now newId db)
     = with_delegations db (approvalDelegation db ++ [d]).
Proof.
  unfold createDelegation.
  destruct (String.eqb (dd_fromUser data) (dd_toUser data)) eqn:Ese;
    [discriminate|].
  apply String.eqb_neq in Ese.
  destruct (findUserById db (dd_fromUser data)); [|discriminate].
  destruct (findUserById db (dd_toUser data)); [|discriminate].
  destruct (find _ (approvalDelegation db)) eqn:Ec; [discriminate|].
  destruct (find (fun d0 => String.eqb (from_user d0) (dd_fromUser data)
                            && dlg_is_active d0
                            && (start_date d0 <=? dd_endDate data)
                            && (dd_startDate data <=? end_date d0))
                 (approvalDelegation db)) eqn:Eo; [discriminate|].
  simpl. intros [= <-]. split; [exact Ese|]. split; [|split].
  - intros d0 Hin Hf Ht Ha.
    pose proof (find_none _ _ Ec d0 Hin) as Hn. simpl in Hn.
    rewrite Hf, Ht, Ha, !String.eqb_refl in Hn. simpl in Hn.
    apply Z.leb_gt in Hn. exact Hn.
  - intros d0 Hin Hf Ha [H1 H2].
    pose proof (find_none _ _ Eo d0 Hin) as Hn. simpl in Hn.
    rewrite Hf, Ha, String.eqb_refl in Hn. simpl in Hn.
    apply Z.leb_le in H1, H2. rewrite H1, H2 in Hn. discriminate.
  - split; reflexivity.
Qed.

Lemma createDelegation_rejects data now newId db :
  (delegates_back db now (dd_fromUser data) (dd_toUser data)
   \/ overlaps_existing db (dd_fromUser data) (dd_startDate data)
                        (dd_endDate data)) ->
  (exists code, createDelegation data now newId db = (db, AppError code))
  /\ (dd_fromUser data <> dd_toUser data ->
      findUserById db (dd_fromUser data) <> None ->
      findUserById db (dd_toUser data) <> None ->
      createDelegation data now newId db = (db, AppError 409)).
Proof.
  intros Hrej.
  assert (H409 :
    match find (fun d => String.eqb (from_user d) (dd_toUser data)
                         && String.eqb (to_user d) (dd_fromUser data)
                         && dlg_is_active d && (now <=? end_date d))
               (approvalDelegation db) with
    | Some _ => True
    | None =>
        find (fun d => String.eqb (from_user d) (dd_fromUser data)
                       && dlg_is_active d
                       && (start_date d <=? dd_endDate data)
                       && (dd_startDate data <=? end_date d))
             (approvalDelegation db) <> None
    end).
  { destruct (find _ (approvalDelegation db)) eqn:Ec; [exact I|].
    intros Eo. destruct Hrej as [(d & Hin & Hf & Ht & Ha & He)
                                | (d & t & Hin & Hf & Ha & Hw & Hp)].
    - pose proof (find_none _ _ Ec d Hin) as Hn. simpl in Hn.
      rewrite Hf, Ht, Ha, !String.eqb_refl in Hn. simpl in Hn.
      apply Z.leb_gt in Hn. lia.
    - pose proof (find_none _ _ Eo d Hin) as Hn. simpl in Hn.
      rewrite Hf, Ha, String.eqb_refl in Hn. simpl in Hn.
      unfold in_window in Hw.
      apply andb_false_iff in Hn. rewrite !Z.leb_gt in Hn. lia. }
  unfold createDelegation.
  destruct (String.eqb (dd_fromUser data) (dd_toUser data)) eqn:Ese.
  { apply String.eqb_eq in Ese. split; [now exists 400 | contradiction]. }
  destruct (findUserById db (dd_fromUser data));
    [|split; [now exists 404 | intros _ Hf; now contradiction Hf]].
  destruct (findUserById db (dd_toUser data));
    [|split; [now exists 404 | intros _ _ Hf; now contradiction Hf]].
  destruct (find _ (approvalDelegation db)); [split; [now exists 409 | auto]|].
  destruct (find (fun d => String.eqb (from_user d) (dd_fromUser data)
                           && dlg_is_active d
                           && (start_date d <=? dd_endDate data)
                           && (dd_startDate data <=? end_date d))
                 (approvalDelegation db));
    [split; [now exists 409 | auto] | contradiction].
Qed.

(** C10.  [createDelegation] never succeeds when the target already has
    an active, unexpired delegation back to the grantor, nor when the
    grantor already has an active delegation whose window overlaps the
    requested period; the error is the 409 conflict whenever the earlier
    guards pass (two distinct, existing, active users).  Consequently a
    successful call adds one active row that shares no instant with any
    active delegation of the same grantor and, from [now] on, none with
    an active delegation in the opposite direction; a store without
    overlapping delegations and without 2-cycles stays so. *)
Theorem createDelegation_no_cycle_no_overlap data now newId db :
  let out := createDelegation data now newId db in
  ((delegates_back db now (dd_fromUser data) (dd_toUser data)
    \/ overlaps_existing db (dd_fromUser data) (dd_startDate data)
                         (dd_endDate data)) ->
   (exists code, out = (db, AppError code))
   /\ (dd_fromUser data <> dd_toUser data ->
       findUserById db (dd_fromUser data) <> None ->
       findUserById db (dd_toUser data) <> None ->
       out = (db, AppError 409)))
  /\ (forall d, snd out = Ok d ->
        approvalDelegation (fst out) = approvalDelegation db ++ [d]
        /\ from_user d = dd_fromUser data /\ to_user d = dd_toUser data
        /\ start_date d = dd_startDate data /\ end_date d = dd_endDate data
        /\ dlg_is_active d = true
        /\ (no_overlap (approvalDelegation db) ->
            no_overlap (approvalDelegation (fst out)))
        /\ (no_two_cycle now (approvalDelegation db) ->
            no_two_cycle now (approvalDelegation (fst out)))).
Proof.
  cbv zeta. split; [apply createDelegation_rejects|].
  intros d Hok.
  destruct (createDelegation_Ok _ _ _ _ Hok)
    as (Hne & Hback & Hover & Hd & Hfst).
  rewrite Hfst. simpl.
  split; [reflexivity|]. subst d. simpl.
  do 5 (split; [reflexivity|]). split.
  - intros Hinv. apply ForallOrdPairs_snoc; [exact Hinv|].
    apply Forall_forall. intros d0 Hin. simpl. intros Hf Ha _ t [Hw1 Hw2].
    apply (Hover d0 Hin Hf Ha). unfold in_window in *. simpl in *. lia.
  - intros Hinv d1 d2 H1 H2 Hft Htf Ha1 Ha2 t Ht [Hw1 Hw2].
    apply in_app_or in H1, H2.
    destruct H1 as [H1|[<-|[]]], H2 as [H2|[<-|[]]]; simpl in *.
    + exact (Hinv d1 d2 H1 H2 Hft Htf Ha1 Ha2 t Ht (conj Hw1 Hw2)).
    + pose proof (Hback d1 H1 Hft Htf Ha1). unfold in_window in *. lia.
    + pose proof (Hback d2 H2 (eq_sym Htf) (eq_sym Hft) Ha2).
      unfold in_window in *. lia.
    + congruence.
Qed.

(** ** Idempotency guard *)

Section IdempotencyFacts.
Variable JSON_stringify : Json -> string.
Variable sha256_hex : string -> string.

(** Without a key the guard is the handler itself. *)
Lemma idempotent_passthrough req next now later db :
  truthy (idempotency_key_header req) = false ->
  idempotent JSON_stringify sha256_hex req next now later db = next db.
Proof. unfold idempotent. intros ->. reflexivity. Qed.


(** C3: the code departs from the claim.  A first approve of request
    [req-1] under key [k1] is answered and kept.  A second call under the
    same key and with the same body, but to the route of request [req-2],
    is answered with the response kept for [req-1]: its own handler is
    never run, and no conflict is raised, because the fingerprint covers
    the body only and the route of the record is never compared. *)
Theorem idempotent_replays_other_route (next2 : DB -> DB * HttpResponse) :
  let body := Some (JObject [("remarks", JString "ok")]) in
  let first :=
    {| idempotency_key_header := Some "k1"; req_user := Some "bob";
       originalUrl := "/api/approvals/req-1/approve";
       req_body := body; requestId := None |} in
  let second :=
    {| idempotency_key_header := Some "k1"; req_user := Some "bob";
       originalUrl := "/api/approvals/req-2/approve";
       req_body := body; requestId := None |} in
  let answer :=
    {| res_status := 200;
       res_body := JObject [("success", JBool true);
                            ("approvalRequestId", JString "req-1")] |} in
  let db1 :=
    fst (idempotent JSON_stringify sha256_hex first (fun d => (d, answer))
                    2000 2001 Fixture.db0) in
  map idem_route (idempotencyKey db1) = ["/api/approvals/req-1/approve"]
  /\ idempotent JSON_stringify sha256_hex second next2 3000 3001 db1
     = (db1, answer).
Proof.
  cbv zeta.
  unfold idempotent, capture, checkIdempotency, saveIdempotency.
  simpl. rewrite String.eqb_refl. simpl. split; reflexivity.
Qed.

End IdempotencyFacts.

(** ** Escalation worker *)

Lemma activePending_In db a r :
  In (a, r) (activePending db) <->
  In a (approvalStep db)
  /\ status a = Pending /\ escalated a = false
  /\ findRequestById db (approval_request_id a) = Some r
  /\ current_status r = InProgress.
Proof.
  unfold activePending. rewrite in_flat_map. split.
  - intros (s & Hin & H).
    destruct (StepStatus_eqb (status s) Pending && negb (escalated s)) eqn:E1;
      [|destruct H].
    destruct (findRequestById db (approval_request_id s)) as [r0|] eqn:E2;
      [|destruct H].
    destruct (RequestStatus_eqb (current_status r0) InProgress) eqn:E3;
      [|destruct H].
    destruct H as [[= <- <-]|[]].
    apply andb_true_iff in E1. destruct E1 as [E1 E1'].
    apply StepStatus_eqb_eq in E1. apply negb_true_iff in E1'.
    apply RequestStatus_eqb_eq in E3. auto.
  - intros (Hin & Hp & He & Hr & Hs). exists a. split; [exact Hin|].
    rewrite Hp, He, Hr, Hs. simpl. now left.
Qed.

Lemma activePending_ids_NoDup db :
  step_ids_unique db ->
  NoDup (map (fun ar => step_id (fst ar)) (activePending db)).
Proof.
  unfold step_ids_unique, activePending.
  induction (approvalStep db) as [|s l IH]; simpl; intros Hnd; [constructor|].
  inversion Hnd as [|? ? Hnot Hnd']; subst. rewrite map_app.
  assert (Htail : forall x,
             In x (map (fun ar : ApprovalStep * ApprovalRequest =>
                          step_id (fst ar))
                       (flat_map
                          (fun s0 =>
                             if StepStatus_eqb (status s0) Pending
                                && negb (escalated s0)
                             then match findRequestById db
                                          (approval_request_id s0) with
                                  | Some r =>
                                      if RequestStatus_eqb (current_status r)
                                                           InProgress
                                      then [(s0, r)] else []
                                  | None => []
                                  end
                             else []) l)) ->
             In x (map step_id l)).
  { intros x Hx. apply in_map_iff in Hx. destruct Hx as ([a r] & <- & Hx).
    apply in_flat_map in Hx. destruct Hx as (s0 & Hs0 & Hx).
    destruct (StepStatus_eqb (status s0) Pending && negb (escalated s0));
      [|destruct Hx].
    destruct (findRequestById db (approval_request_id s0)); [|destruct Hx].
    destruct (RequestStatus_eqb (current_status a0) InProgress);
      [|destruct Hx].
    destruct Hx as [[= <- <-]|[]]. simpl. now apply in_map. }
  destruct (StepStatus_eqb (status s) Pending && negb (escalated s));
    [|simpl; now apply IH].
  destruct (findRequestById db (approval_request_id s)) as [r|];
    [|simpl; now apply IH].
  destruct (RequestStatus_eqb (current_status r) InProgress);
    [|simpl; now apply IH].
  simpl. constructor; [|now apply IH].
  intros Hx. apply Hnot. now apply Htail.
Qed.

Lemma find_id_absent (sel : list (ApprovalStep * ApprovalRequest)) id :
  ~ In id (map (fun ar => step_id (fst ar)) sel) ->
  find (fun ar => String.eqb (step_id (fst ar)) id) sel = None.
Proof.
  induction sel as [|[a r] sel IH]; simpl; intros Hn; [reflexivity|].
  destruct (String.eqb (step_id a) id) eqn:E.
  - apply String.eqb_eq in E. tauto.
  - apply IH. tauto.
Qed.

(** The loop over the selected steps, seen on the step table. *)
Lemma escalation_loop raises now db sel :
  NoDup (map (fun ar => step_id (fst ar)) sel) ->
  forall ss counts,
    fst (fold_left
              (fun (acc : DB * EscalationCounts)
                   (sr : ApprovalStep * ApprovalRequest) =>
                 let (d, counts) := acc in
                 let (step, request) := sr in
                 match escalation_body raises now d step request with
                 | Continue => acc
                 | Caught =>
                     (d, {| escalatedCount := escalatedCount counts;
                            errorCount := errorCount counts + 1 |})
                 | Escalate to =>
                     (update_step (step_id step) (set_escalated to) d,
                      {| escalatedCount := escalatedCount counts + 1;
                         errorCount := errorCount counts |})
                 end)
              sel (with_steps db ss, counts))
    = with_steps db (map (scan_selected raises now db sel) ss).
Proof.
  induction sel as [|[a r] sel IH]; intros Hnd ss counts.
  - simpl. f_equal. symmetry. apply map_id.
  - inversion Hnd as [|? ? Hnot Hnd']; subst. simpl in Hnot.
    cbn [fold_left].
    change (escalation_body raises now (with_steps db ss) a r)
      with (escalation_body raises now db a r).
    assert (Hstep : forall s,
              scan_selected raises now db ((a, r) :: sel) s
              = scan_selected raises now db sel
                  (match escalation_body raises now db a r with
                   | Escalate to =>
                       if String.eqb (step_id s) (step_id a)
                       then set_escalated to s else s
                   | Continue | Caught => s
                   end)).
    { intros s. unfold scan_selected at 1. simpl.
      rewrite (String.eqb_sym (step_id a) (step_id s)).
      destruct (String.eqb (step_id s) (step_id a)) eqn:E.
      - apply String.eqb_eq in E.
        destruct (escalation_body raises now db a r);
          unfold scan_selected; simpl; rewrite E;
          rewrite (find_id_absent _ _ Hnot); reflexivity.
      - destruct (escalation_body raises now db a r); reflexivity. }
    destruct (escalation_body raises now db a r) as [| to |] eqn:Eb.
    + rewrite (IH Hnd'). f_equal. apply map_ext. intros s. now rewrite Hstep.
    + change (update_step (step_id a) (set_escalated to) (with_steps db ss))
        with (with_steps db
                (map (fun s => if String.eqb (step_id s) (step_id a)
                               then set_escalated to s else s) ss)).
      rewrite (IH Hnd'), map_map. f_equal.
      apply map_ext. intros s. now rewrite Hstep.
    + change (with_steps db ss, {| escalatedCount := escalatedCount counts;
                                   errorCount := errorCount counts + 1 |})
        with (with_steps db ss,
              {| escalatedCount := escalatedCount counts;
                 errorCount := errorCount counts + 1 |}).
      rewrite (IH Hnd'). f_equal. apply map_ext. intros s. now rewrite Hstep.
Qed.

Lemma scan_selected_activePending raises now db s :
  step_ids_unique db -> In s (approvalStep db) ->
  scan_selected raises now db (activePending db) s = scan_step raises now db s.
Proof.
  intros Hnd Hin. unfold scan_selected, scan_step.
  destruct (find _ (activePending db)) as [[a r]|] eqn:Ef.
  - apply find_some in Ef. destruct Ef as [Hsel Hid]. simpl in Hid.
    apply String.eqb_eq in Hid. apply activePending_In in Hsel.
    destruct Hsel as (Hain & Hp & He & Hr & Hs).
    assert (a = s) by (eapply NoDup_map_eq; eauto). subst a.
    rewrite Hp, He, Hr, Hs. reflexivity.
  - destruct (StepStatus_eqb (status s) Pending && negb (escalated s)) eqn:E1;
      [|reflexivity].
    destruct (findRequestById db (approval_request_id s)) as [r|] eqn:E2;
      [|reflexivity].
    destruct (RequestStatus_eqb (current_status r) InProgress) eqn:E3;
      [|reflexivity].
    exfalso.
    assert (Hsel : In (s, r) (activePending db)).
    { apply activePending_In. apply andb_true_iff in E1.
      destruct E1 as [E1 E1']. apply StepStatus_eqb_eq in E1.
      apply negb_true_iff in E1'. apply RequestStatus_eqb_eq in E3. auto. }
    pose proof (find_none _ _ Ef _ Hsel) as Hn. simpl in Hn.
    rewrite String.eqb_refl in Hn. discriminate.
Qed.

Lemma runEscalation_steps raises now db :
  step_ids_unique db ->
  fst (runEscalation raises now db)
  = with_steps db (map (scan_step raises now db) (approvalStep db)).
Proof.
  intros Hnd. unfold runEscalation.
  rewrite <- (with_steps_same db) at 2.
  rewrite (@escalation_loop raises now db _ (activePending_ids_NoDup Hnd)).
  f_equal. apply map_ext_in. intros s Hin.
  now apply scan_selected_activePending.
Qed.

Lemma or_null_idem o : or_null (or_null o) = or_null o.
Proof. unfold or_null. destruct (truthy o) eqn:E; [now rewrite E|reflexivity]. Qed.

Lemma active_manager_Some db approverUserId m :
  active_manager db approverUserId = Some m ->
  exists a approver manager,
    approverUserId = Some a
    /\ In approver (users db) /\ user_id approver = a
    /\ deleted_at approver = None /\ manager_id approver = Some m
    /\ In manager (users db) /\ user_id manager = m
    /\ user_is_active manager = true /\ deleted_at manager = None
    /\ m <> "".
Proof.
  unfold active_manager.
  destruct (truthy approverUserId) eqn:Ta; [|discriminate].
  destruct approverUserId as [a|]; [|discriminate].
  destruct (find _ (users db)) as [approver|] eqn:Ea; [|discriminate].
  destruct (truthy (manager_id approver)) eqn:Tm; [|discriminate].
  destruct (find (fun u => opt_eqb (manager_id approver) (user_id u)
                           && user_is_active u && is_null (deleted_at u))
                 (users db)) as [manager|] eqn:Em; [|discriminate].
  intros [= <-]. apply find_some in Ea, Em.
  destruct Ea as [Hain Ea], Em as [Hmin Em].
  cbv beta in Ea, Em. apply andb_true_iff in Ea. destruct Ea as [Ea1 Ea2].
  apply andb_true_iff in Em. destruct Em as [Em Em3].
  apply andb_true_iff in Em. destruct Em as [Em1 Em2].
  apply opt_eqb_eq in Ea1, Em1. apply is_null_eq in Ea2, Em3.
  exists a, approver, manager. injection Ea1 as ->.
  repeat split; auto.
  intros E. rewrite Em1, E in Tm. discriminate.
Qed.

Lemma first_super_admin_Some db u :
  first_super_admin db = Some u ->
  exists adminRole admin,
    In adminRole (roles db) /\ role_code adminRole = "SUPER_ADMIN"
    /\ role_is_active adminRole = true
    /\ In admin (users db) /\ user_id admin = u
    /\ user_role_id admin = Some (role_id_ adminRole)
    /\ user_is_active admin = true /\ deleted_at admin = None
    /\ u <> "".
Proof.
  unfold first_super_admin.
  destruct (find _ (roles db)) as [adminRole|] eqn:Er; [|discriminate].
  destruct (find _ (users db)) as [admin|] eqn:Eu; [|discriminate].
  unfold or_null, truthy.
  destruct (String.eqb (user_id admin) "") eqn:E; [discriminate|].
  simpl. intros [= <-]. apply find_some in Er, Eu.
  destruct Er as [Hrin Er], Eu as [Huin Eu]. cbv beta in Er, Eu.
  apply andb_true_iff in Er. destruct Er as [Er1 Er2].
  apply andb_true_iff in Eu. destruct Eu as [Eu Eu3].
  apply andb_true_iff in Eu. destruct Eu as [Eu1 Eu2].
  apply String.eqb_eq in Er1. apply opt_eqb_eq in Eu1.
  apply is_null_eq in Eu3. apply String.eqb_neq in E.
  exists adminRole, admin. repeat split; auto.
Qed.

Lemma resolveEscalationTarget_or_null db approverUserId :
  or_null (resolveEscalationTarget db approverUserId)
  = resolveEscalationTarget db approverUserId.
Proof.
  unfold resolveEscalationTarget.
  destruct (active_manager db approverUserId) as [m|] eqn:Em.
  - apply active_manager_Some in Em.
    destruct Em as (a & approver & manager & _ & _ & _ & _ & _ & _ & _ & _
                    & _ & Hne).
    unfold or_null, truthy. apply String.eqb_neq in Hne. now rewrite Hne.
  - destruct (first_super_admin db) as [u|] eqn:Eu; [|reflexivity].
    apply first_super_admin_Some in Eu.
    destruct Eu as (r & admin & _ & _ & _ & _ & _ & _ & _ & _ & Hne).
    unfold or_null, truthy. apply String.eqb_neq in Hne. now rewrite Hne.
Qed.

(** The scan as the worker performs it.  One run, on a store with
    distinct step ids, rewrites the step table row by row and touches
    nothing else.  A step that is
    pending, not escalated, whose parent request is in progress, and
    whose handling meets no storage error, gets [escalated = true] and
    [escalated_to] = the approver's active manager, else the first active
    user of the active [SUPER_ADMIN] role, else null, exactly when its
    matrix rule has an SLA (non-null, non-zero hours) that the time since
    the request's creation has reached; otherwise it is left as it is.
    Already escalated steps, steps that are not pending, steps of
    requests not in progress and steps whose handling raised are left as
    they are, whatever happens to the other steps. *)
Theorem runEscalation_scan raises now db :
  step_ids_unique db ->
  exists after : ApprovalStep -> ApprovalStep,
    fst (runEscalation raises now db)
    = with_steps db (map after (approvalStep db))
    /\ forall s,
        (forall r t,
            status s = Pending -> escalated s = false ->
            findRequestById db (approval_request_id s) = Some r ->
            current_status r = InProgress ->
            created_at r = Some t ->
            raises (step_id s) = false ->
            (sla_reached db now s r t ->
             after s
             = set_escalated
                 (match active_manager db (approver_user s) with
                  | Some manager => Some manager
                  | None => first_super_admin db
                  end) s)
            /\ (~ sla_reached db now s r t -> after s = s))
        /\ (escalated s = true -> after s = s)
        /\ (status s <> Pending -> after s = s)
        /\ (forall r, findRequestById db (approval_request_id s) = Some r ->
                      current_status r <> InProgress -> after s = s)
        /\ (raises (step_id s) = true -> after s = s).
Proof.
  intros Hnd. exists (scan_step raises now db).
  split; [now apply runEscalation_steps|].
  intros s. unfold scan_step. repeat split.
  - intros (m & h & Hm & Hh & Hz & Hage).
    rewrite H, H0, H1, H2. simpl. unfold escalation_body.
    rewrite H3, H4, Hm, Hh.
    apply Z.eqb_neq in Hz. rewrite Hz.
    replace (now - t <? h * ms_per_hour) with false
      by (symmetry; apply Z.ltb_ge; exact Hage).
    rewrite resolveEscalationTarget_or_null. reflexivity.
  - intros Hno. rewrite H, H0, H1, H2. simpl. unfold escalation_body.
    rewrite H3, H4.
    destruct (sla_matrix db r s) as [m|] eqn:Hm; [|reflexivity].
    destruct (escalation_hours m) as [h|] eqn:Hh; [|reflexivity].
    destruct (h =? 0) eqn:Hz; [reflexivity|].
    destruct (now - t <? h * ms_per_hour) eqn:Hage; [reflexivity|].
    exfalso. apply Hno. exists m, h. apply Z.eqb_neq in Hz.
    apply Z.ltb_ge in Hage. auto.
  - intros He. rewrite He, andb_false_r. reflexivity.
  - intros Hs. destruct (status s); try reflexivity. congruence.
  - intros r Hr Hs. rewrite Hr.
    destruct (StepStatus_eqb (status s) Pending && negb (escalated s));
      [|reflexivity].
    destruct (current_status r); try reflexivity. congruence.
  - intros Hr.
    destruct (StepStatus_eqb (status s) Pending && negb (escalated s));
      [|reflexivity].
    destruct (findRequestById db (approval_request_id s)) as [r|];
      [|reflexivity].
    destruct (RequestStatus_eqb (current_status r) InProgress); [|reflexivity].
    unfold escalation_body. rewrite Hr.
    destruct (created_at r); reflexivity.
Qed.

Lemma runEscalation_scan_witness :
  exists after : ApprovalStep -> ApprovalStep,
    fst (runEscalation (fun _ => false) 86401000 Fixture.db_small)
    = with_steps Fixture.db_small (map after (approvalStep Fixture.db_small))
    /\ Forall (fun s => after s = set_escalated (Some "erin") s)
              (approvalStep Fixture.db_small).
Proof.
  destruct (@runEscalation_scan (fun _ => false) 86401000 Fixture.db_small)
    as (after & Hmap & Hall); [distinct_ids|].
  exists after. split; [exact Hmap|].
  let l := eval vm_compute in (approvalStep Fixture.db_small) in
  change (approvalStep Fixture.db_small) with l.
  constructor; [|constructor].
  match goal with
  | |- after ?s = _ =>
      let r := eval vm_compute in (findRequestById Fixture.db_small "req-1") in
      match r with
      | Some ?x =>
          destruct (proj1 (Hall s) x 1000 eq_refl eq_refl eq_refl eq_refl
                          eq_refl eq_refl) as [Hyes _]
      end
  end.
  apply Hyes. eexists. exists 24.
  repeat split; try reflexivity; try discriminate.
Defined.

(** C5: the code departs from the claim.  dave is an active user holding
    the seeded [super_admin] role.  The only step of bob's request is
    pending, not escalated, assigned to erin, who has no manager, and its
    rule has an SLA of 24 hours, reached at 86,401,000.  The scan flags
    the step and leaves [escalated_to] null: the fallback looks for a
    role coded ["SUPER_ADMIN"], which the store does not have. *)
Theorem runEscalation_misses_super_admin :
  (exists dave erin,
      findUserById Escalation.db_due "dave" = Some dave
      /\ role_code_is Escalation.db_due dave "super_admin" = true
      /\ isAdmin Escalation.db_due dave = true
      /\ findUserById Escalation.db_due "erin" = Some erin
      /\ manager_id erin = None)
  /\ map (fun s => (step_id s, approver_user s, status s, escalated s,
                    escalated_to s))
         (approvalStep Escalation.db_due)
     = [("s1", Some "erin", Pending, false, None)]
  /\ map (fun s => (step_id s, approver_user s, status s, escalated s,
                    escalated_to s))
         (approvalStep
            (fst (runEscalation (fun _ => false) 86401000 Escalation.db_due)))
     = [("s1", Some "erin", Pending, true, None)]
  /\ snd (runEscalation (fun _ => false) 86401000 Escalation.db_due)
     = {| escalatedCount := 1; errorCount := 0 |}.
Proof.
  split; [|repeat split; run].
  eexists. eexists. repeat split; run.
Qed.

(** The rule the worker reads the SLA from need not be a rule the step
    was created from.  alice's purchase order for proj-1 got its two
    steps from the rules of that project, which carry no SLA; the scan
    finds the rule for purchase orders of any project at the same order,
    with its 24 hours, and flags both steps. *)
Example runEscalation_uses_other_rule :
  map (fun m => (mx_id m, escalation_hours m))
      (findMatrices Escalation.db0_global_sla "PO" "proj-1" 700 None)
  = [("m3", None); ("m4", None)]
  /\ map (fun s => (step_id s, role_id s, escalated s))
         (approvalStep Escalation.db_other_rule)
     = [("s1", Some "r-pm", false); ("s2", Some "r-acc", false)]
  /\ map (fun s => (step_id s, escalated s, escalated_to s))
         (approvalStep
            (fst (runEscalation (fun _ => false) 86401000
                                Escalation.db_other_rule)))
     = [("s1", true, Some "erin"); ("s2", true, None)].
Proof. repeat split; run. Qed.

(** ** Reject and cancel: what the code does *)

Lemma skip_pending_none rid db :
  (forall n, ~ pending_at db rid n) -> skip_pending rid db = db.
Proof.
  intros Hno. unfold skip_pending.
  rewrite <- (with_steps_same db) at 3. f_equal.
  rewrite <- (map_id (approvalStep db)) at 2.
  apply map_ext_in. intros s Hin.
  destruct (String.eqb (approval_request_id s) rid
            && StepStatus_eqb (status s) Pending) eqn:E; [|reflexivity].
  exfalso. apply andb_true_iff in E. destruct E as [E1 E2].
  apply String.eqb_eq in E1. apply StepStatus_eqb_eq in E2.
  apply (Hno (step_order s)). exists s. auto.
Qed.

Lemma skip_pending_leaves_none rid db n : ~ pending_at (skip_pending rid db) rid n.
Proof.
  intros (s' & Hin & Hr & _ & Hp). simpl in Hin.
  apply in_map_iff in Hin. destruct Hin as (s & <- & _).
  destruct (String.eqb (approval_request_id s) rid
            && StepStatus_eqb (status s) Pending) eqn:E.
  - discriminate.
  - apply andb_false_iff in E. destruct E as [E|E].
    + apply String.eqb_neq in E. contradiction.
    + rewrite (proj2 (StepStatus_eqb_eq _ _) Hp) in E. discriminate.
Qed.

(** X7.  A successful reject: the acted step, at the current order and
    open to the actor as administrator, direct approver or holder of the
    step's role, becomes rejected; the request becomes rejected and completed;
    no step of the request stays pending, so a second sweep finds nothing
    to skip. *)
Lemma rejectStep_cascade rid actorId rem now db db' out :
  rejectStep rid actorId rem now db = (db', Ok out) ->
  exists actor request step,
    findUserById db actorId = Some actor
    /\ findRequestById db rid = Some request
    /\ current_status request = InProgress
    /\ In step (approvalStep db)
    /\ approval_request_id step = rid
    /\ step_order step = current_step request
    /\ status step = Pending
    /\ (isAdmin db actor = true
        \/ approver_user step = Some actorId
        \/ opt_id_eqb (role_id step) (user_role_id actor) = true)
    /\ findRequestById db' rid = Some (complete_as RRejected now request)
    /\ approvalStep db'
       = map (fun s =>
                if String.eqb (step_id s) (step_id step)
                then act_on Rejected "reject" rem now actorId s
                else if String.eqb (approval_request_id s) rid
                        && StepStatus_eqb (status s) Pending
                     then set_status Skipped s else s)
             (approvalStep db)
    /\ (forall n, ~ pending_at db' rid n)
    /\ skip_pending rid db' = db'.
Proof.
  unfold rejectStep. intros H.
  destruct (findUserById db actorId) as [actor|] eqn:EA; [|discriminate].
  destruct (findRequestById db rid) as [request|] eqn:ER; [|discriminate].
  destruct (RequestStatus_eqb (current_status request) InProgress) eqn:ES;
    [|discriminate].
  apply RequestStatus_eqb_eq in ES. simpl in H.
  destruct (find _ (approval_steps db rid)) as [step|] eqn:EF; [|discriminate].
  injection H as <- _. apply find_some in EF. destruct EF as [Hin Hact].
  apply approval_steps_In in Hin. destruct Hin as [Hin Hr].
  destruct (step_order step =? current_step request) eqn:E1;
    [|discriminate].
  destruct (StepStatus_eqb (status step) Pending) eqn:E2; [|discriminate].
  apply Z.eqb_eq in E1. apply StepStatus_eqb_eq in E2. simpl in Hact.
  exists actor, request, step.
  do 7 (split; [assumption || reflexivity|]).
  split.
  { destruct (isAdmin db actor); [now left|right].
    apply orb_true_iff in Hact. rewrite opt_eqb_eq in Hact. exact Hact. }
  split.
  { unfold findRequestById. simpl.
    rewrite find_map_request by reflexivity.
    unfold findRequestById in ER. rewrite ER. reflexivity. }
  split.
  { simpl. rewrite map_map. apply map_ext. intros s.
    destruct (String.eqb (step_id s) (step_id step)); [|reflexivity].
    simpl. rewrite andb_false_r. reflexivity. }
  split; [intros n; apply skip_pending_leaves_none|].
  apply skip_pending_none. intros n. apply skip_pending_leaves_none.
Qed.

(** X8.  [cancelApproval], once the actor and the request are found: 409
    unless the request is in progress; then 403 unless the actor is the
    requester or holds a role whose code is [SUPER_ADMIN]; otherwise the
    request becomes cancelled and completed and its pending steps
    skipped, every other step row being kept. *)
Lemma cancelApproval_cases rid actorId now db actor request :
  findUserById db actorId = Some actor ->
  findRequestById db rid = Some request ->
  (current_status request <> InProgress ->
   cancelApproval rid actorId now db = (db, AppError 409))
  /\ (current_status request = InProgress ->
      requested_by request <> actorId ->
      role_code_is db actor "SUPER_ADMIN" = false ->
      cancelApproval rid actorId now db = (db, AppError 403))
  /\ (current_status request = InProgress ->
      requested_by request = actorId
      \/ role_code_is db actor "SUPER_ADMIN" = true ->
      exists db',
        cancelApproval rid actorId now db
        = (db', Ok {| so_approvalRequestId := rid;
                      so_currentStatus := RCancelled;
                      so_currentStep := None; so_note := None |})
        /\ findRequestById db' rid = Some (complete_as RCancelled now request)
        /\ approvalStep db'
           = map (fun s => if String.eqb (approval_request_id s) rid
                              && StepStatus_eqb (status s) Pending
                           then set_status Skipped s else s)
                 (approvalStep db)).
Proof.
  intros HA HR. unfold cancelApproval. rewrite HA, HR. repeat split.
  - intros Hs. destruct (current_status request); try reflexivity. congruence.
  - intros -> Hne Hrole. simpl. apply String.eqb_neq in Hne.
    now rewrite Hne, Hrole.
  - intros -> Hor. simpl. eexists. split; [|split].
    + destruct Hor as [ <- | -> ]; [rewrite String.eqb_refl|rewrite andb_false_r];
        reflexivity.
    + unfold findRequestById. simpl. rewrite find_map_request by reflexivity.
      unfold findRequestById in HR. rewrite HR. reflexivity.
    + reflexivity.
Qed.

(** ** The scenarios of the specification, run *)

Example small_request_created :
  snd (requestApproval (Fixture.submit "PR" "doc-1" 50000) "alice" 1000
                       "req-1" Fixture.stepIds Fixture.db0)
  = Ok {| ro_approvalRequestId := "req-1"; ro_currentStatus := InProgress;
          ro_totalSteps := 1; ro_currentStep := 1 |}
  /\ map step_order (approvalStep Fixture.db_small) = [1]
  /\ map step_order (approvalStep Fixture.db_large) = [1; 2]
  /\ map approver_user (approvalStep Fixture.db_parallel)
     = [Some "bob"; Some "carol"].
Proof. repeat split; run. Qed.

Example second_submission_conflicts :
  requestApproval (Fixture.submit "PR" "doc-1" 50000) "alice" 1500 "req-2"
                  Fixture.stepIds Fixture.db_small
  = (Fixture.db_small, AppError 409).
Proof. run. Qed.

Example unknown_document_type_rejected :
  requestApproval (Fixture.submit "GRN" "doc-9" 10) "alice" 1000 "req-1"
                  Fixture.stepIds Fixture.db0
  = (Fixture.db0, AppError 422).
Proof. run. Qed.

Example requester_is_not_resolved :
  resolveApprover Fixture.db0 (Some "r-pm") "bob" 1000
  = Some {| userId := "erin"; delegated := false |}
  /\ resolveApprover Scenario.db_delegated (Some "r-pm") "alice" 2000
     = Some {| userId := "carol"; delegated := true |}
  /\ resolveApprover Scenario.db_delegated (Some "r-pm") "carol" 2000
     = Some {| userId := "erin"; delegated := false |}.
Proof. repeat split; run. Qed.

Example reverse_delegation_rejected :
  createDelegation {| dd_fromUser := "carol"; dd_toUser := "bob";
                      dd_startDate := 20000; dd_endDate := 30000 |}
                   2000 "d2" Scenario.db_delegated
  = (Scenario.db_delegated, AppError 409).
Proof. run. Qed.

(** * Further properties of the engine *)

(** ** What a call leaves of the request table *)

Lemma Forall2_map_r {A B} (R : A -> B -> Prop) (u : B -> B) l l' :
  Forall2 R l l' -> (forall a b, R a b -> R a (u b)) ->
  Forall2 R l (map u l').
Proof. induction 1; intros Hu; simpl; constructor; auto. Qed.

Lemma Forall2_refl_on {A} (R : A -> A -> Prop) l :
  (forall a, R a a) -> Forall2 R l l.
Proof. intros H. induction l; constructor; auto. Qed.

(** The scan, whatever the ids and the faults, only rewrites step rows,
    and each row is left as it was or with its escalation fields set. *)
Lemma escalation_fold_flags raises now db sel :
  forall ss0 counts,
    Forall2 flagged (approvalStep db) ss0 ->
    exists ss',
      fst (fold_left
             (fun (acc : DB * EscalationCounts)
                  (sr : ApprovalStep * ApprovalRequest) =>
                let (d, counts) := acc in
                let (step, request) := sr in
                match escalation_body raises now d step request with
                | Continue => acc
                | Caught =>
                    (d, {| escalatedCount := escalatedCount counts;
                           errorCount := errorCount counts + 1 |})
                | Escalate to =>
                    (update_step (step_id step) (set_escalated to) d,
                     {| escalatedCount := escalatedCount counts + 1;
                        errorCount := errorCount counts |})
                end)
             sel (with_steps db ss0, counts))
      = with_steps db ss'
      /\ Forall2 flagged (approvalStep db) ss'.
Proof.
  induction sel as [|[a r] sel IH]; intros ss0 counts H0.
  - simpl. now exists ss0.
  - cbn [fold_left].
    destruct (escalation_body raises now (with_steps db ss0) a r) as [|to|].
    + now apply IH.
    + change (update_step (step_id a) (set_escalated to) (with_steps db ss0))
        with (with_steps db
                (map (fun s => if String.eqb (step_id s) (step_id a)
                               then set_escalated to s else s) ss0)).
      apply IH. apply Forall2_map_r; [exact H0|].
      intros s s0 Hs. destruct (String.eqb (step_id s0) (step_id a));
        [|exact Hs].
      right. exists to. destruct Hs as [->|[to0 ->]]; reflexivity.
    + now apply IH.
Qed.

Lemma runEscalation_flags raises now db :
  exists ss',
    fst (runEscalation raises now db) = with_steps db ss'
    /\ Forall2 flagged (approvalStep db) ss'.
Proof.
  unfold runEscalation.
  pose proof (@escalation_fold_flags raises now db (activePending db)
                (approvalStep db) {| escalatedCount := 0; errorCount := 0 |})
    as H.
  rewrite with_steps_same in H. apply H.
  apply Forall2_refl_on. intros a. now left.
Qed.

Lemma approveStep_store rid actorId rem now db :
  fst (approveStep rid actorId rem now db) = db
  \/ exists request f ss,
       findRequestById db rid = Some request
       /\ current_status request = InProgress
       /\ (f = (fun r => r) \/ (exists n, f = set_current_step n)
           \/ f = complete_as RApproved now)
       /\ fst (approveStep rid actorId rem now db)
          = update_request rid f (with_steps db ss).
Proof.
  destruct (approveStep rid actorId rem now db) as [db' [out|code]] eqn:E.
  2:{ left. unfold approveStep in E.
      destruct (findUserById db actorId); [|now injection E as <-].
      destruct (findRequestById db rid) as [request|];
        [|now injection E as <-].
      destruct (negb _); [now injection E as <-|].
      destruct (_ && _); [now injection E as <-|].
      destruct (filter _ _).
      - destruct (find _ _); now injection E as <-.
      - destruct (filter _ _); [|discriminate].
        destruct (findNextStepOrder _ _ _); discriminate. }
  destruct (so_note out) as [note|] eqn:Hn.
  - left. assert (Hn' : so_note out <> None) by (rewrite Hn; discriminate).
    destruct (approveStep_replayed _ _ _ _ _ E Hn')
      as (actor & request & _ & _ & _ & _ & _ & _ & -> & _). reflexivity.
  - right.
    destruct (approveStep_transaction _ _ _ _ _ E Hn)
      as (actor & request & acts & tx & _ & HR & HS & _ & _ & Htx & Hc).
    rewrite approve_tx_eq in Htx. simpl.
    exists request.
    destruct Hc as [(_ & -> & _) | [(_ & n & _ & -> & _) | (_ & _ & -> & _)]].
    + exists (fun r => r). eexists. do 2 (split; [assumption|]).
      split; [now left|]. rewrite Htx. unfold update_request. simpl.
      rewrite <- (with_steps_same (with_steps db _)) at 1. simpl.
      unfold with_steps, with_requests. simpl. f_equal.
      symmetry. rewrite <- (map_id (approvalRequest db)) at 2.
      apply map_ext. intros r. now destruct (String.eqb _ _).
    + exists (set_current_step n). eexists. do 2 (split; [assumption|]).
      split; [right; left; now exists n|]. now rewrite Htx.
    + exists (complete_as RApproved now). eexists.
      do 2 (split; [assumption|]). split; [now right; right|]. now rewrite Htx.
Qed.

Lemma map_same_request rid rs :
  map (fun r : ApprovalRequest =>
         if String.eqb (req_id r) rid then r else r) rs = rs.
Proof.
  rewrite <- (map_id rs) at 2. apply map_ext. intros r.
  now destruct (String.eqb _ _).
Qed.

Lemma approveStep_requests rid actorId rem now db :
  table_change (approvalRequest db)
               (approvalRequest (fst (approveStep rid actorId rem now db))).
Proof.
  destruct (approveStep_store rid actorId rem now db)
    as [->|(request & f & ss & HR & HS & Hf & ->)]; [now left|].
  simpl. destruct Hf as [->|[[n ->]| ->]].
  - left. apply map_same_request.
  - right; right. exists rid, (set_current_step n), request.
    repeat split; auto. left. now exists n.
  - right; right. exists rid, (complete_as RApproved now), request.
    repeat split; auto. right. exists RApproved, now.
    repeat split; discriminate.
Qed.

Lemma rejectStep_requests rid actorId rem now db :
  table_change (approvalRequest db)
               (approvalRequest (fst (rejectStep rid actorId rem now db))).
Proof.
  unfold rejectStep.
  destruct (findUserById db actorId); [|now left].
  destruct (findRequestById db rid) as [request|] eqn:ER; [|now left].
  destruct (RequestStatus_eqb (current_status request) InProgress) eqn:ES;
    [|now left].
  apply RequestStatus_eqb_eq in ES. simpl.
  destruct (find _ (approval_steps db rid)); [|now left].
  simpl. right; right. exists rid, (complete_as RRejected now), request.
  repeat split; auto. right. exists RRejected, now.
  repeat split; discriminate.
Qed.

Lemma cancelApproval_requests rid actorId now db :
  table_change (approvalRequest db)
               (approvalRequest (fst (cancelApproval rid actorId now db))).
Proof.
  unfold cancelApproval.
  destruct (findUserById db actorId); [|now left].
  destruct (findRequestById db rid) as [request|] eqn:ER; [|now left].
  destruct (RequestStatus_eqb (current_status request) InProgress) eqn:ES;
    [|now left].
  apply RequestStatus_eqb_eq in ES. simpl.
  destruct (_ && _); [now left|].
  simpl. right; right. exists rid, (complete_as RCancelled now), request.
  repeat split; auto. right. exists RCancelled, now.
  repeat split; discriminate.
Qed.

Lemma requestApproval_requests data actorId now reqId stepIds db :
  table_change
    (approvalRequest db)
    (approvalRequest (fst (requestApproval data actorId now reqId stepIds db))).
Proof.
  unfold requestApproval.
  destruct (findActiveRequest db (rd_docType data) (rd_docId data)) eqn:EA;
    [now left|].
  destruct (findMatrices db _ _ _ _); [now left|].
  simpl. right; left. eexists. split; [reflexivity|]. split; [reflexivity|].
  simpl. now apply findActiveRequest_None.
Qed.

Lemma perform_requests c db :
  table_change (approvalRequest db) (approvalRequest (perform c db)).
Proof.
  destruct c; simpl.
  - apply requestApproval_requests.
  - apply approveStep_requests.
  - apply rejectStep_requests.
  - apply cancelApproval_requests.
  - destruct (runEscalation_flags raises now db) as (ss' & -> & _). now left.
  - left. unfold createDelegation.
    destruct (String.eqb _ _); [reflexivity|].
    destruct (findUserById db _); [|reflexivity].
    destruct (findUserById db _); [|reflexivity].
    destruct (find _ _); [reflexivity|].
    destruct (find _ _); reflexivity.
  - left. unfold disableDelegation.
    destruct (find _ _) as [d|]; [|reflexivity].
    destruct (negb _); reflexivity.
Qed.

Lemma find_app_l {A} (P : A -> bool) l l' x :
  find P l = Some x -> find P (l ++ l') = Some x.
Proof.
  induction l as [|a l IH]; simpl; [discriminate|].
  destruct (P a); auto.
Qed.

Lemma find_map_other_request rid rid0 f rs :
  rid <> rid0 ->
  (forall r, req_id (f r) = req_id r) ->
  find (fun r => String.eqb (req_id r) rid0)
       (map (fun r => if String.eqb (req_id r) rid then f r else r) rs)
  = find (fun r => String.eqb (req_id r) rid0) rs.
Proof.
  intros Hne Hid. induction rs as [|r rs IH]; simpl; [reflexivity|].
  destruct (String.eqb (req_id r) rid) eqn:E.
  - rewrite Hid. apply String.eqb_eq in E.
    replace (String.eqb (req_id r) rid0) with false; [exact IH|].
    symmetry. apply String.eqb_neq. congruence.
  - now rewrite IH.
Qed.

Lemma table_change_keeps_decided rs rs' rid r :
  table_change rs rs' ->
  find (fun r => String.eqb (req_id r) rid) rs = Some r ->
  current_status r <> InProgress ->
  find (fun r => String.eqb (req_id r) rid) rs' = Some r.
Proof.
  intros [->|[(x & -> & _)|(rid' & f & request & Hf & Hs & Hfs & ->)]] Hr Hd.
  - exact Hr.
  - now apply find_app_l.
  - destruct (String.eqb rid' rid) eqn:E.
    + apply String.eqb_eq in E. subst rid'. congruence.
    + apply String.eqb_neq in E. rewrite find_map_other_request; auto.
      destruct Hfs as [[n ->]|(st & now & -> & _)]; reflexivity.
Qed.

(** X1.  A request that is no longer in progress is final: whatever
    sequence of service calls follows (submissions, approvals, rejections,
    cancellations by any actor on any request, escalation scans,
    delegation changes), its row, with status, current step and
    completion stamp, stays exactly as it was. *)
Theorem decided_request_is_final calls db rid request :
  findRequestById db rid = Some request ->
  current_status request <> InProgress ->
  findRequestById (perform_all calls db) rid = Some request.
Proof.
  unfold perform_all. revert db.
  induction calls as [|c calls IH]; intros db Hr Hd; simpl; [exact Hr|].
  apply IH; [|exact Hd]. unfold findRequestById in *.
  eapply table_change_keeps_decided; eauto. apply perform_requests.
Qed.

Lemma decided_request_is_final_witness :
  option_map current_status
    (findRequestById (perform_all Trace.later_calls Trace.db_decided) "req-1")
  = Some RApproved.
Proof.
  let r := eval vm_compute in (findRequestById Trace.db_decided "req-1") in
  match r with
  | Some ?x =>
      rewrite (@decided_request_is_final Trace.later_calls Trace.db_decided
                 "req-1" x)
  end.
  - reflexivity.
  - run.
  - discriminate.
Defined.

Lemma ForallOrdPairs_map {A} (R : A -> A -> Prop) (g : A -> A) l :
  (forall a b, R a b -> R (g a) (g b)) ->
  ForallOrdPairs R l -> ForallOrdPairs R (map g l).
Proof.
  intros Hg. induction 1 as [|a l Ha Hl IH]; simpl; constructor; auto.
  apply Forall_map. eapply Forall_impl; [|exact Ha]. intros b. apply Hg.
Qed.

Lemma table_change_one_active rs rs' :
  table_change rs rs' ->
  one_active_per_document rs -> one_active_per_document rs'.
Proof.
  unfold one_active_per_document.
  intros [->|[(x & -> & Hx & Hno)|(rid & f & request & _ & _ & Hf & ->)]] Hinv.
  - exact Hinv.
  - apply ForallOrdPairs_snoc; [exact Hinv|].
    apply Forall_forall. intros r Hin [Hr (Ht & Hi & _)].
    apply (Hno r Hin). rewrite Ht, Hi. exact Hr.
  - apply ForallOrdPairs_map; [|exact Hinv].
    assert (Hkeep : forall (r : ApprovalRequest) dt di,
               active_for dt di (if String.eqb (req_id r) rid then f r else r)
               -> active_for dt di r).
    { intros r dt di. destruct (String.eqb (req_id r) rid); [|auto].
      destruct Hf as [[n ->]|(st & now & -> & Hst1 & Hst2)];
        unfold active_for; simpl; [auto|].
      intros (_ & _ & [H|H]); congruence. }
    assert (Hdoc : forall r : ApprovalRequest,
               doc_type (if String.eqb (req_id r) rid then f r else r)
               = doc_type r
               /\ doc_id (if String.eqb (req_id r) rid then f r else r)
                  = doc_id r).
    { intros r. destruct (String.eqb (req_id r) rid); [|auto].
      destruct Hf as [[n ->]|(st & now & -> & _)]; auto. }
    intros a b Hab [H1 H2]. apply Hab.
    destruct (Hdoc a) as [Ht Hi]. rewrite Ht, Hi in H1, H2.
    split; now apply Hkeep.
Qed.

(** X2.  At most one active request per document, along every sequence
    of service calls: if no two active request rows (in progress, or
    pending) share a document type and id, this still holds after any
    number of submissions, approvals, rejections, cancellations, scans and
    delegation changes. *)
Theorem one_active_request_per_document calls db :
  one_active_per_document (approvalRequest db) ->
  one_active_per_document (approvalRequest (perform_all calls db)).
Proof.
  unfold perform_all. revert db.
  induction calls as [|c calls IH]; intros db Hinv; simpl; [exact Hinv|].
  apply IH. eapply table_change_one_active; [|exact Hinv].
  apply perform_requests.
Qed.

Lemma one_active_request_per_document_witness :
  one_active_per_document
    (approvalRequest (perform_all Trace.later_calls Trace.db_decided)).
Proof.
  apply one_active_request_per_document.
  unfold one_active_per_document. vm_compute approvalRequest.
  repeat constructor.
Defined.

(** ** Progress of a request *)

(** The store a call of [approveStep] leaves: the store it found, or the
    step writes followed by one of the three request updates. *)
Lemma approveStep_effect rid actorId rem now db :
  fst (approveStep rid actorId rem now db) = db
  \/ exists actor request out,
       approveStep rid actorId rem now db
       = (fst (approveStep rid actorId rem now db), Ok out)
       /\ findRequestById db rid = Some request
       /\ current_status request = InProgress
       /\ actableSteps db actor actorId now request <> []
       /\ let acts := actableSteps db actor actorId now request in
          let tx := with_steps db (map (approve_marked acts rem now actorId)
                                       (approvalStep db)) in
          (stillPending db request acts <> []
           /\ fst (approveStep rid actorId rem now db) = tx
           /\ so_currentStatus out = InProgress)
          \/ (stillPending db request acts = []
              /\ exists n,
                  findNextStepOrder db rid (current_step request) = Some n
                  /\ fst (approveStep rid actorId rem now db)
                     = update_request rid (set_current_step n) tx
                  /\ so_currentStatus out = InProgress)
          \/ (stillPending db request acts = []
              /\ findNextStepOrder db rid (current_step request) = None
              /\ fst (approveStep rid actorId rem now db)
                 = update_request rid (complete_as RApproved now) tx
              /\ so_currentStatus out = RApproved).
Proof.
  destruct (approveStep_store rid actorId rem now db) as [H|_]; [now left|].
  destruct (approveStep rid actorId rem now db) as [db' [out|code]] eqn:E.
  2:{ left. unfold approveStep in E.
      destruct (findUserById db actorId); [|now injection E as <-].
      destruct (findRequestById db rid) as [request|];
        [|now injection E as <-].
      destruct (negb _); [now injection E as <-|].
      destruct (_ && _); [now injection E as <-|].
      destruct (filter _ _).
      - destruct (find _ _); now injection E as <-.
      - destruct (filter _ _); [|discriminate].
        destruct (findNextStepOrder _ _ _); discriminate. }
  destruct (so_note out) as [note|] eqn:Hn.
  - left. assert (Hn' : so_note out <> None) by (rewrite Hn; discriminate).
    destruct (approveStep_replayed _ _ _ _ _ E Hn')
      as (actor & request & _ & _ & _ & _ & _ & _ & -> & _). reflexivity.
  - right.
    destruct (approveStep_transaction _ _ _ _ _ E Hn)
      as (actor & request & acts & tx & _ & HR & HS & -> & Hne & Htx & Hc).
    rewrite approve_tx_eq in Htx. subst tx. simpl.
    exists actor, request, out. do 4 (split; [assumption || reflexivity|]).
    cbv zeta.
    destruct Hc as [(H1 & H2 & H3 & _) | [(H1 & n & H2 & H3 & H4 & _)
                                         | (H1 & H2 & H3 & H4 & _)]].
    + left. auto.
    + right; left. split; [exact H1|]. exists n. auto.
    + right; right. auto.
Qed.

Lemma pending_other_request_after_tx db actor actorId now request rem rid k :
  step_ids_unique db ->
  rid <> req_id request ->
  let acts := actableSteps db actor actorId now request in
  pending_at db rid k ->
  pending_at
    (with_steps db (map (approve_marked acts rem now actorId)
                        (approvalStep db))) rid k.
Proof.
  cbv zeta. intros Hnd Hne (s & Hin & Hr & Ho & Hp).
  exists s. simpl. repeat split; auto.
  apply in_map_iff. exists s. split; [|exact Hin].
  unfold approve_marked.
  destruct (existsb _ _) eqn:Hex; [|reflexivity].
  exfalso. apply existsb_exists in Hex. destruct Hex as (a & Ha & Eid).
  apply String.eqb_eq in Eid.
  apply actableSteps_In in Ha. destruct Ha as (Hain & Har & _).
  assert (a = s) by (eapply NoDup_map_eq; eauto).
  subst a. congruence.
Qed.

(** X3.  Approving never strands a request.  On a store with distinct
    step ids, if a request in progress had a pending step at its current
    order and none below it, then after any call of [approveStep] (on
    this or on another request, accepted or refused) it is either no
    longer in progress or again has a pending step at its current order
    and none below. *)
Theorem approveStep_keeps_actionable rid actorId rem now db rid' :
  step_ids_unique db ->
  actionable db rid' ->
  actionable (fst (approveStep rid actorId rem now db)) rid'.
Proof.
  intros Hnd Hinv.
  destruct (approveStep_effect rid actorId rem now db)
    as [->|(actor & request & out & _ & HR & HS & Hne & Hc)]; [exact Hinv|].
  cbv zeta in Hc.
  pose proof (findRequestById_id _ _ HR) as [Hid _].
  set (acts := actableSteps db actor actorId now request) in *.
  set (tx := with_steps db (map (approve_marked acts rem now actorId)
                                (approvalStep db))) in *.
  assert (Hback : forall r k, pending_at tx r k -> pending_at db r k).
  { intros r k. apply pending_after_tx. }
  destruct (String.eqb rid rid') eqn:Esame.
  - apply String.eqb_eq in Esame. subst rid'.
    destruct (Hinv request HR HS) as [_ Hlow].
    assert (Hcur : pending_at tx rid (current_step request)
                   <-> stillPending db request acts <> []).
    { rewrite <- Hid at 1. apply pending_current_after_tx. }
    destruct Hc as [(Hsp & -> & _) | [(Hsp & n & Hn & -> & _)
                                     | (Hsp & Hn & -> & _)]].
    + intros r' Hr' Hs'.
      assert (r' = request) by (unfold findRequestById in *; simpl in Hr';
                                congruence).
      subst r'. split; [now apply Hcur|].
      intros k Hk Hp. exact (Hlow k Hk (Hback _ _ Hp)).
    + intros r' Hr' Hs'.
      rewrite findRequestById_update_request in Hr' by reflexivity.
      unfold findRequestById in Hr', HR. simpl in Hr'. rewrite HR in Hr'.
      injection Hr' as <-. simpl.
      apply findNextStepOrder_Some in Hn. destruct Hn as (Hlt & Hpn & Hmin).
      split.
      * rewrite <- Hid.
        apply (@pending_later_after_tx db actor actorId now request rem n
                 Hnd Hlt). now rewrite Hid.
      * intros k Hk Hp.
        change (pending_at tx rid k) in Hp.
        destruct (Z.lt_trichotomy k (current_step request)) as [Hl|[->|Hg]].
        -- exact (Hlow k Hl (Hback _ _ Hp)).
        -- apply Hcur in Hp. contradiction.
        -- specialize (Hmin k Hg (Hback _ _ Hp)). lia.
    + intros r' Hr' Hs'.
      rewrite findRequestById_update_request in Hr' by reflexivity.
      unfold findRequestById in Hr', HR. simpl in Hr'. rewrite HR in Hr'.
      injection Hr' as <-. discriminate.
  - apply String.eqb_neq in Esame.
    assert (Hfwd : forall k, pending_at db rid' k -> pending_at tx rid' k).
    { intros k. apply pending_other_request_after_tx; congruence. }
    assert (Hfind : forall d f,
               approvalRequest d = approvalRequest db ->
               (forall r, req_id (f r) = req_id r) ->
               findRequestById (update_request rid f d) rid'
               = findRequestById db rid').
    { intros d f Hd Hf. unfold findRequestById. simpl.
      rewrite find_map_other_request; auto. now rewrite Hd. }
    assert (Hgoal : forall d,
               findRequestById d rid' = findRequestById db rid' ->
               approvalStep d = approvalStep tx -> actionable d rid').
    { intros d Hd Hst r' Hr' Hs'. rewrite Hd in Hr'.
      destruct (Hinv r' Hr' Hs') as [Hp Hlow]. split.
      - eapply pending_at_steps; [exact Hst|]. now apply Hfwd.
      - intros k Hk Hq. apply (Hlow k Hk). apply Hback.
        eapply pending_at_steps; [symmetry; exact Hst|exact Hq]. }
    destruct Hc as [(_ & -> & _) | [(_ & n & _ & -> & _) | (_ & _ & -> & _)]].
    + apply Hgoal; reflexivity.
    + apply Hgoal; [|reflexivity]. now apply Hfind.
    + apply Hgoal; [|reflexivity]. now apply Hfind.
Qed.

Lemma approveStep_keeps_actionable_witness :
  actionable (fst (approveStep "req-1" "bob" None 2000 Fixture.db_large))
             "req-1".
Proof.
  apply approveStep_keeps_actionable; [distinct_ids|].
  intros request Hr _. vm_compute in Hr. injection Hr as <-. simpl. split.
  - eexists. split; [vm_compute; left; reflexivity|]. repeat split.
  - intros k Hk (s & Hin & _ & Ho & _). vm_compute in Hin.
    destruct Hin as [<-|[<-|[]]]; simpl in Ho; lia.
Defined.

(** X4.  A request is only marked approved when none of its steps is
    pending: if [approveStep] answers with status approved, and no step
    below the current order was pending before the call, then no step of
    the request, at any order, is pending afterwards. *)
Theorem approved_request_has_no_pending_step
    rid actorId rem now db db' out request :
  approveStep rid actorId rem now db = (db', Ok out) ->
  so_currentStatus out = RApproved ->
  findRequestById db rid = Some request ->
  (forall k, k < current_step request -> ~ pending_at db rid k) ->
  forall k, ~ pending_at db' rid k.
Proof.
  intros H Hst HR Hlow k Hp.
  destruct (so_note out) as [note|] eqn:Hn.
  { assert (Hn' : so_note out <> None) by (rewrite Hn; discriminate).
    destruct (approveStep_replayed _ _ _ _ _ H Hn')
      as (a0 & r0 & _ & _ & _ & _ & _ & _ & _ & Hout).
    rewrite Hout in Hst. discriminate. }
  destruct (approveStep_transaction _ _ _ _ _ H Hn)
    as (actor & request0 & acts & tx & _ & HR0 & _ & -> & _ & Htx & Hc).
  rewrite HR in HR0. injection HR0 as <-.
  pose proof (findRequestById_id _ _ HR) as [Hid _].
  rewrite approve_tx_eq in Htx. subst tx.
  destruct Hc as [(_ & _ & Hs' & _) | [(_ & n & _ & _ & Hs' & _)
                                      | (Hsp & Hnone & -> & _)]];
    try congruence.
  assert (Hq : pending_at
                 (with_steps db
                    (map (approve_marked
                            (actableSteps db actor actorId now request)
                            rem now actorId) (approvalStep db))) rid k)
    by exact Hp.
  destruct (Z.lt_trichotomy k (current_step request)) as [Hl|[->|Hg]].
  - apply pending_after_tx in Hq. exact (Hlow k Hl Hq).
  - rewrite <- Hid in Hq at 1. apply pending_current_after_tx in Hq.
    contradiction.
  - apply pending_after_tx in Hq. exact (findNextStepOrder_None Hnone Hg Hq).
Qed.

Lemma approved_request_has_no_pending_step_witness :
  Forall (fun k => ~ pending_at
                       (fst (approveStep "req-1" "bob" None 2000
                                         Fixture.db_small)) "req-1" k)
         [1; 2].
Proof.
  let r := eval vm_compute in (findRequestById Fixture.db_small "req-1") in
  match r with
  | Some ?x =>
      assert (H : forall k,
                 ~ pending_at (fst (approveStep "req-1" "bob" None 2000
                                                Fixture.db_small)) "req-1" k);
      [ apply (@approved_request_has_no_pending_step
                 "req-1" "bob" None 2000 Fixture.db_small _
                 {| so_approvalRequestId := "req-1";
                    so_currentStatus := RApproved;
                    so_currentStep := None; so_note := None |} x)
      | repeat constructor; apply H ]
  end.
  - run.
  - reflexivity.
  - run.
  - intros k Hk (s & Hin & _ & Ho & _). vm_compute in Hin.
    destruct Hin as [<-|[]]; simpl in Ho; simpl in Hk; lia.
Defined.

Lemma find_app_r {A} (P : A -> bool) l l' :
  find P l = None -> find P (l ++ l') = find P l'.
Proof.
  induction l as [|a l IH]; simpl; [reflexivity|].
  destruct (P a); [discriminate|auto].
Qed.

Lemma requestApproval_Ok data actorId now reqId stepIds db db' out :
  requestApproval data actorId now reqId stepIds db = (db', Ok out) ->
  exists req m0 ms,
    findMatrices db (rd_docType data) (rd_projectId data) (rd_amount data)
                 (rd_department data) = m0 :: ms
    /\ db' = with_steps (with_requests db (approvalRequest db ++ [req]))
               (approvalStep db
                ++ stepInserts db actorId now reqId stepIds 0 (m0 :: ms))
    /\ req_id req = reqId
    /\ current_status req = InProgress
    /\ In (current_step req) (map mx_step_order (m0 :: ms))
    /\ (forall m, In m (m0 :: ms) -> current_step req <= mx_step_order m).
Proof.
  unfold requestApproval.
  destruct (findActiveRequest db _ _); [discriminate|].
  destruct (findMatrices db _ _ _ _) as [|m0 ms] eqn:EM; [discriminate|].
  intros E. apply (f_equal fst) in E. cbn [fst] in E. subst db'.
  set (orders := map mx_step_order (m0 :: ms)).
  assert (Hmem : forall z, In z (orderBy (fun z => z) (new_Set [] orders))
                           <-> In z orders).
  { intros z. rewrite orderBy_In, new_Set_In. simpl. tauto. }
  destruct (orderBy (fun z => z) (new_Set [] orders)) as [|first rest] eqn:EU.
  { exfalso. apply (proj2 (Hmem (mx_step_order m0))). now left. }
  pose proof (orderBy_head (fun z => z) (new_Set [] orders) EU) as [_ Hmin].
  eexists. exists m0, ms. split; [reflexivity|]. split; [reflexivity|].
  cbn [req_id current_status current_step hd]. repeat split.
  - apply Hmem. now left.
  - intros m Hin. apply Hmin. apply new_Set_In. split; [|tauto].
    apply in_map. exact Hin.
Qed.

Lemma Forall2_In_l {A B} (R : A -> B -> Prop) l l' a :
  Forall2 R l l' -> In a l -> exists b, In b l' /\ R a b.
Proof.
  induction 1 as [|x y l l' Hxy H IH]; simpl; [tauto|].
  intros [->|Hin]; [exists y; auto|].
  destruct (IH Hin) as (b & Hb & Hr). exists b. auto.
Qed.

Lemma Forall2_In_r {A B} (R : A -> B -> Prop) l l' b :
  Forall2 R l l' -> In b l' -> exists a, In a l /\ R a b.
Proof.
  induction 1 as [|x y l l' Hxy H IH]; simpl; [tauto|].
  intros [->|Hin]; [exists x; auto|].
  destruct (IH Hin) as (a & Ha & Hr). exists a. auto.
Qed.

(** X5.  A created request can be acted on at once, and creating it
    disturbs no other request.  When [requestApproval] succeeds with a
    request id that no request row and no step row of the store carries
    yet, the new request has a pending step at its current step order and
    none below it; and every other request that had this property still
    has it. *)
Theorem requestApproval_makes_actionable
    data actorId now reqId stepIds db db' out :
  requestApproval data actorId now reqId stepIds db = (db', Ok out) ->
  findRequestById db reqId = None ->
  (forall s, In s (approvalStep db) -> approval_request_id s <> reqId) ->
  actionable db' reqId
  /\ forall rid, rid <> reqId -> actionable db rid -> actionable db' rid.
Proof.
  intros H Hfresh Hnosteps.
  destruct (requestApproval_Ok _ _ _ _ _ _ H)
    as (req & m0 & ms & EM & -> & Hid & Hst & Hcur & Hmin).
  pose proof (stepInserts_rows db actorId now reqId stepIds 0 (m0 :: ms))
    as Hrows.
  split.
  - intros r Hr _. unfold findRequestById in *. simpl in Hr.
    rewrite find_app_r in Hr by exact Hfresh. simpl in Hr.
    rewrite Hid, String.eqb_refl in Hr. injection Hr as <-. split.
    + apply in_map_iff in Hcur. destruct Hcur as (m & Hm & Hin).
      destruct (@Forall2_In_l _ _ _ _ _ _ Hrows Hin)
        as (s & Hs & Hrq & Ho & _ & Hp & _).
      exists s. simpl. repeat split; auto; [|congruence].
      apply in_or_app. now right.
    + intros k Hk (s & Hin & Hr & Ho & Hp). simpl in Hin.
      apply in_app_or in Hin. destruct Hin as [Hin|Hin].
      * exact (Hnosteps s Hin Hr).
      * destruct (@Forall2_In_r _ _ _ _ _ _ Hrows Hin) as (m & Hm & _ & Ho' & _).
        specialize (Hmin m Hm). lia.
  - intros rid Hne Hinv r Hr Hs.
    assert (Hr' : findRequestById db rid = Some r).
    { unfold findRequestById in *. simpl in Hr.
      destruct (find (fun r0 => String.eqb (req_id r0) rid)
                     (approvalRequest db)) as [r0|] eqn:E.
      - rewrite (find_app_l _ _ _ E) in Hr. exact Hr.
      - rewrite find_app_r in Hr by exact E. simpl in Hr.
        rewrite Hid in Hr. apply String.eqb_neq in Hne.
        rewrite String.eqb_sym, Hne in Hr. discriminate. }
    destruct (Hinv r Hr' Hs) as [Hp Hlow]. split.
    + destruct Hp as (s & Hin & Hps). exists s. simpl.
      split; [apply in_or_app; now left | exact Hps].
    + intros k Hk (s & Hin & Hrq & Ho & Hst'). simpl in Hin.
      apply in_app_or in Hin. destruct Hin as [Hin|Hin].
      * apply (Hlow k Hk). exists s. auto.
      * destruct (@Forall2_In_r _ _ _ _ _ _ Hrows Hin) as (m & _ & Hrq' & _).
        congruence.
Qed.

Lemma requestApproval_makes_actionable_witness :
  actionable Fixture.db_large "req-1"
  /\ forall rid, rid <> "req-1" -> actionable Fixture.db0 rid ->
                 actionable Fixture.db_large rid.
Proof.
  apply (@requestApproval_makes_actionable
           (Fixture.submit "PR" "doc-2" 2000000) "alice" 1000 "req-1"
           Fixture.stepIds Fixture.db0 Fixture.db_large
           {| ro_approvalRequestId := "req-1"; ro_currentStatus := InProgress;
              ro_totalSteps := 2; ro_currentStep := 1 |}).
  - run.
  - reflexivity.
  - intros s [].
Defined.

Lemma count_map_le {A} (P : A -> bool) (g : A -> A) l :
  (forall x, P (g x) = true -> P x = true) ->
  (List.length (filter P (map g l)) <= List.length (filter P l))%nat.
Proof.
  intros Hg. induction l as [|x l IH]; simpl; [lia|].
  destruct (P (g x)) eqn:E.
  - rewrite (Hg x E). simpl. lia.
  - destruct (P x); simpl; lia.
Qed.

Lemma count_map_lt {A} (P : A -> bool) (g : A -> A) l a :
  (forall x, P (g x) = true -> P x = true) ->
  In a l -> P a = true -> P (g a) = false ->
  (List.length (filter P (map g l)) < List.length (filter P l))%nat.
Proof.
  intros Hg. induction l as [|x l IH]; simpl; [tauto|].
  intros [->|Hin] Ha Hga.
  - rewrite Hga, Ha. simpl. pose proof (count_map_le P g l Hg). lia.
  - specialize (IH Hin Ha Hga). destruct (P (g x)) eqn:E.
    + rewrite (Hg x E). simpl. lia.
    + destruct (P x); simpl; lia.
Qed.

(** X6.  Every approval that goes through removes at least one pending
    step: after a successful [approveStep] that was not a repeat, the
    request has strictly fewer pending steps than before, and no request
    has more.  A request with n pending steps is therefore decided after
    at most n such approvals. *)
Theorem approveStep_reduces_pending rid actorId rem now db db' out :
  approveStep rid actorId rem now db = (db', Ok out) ->
  so_note out = None ->
  (pending_count db' rid < pending_count db rid)%nat
  /\ forall rid', (pending_count db' rid' <= pending_count db rid')%nat.
Proof.
  intros H Hn.
  destruct (approveStep_transaction _ _ _ _ _ H Hn)
    as (actor & request & acts & tx & _ & HR & _ & Hacts & Hne & Htx & Hc).
  pose proof (findRequestById_id _ _ HR) as [Hid _].
  rewrite approve_tx_eq in Htx.
  assert (Hsteps : approvalStep db'
                   = map (approve_marked acts rem now actorId)
                         (approvalStep db)).
  { destruct Hc as [(_ & -> & _) | [(_ & n & _ & -> & _) | (_ & _ & -> & _)]];
      subst tx; reflexivity. }
  assert (Hmono : forall rid' s,
             String.eqb (approval_request_id
                           (approve_marked acts rem now actorId s)) rid'
             && StepStatus_eqb
                  (status (approve_marked acts rem now actorId s)) Pending
             = true ->
             String.eqb (approval_request_id s) rid'
             && StepStatus_eqb (status s) Pending = true).
  { intros rid' s. unfold approve_marked.
    destruct (existsb _ acts); simpl; [|auto].
    rewrite andb_false_r. discriminate. }
  unfold pending_count. rewrite Hsteps. split.
  - destruct acts as [|a acts'] eqn:Ea; [congruence|].
    assert (Ha : In a acts) by (rewrite Ea; now left).
    rewrite <- Ea in *.
    assert (Hmark : existsb (fun a0 => String.eqb (step_id a0) (step_id a))
                            acts = true).
    { apply existsb_exists. exists a. split; [exact Ha|].
      apply String.eqb_refl. }
    rewrite Hacts in Ha. apply actableSteps_In in Ha.
    destruct Ha as (Hain & Har & _ & Hap).
    apply (@count_map_lt _ _ _ _ a); auto.
    + rewrite Har, Hid, String.eqb_refl, Hap. reflexivity.
    + unfold approve_marked. rewrite Hmark. simpl. apply andb_false_r.
  - intros rid'. apply count_map_le. apply Hmono.
Qed.

Lemma approveStep_reduces_pending_witness :
  Nat.lt (pending_count (fst (approveStep "req-1" "bob" None 2000
                                          Fixture.db_parallel)) "req-1")
         (pending_count Fixture.db_parallel "req-1")
  /\ forall rid',
      Nat.le (pending_count (fst (approveStep "req-1" "bob" None 2000
                                              Fixture.db_parallel)) rid')
             (pending_count Fixture.db_parallel rid').
Proof.
  apply (@approveStep_reduces_pending "req-1" "bob" None 2000
           Fixture.db_parallel _
           {| so_approvalRequestId := "req-1"; so_currentStatus := InProgress;
              so_currentStep := Some 1; so_note := None |}).
  - run.
  - reflexivity.
Defined.

(** ** Reject and cancel on the small store *)

Lemma rejectStep_cascade_witness :
  exists step,
    In step (approvalStep Fixture.db_large)
    /\ step_order step = 1
    /\ forall n,
        ~ pending_at (fst (rejectStep "req-1" "bob" (Some "no") 2000
                                      Fixture.db_large)) "req-1" n.
Proof.
  destruct (@rejectStep_cascade "req-1" "bob" (Some "no") 2000
              Fixture.db_large
              (fst (rejectStep "req-1" "bob" (Some "no") 2000
                               Fixture.db_large))
              {| so_approvalRequestId := "req-1"; so_currentStatus := RRejected;
                 so_currentStep := None; so_note := None |})
    as (actor & request & step & _ & Hr & _ & Hin & _ & Ho & _ & _ & _ & _
        & Hnone & _).
  - run.
  - exists step. split; [exact Hin|]. split; [|exact Hnone].
    vm_compute in Hr. injection Hr as <-. exact Ho.
Defined.

Lemma cancelApproval_cases_witness :
  exists db',
    cancelApproval "req-1" "alice" 2000 Fixture.db_large
    = (db', Ok {| so_approvalRequestId := "req-1";
                  so_currentStatus := RCancelled;
                  so_currentStep := None; so_note := None |})
    /\ map status (approvalStep db') = [Skipped; Skipped].
Proof.
  let a := eval vm_compute in (findUserById Fixture.db_large "alice") in
  let r := eval vm_compute in (findRequestById Fixture.db_large "req-1") in
  match a with
  | Some ?x =>
      match r with
      | Some ?y =>
          destruct (@cancelApproval_cases "req-1" "alice" 2000
                      Fixture.db_large x y eq_refl eq_refl)
            as (_ & _ & Hok)
      end
  end.
  destruct (Hok eq_refl (or_introl eq_refl)) as (db' & Hc & _ & Hs).
  exists db'. split; [exact Hc|]. rewrite Hs. reflexivity.
Defined.

(** ** Inbox *)

Lemma insertWith_perm {A} (leb : A -> A -> bool) x l :
  Permutation (insertWith leb x l) (x :: l).
Proof.
  induction l as [|y l IH]; simpl; [reflexivity|].
  destruct (leb x y); [reflexivity|].
  rewrite IH. apply perm_swap.
Qed.

Lemma sortWith_In {A} (leb : A -> A -> bool) l x :
  In x (sortWith leb l) <-> In x l.
Proof.
  assert (Hp : Permutation (sortWith leb l) l).
  { induction l as [|y l IH]; simpl; [constructor|].
    rewrite insertWith_perm. now constructor. }
  split; apply Permutation_in; [exact Hp | now symmetry].
Qed.

(** The inbox of a user lists exactly the steps with the asked status
    that are assigned to the user or to the user's role, whose parent
    request is in progress and stands at the step's order. *)
Lemma findInboxSteps_In db userId userRoleId statusFilter s :
  In s (findInboxSteps db userId userRoleId statusFilter) <->
  In s (approvalStep db)
  /\ status s = match statusFilter with Some st => st | None => Pending end
  /\ (approver_user s = Some userId
      \/ opt_id_eqb (role_id s) userRoleId = true)
  /\ exists req,
      findRequestById db (approval_request_id s) = Some req
      /\ current_status req = InProgress
      /\ step_order s = current_step req.
Proof.
  unfold findInboxSteps, approval_requests.
  rewrite filter_In, sortWith_In, filter_In, !andb_true_iff, orb_true_iff,
    StepStatus_eqb_eq, opt_eqb_eq.
  destruct (findRequestById db (approval_request_id s)) as [req|].
  - rewrite RequestStatus_eqb_eq, Z.eqb_eq. split.
    + intros [[Hin [[Hs Ha] Hr]] Ho]. repeat split; auto.
      exists req. auto.
    + intros (Hin & Hs & Ha & req' & [= <-] & Hr & Ho). auto.
  - split.
    + intros [[_ [_ H]] _]. discriminate.
    + intros (_ & _ & _ & req' & H & _). discriminate.
Qed.

(** X9.  What the inbox shows can be approved.  For an active user, every
    step that [findInboxSteps] lists as pending for the user's id and
    role is accepted by [approveStep] on its request, unless the user is
    the requester and not an administrator: the call succeeds, is not a
    repeat, and leaves that step approved with the user as approver. *)
Theorem inbox_step_can_be_approved db userId actor s rem now :
  findUserById db userId = Some actor ->
  In s (findInboxSteps db userId (user_role_id actor) None) ->
  (forall request,
      findRequestById db (approval_request_id s) = Some request ->
      requested_by request = userId -> isAdmin db actor = true) ->
  exists db' out,
    approveStep (approval_request_id s) userId rem now db = (db', Ok out)
    /\ so_note out = None
    /\ In (act_on Approved "approve" rem now userId s) (approvalStep db').
Proof.
  intros HA Hin Hself.
  apply findInboxSteps_In in Hin.
  destruct Hin as (Hin & Hst & Hmatch & req & HR & HS & Ho).
  set (rid := approval_request_id s) in *.
  assert (Hact : actable db actor userId
                   (findDelegationsForInbox db userId now) req s = true).
  { unfold actable. rewrite Ho, Z.eqb_refl, Hst. simpl.
    destruct (isAdmin db actor); [reflexivity|].
    destruct Hmatch as [ -> | -> ]; simpl;
      [rewrite String.eqb_refl|rewrite orb_true_r]; reflexivity. }
  assert (Hs : In s (filter (actable db actor userId
                               (findDelegationsForInbox db userId now) req)
                            (approval_steps db rid))).
  { apply filter_In. split; [|exact Hact].
    apply approval_steps_In. auto. }
  assert (Hguard : String.eqb (requested_by req) userId
                   && negb (isAdmin db actor) = false).
  { destruct (String.eqb (requested_by req) userId) eqn:E; [|reflexivity].
    apply String.eqb_eq in E. now rewrite (Hself req HR E). }
  assert (Hmark : forall acts,
             In s acts ->
             In (act_on Approved "approve" rem now userId s)
                (map (approve_marked acts rem now userId) (approvalStep db))).
  { intros acts Hsa. apply in_map_iff. exists s. split; [|exact Hin].
    unfold approve_marked. replace (existsb _ acts) with true; [reflexivity|].
    symmetry. apply existsb_exists. exists s. split; [exact Hsa|].
    apply String.eqb_refl. }
  unfold approveStep. rewrite HA, HR, HS. simpl. rewrite Hguard.
  destruct (filter (actable db actor userId
                      (findDelegationsForInbox db userId now) req)
                   (approval_steps db rid)) as [|a acts] eqn:EF;
    [destruct Hs|].
  rewrite approve_tx_eq.
  match goal with
  | |- context [match ?sp with [] => _ | _ :: _ => _ end] => destruct sp
  end.
  - destruct (findNextStepOrder db rid (current_step req));
      eexists; eexists; (split; [reflexivity|]); (split; [reflexivity|]);
      simpl; apply Hmark; exact Hs.
  - eexists; eexists; (split; [reflexivity|]); (split; [reflexivity|]);
      simpl; apply Hmark; exact Hs.
Qed.

Lemma inbox_step_can_be_approved_witness :
  Forall (fun s =>
            exists db' out,
              approveStep (approval_request_id s) "carol" None 2000
                          Fixture.db_parallel = (db', Ok out)
              /\ so_note out = None
              /\ In (act_on Approved "approve" None 2000 "carol" s)
                    (approvalStep db'))
         (findInboxSteps Fixture.db_parallel "carol" (Some "r-acc") None).
Proof.
  apply Forall_forall. intros s Hs.
  let a := eval vm_compute in (findUserById Fixture.db_parallel "carol") in
  match a with
  | Some ?x =>
      apply (@inbox_step_can_be_approved Fixture.db_parallel "carol" x s
               None 2000 eq_refl Hs)
  end.
  intros request Hr Hreq. exfalso.
  apply findInboxSteps_In in Hs. destruct Hs as (Hin & _).
  vm_compute in Hin. destruct Hin as [<-|[<-|[]]];
    vm_compute in Hr; injection Hr as <-; discriminate.
Defined.

(** ** Escalation scans *)

(** X10.  The escalation scan never decides anything.  Whatever the
    store, the clock and the storage faults, one run leaves every table
    but the step table as it was, keeps the step rows in place, and
    changes nothing of a step row except its two escalation fields; a
    flag that was set stays set. *)
Theorem runEscalation_only_flags raises now db :
  exists steps',
    fst (runEscalation raises now db) = with_steps db steps'
    /\ Forall2 (fun s s' =>
                  same_but_escalation s s'
                  /\ (escalated s = true -> escalated s' = true))
               (approvalStep db) steps'.
Proof.
  destruct (runEscalation_flags raises now db) as (ss' & Hfst & Hflag).
  exists ss'. split; [exact Hfst|].
  eapply Forall2_impl; [|exact Hflag].
  intros s s' [->|[to ->]]; unfold same_but_escalation; simpl; tauto.
Qed.

Lemma escalation_fold_nothing_due raises now db sel counts :
  (forall s r, In (s, r) sel ->
               forall to, escalation_body raises now db s r <> Escalate to) ->
  exists errors,
    fold_left
      (fun (acc : DB * EscalationCounts)
           (sr : ApprovalStep * ApprovalRequest) =>
         let (d, counts) := acc in
         let (step, request) := sr in
         match escalation_body raises now d step request with
         | Continue => acc
         | Caught =>
             (d, {| escalatedCount := escalatedCount counts;
                    errorCount := errorCount counts + 1 |})
         | Escalate to =>
             (update_step (step_id step) (set_escalated to) d,
              {| escalatedCount := escalatedCount counts + 1;
                 errorCount := errorCount counts |})
         end)
      sel (db, counts)
    = (db, {| escalatedCount := escalatedCount counts;
              errorCount := errors |}).
Proof.
  revert counts. induction sel as [|[a r] sel IH]; intros counts Hno.
  - simpl. exists (errorCount counts). now destruct counts.
  - cbn [fold_left].
    destruct (escalation_body raises now db a r) as [|to|] eqn:Eb.
    + apply IH. intros s r0 Hin. apply Hno. now right.
    + exfalso. apply (Hno a r (or_introl eq_refl) to Eb).
    + destruct (IH {| escalatedCount := escalatedCount counts;
                      errorCount := errorCount counts + 1 |}) as [e He].
      { intros s r0 Hin. apply Hno. now right. }
      exists e. exact He.
Qed.

(** X11.  A scan that ran without storage faults has escalated all that
    was due: on a store with distinct step ids, a second scan at the same
    instant, whatever faults it meets, writes nothing and reports no
    escalation. *)
Theorem runEscalation_second_scan raises now db :
  step_ids_unique db ->
  let db' := fst (runEscalation (fun _ => false) now db) in
  fst (runEscalation raises now db') = db'
  /\ escalatedCount (snd (runEscalation raises now db')) = 0.
Proof.
  intros Hnd. cbv zeta.
  rewrite (runEscalation_steps (fun _ => false) now Hnd).
  set (db' := with_steps db (map (scan_step (fun _ => false) now db)
                                 (approvalStep db))).
  destruct (@escalation_fold_nothing_due raises now db' (activePending db')
              {| escalatedCount := 0; errorCount := 0 |}) as [e He].
  - intros s' r Hsel to Hb. apply activePending_In in Hsel.
    destruct Hsel as (Hin & Hp & He & Hr & Hs). simpl in Hin.
    apply in_map_iff in Hin. destruct Hin as (s & Hscan & Hin).
    change (findRequestById db' (approval_request_id s'))
      with (findRequestById db (approval_request_id s')) in Hr.
    change (escalation_body raises now db' s' r)
      with (escalation_body raises now db s' r) in Hb.
    assert (Hsame : s' = s).
    { rewrite <- Hscan. rewrite <- Hscan in He. unfold scan_step in *.
      destruct (StepStatus_eqb (status s) Pending && negb (escalated s));
        [|reflexivity].
      destruct (findRequestById db (approval_request_id s)) as [r0|];
        [|reflexivity].
      destruct (RequestStatus_eqb (current_status r0) InProgress);
        [|reflexivity].
      destruct (escalation_body (fun _ => false) now db s r0);
        try reflexivity. discriminate. }
    rewrite Hsame in Hscan. clear Hin. subst s'. unfold scan_step in Hscan.
    rewrite Hp, He, Hr, Hs in Hscan. simpl in Hscan.
    unfold escalation_body in Hscan, Hb.
    destruct (created_at r) as [t|]; [|discriminate].
    destruct (raises (step_id s)); [discriminate|].
    destruct (sla_matrix db r s) as [m|]; [|discriminate].
    destruct (escalation_hours m) as [h|]; [|discriminate].
    destruct (h =? 0); [discriminate|].
    destruct (now - t <? h * ms_per_hour); [discriminate|].
    apply (f_equal escalated) in Hscan. simpl in Hscan. congruence.
  - unfold runEscalation. rewrite He. split; reflexivity.
Qed.

Lemma runEscalation_second_scan_witness :
  fst (runEscalation (fun _ => true) 86401000
         (fst (runEscalation (fun _ => false) 86401000 Fixture.db_large)))
  = fst (runEscalation (fun _ => false) 86401000 Fixture.db_large)
  /\ escalatedCount
       (snd (runEscalation (fun _ => true) 86401000
               (fst (runEscalation (fun _ => false) 86401000
                                   Fixture.db_large)))) = 0.
Proof.
  apply (@runEscalation_second_scan (fun _ => true) 86401000 Fixture.db_large).
  distinct_ids.
Defined.

(** ** The idempotency guard across two calls *)

Section IdempotencyRetry.
Variable JSON_stringify : Json -> string.
Variable sha256_hex : string -> string.

Lemma find_key_filtered key ks :
  find (fun k => String.eqb (idem_key k) key)
       (filter (fun k => negb (String.eqb (idem_key k) key)) ks) = None.
Proof.
  induction ks as [|k ks IH]; simpl; [reflexivity|].
  destruct (String.eqb (idem_key k) key) eqn:E; simpl; [exact IH|].
  now rewrite E.
Qed.

(** With no unexpired record for the key, the check passes the call on,
    on a store that holds no record of the key at all. *)
Lemma checkIdempotency_unused key userId_ route requestHash now db :
  match find (fun k => String.eqb (idem_key k) key) (idempotencyKey db) with
  | Some existing => expires_at existing < now
  | None => True
  end ->
  snd (checkIdempotency key userId_ route requestHash now db)
  = {| conflict := false; cached := None |}
  /\ find (fun k => String.eqb (idem_key k) key)
          (idempotencyKey
             (fst (checkIdempotency key userId_ route requestHash now db)))
     = None.
Proof.
  unfold checkIdempotency.
  destruct (find _ (idempotencyKey db)) as [existing|] eqn:E.
  - intros Hexp. apply Z.ltb_lt in Hexp. rewrite Hexp. simpl.
    split; [reflexivity|apply find_key_filtered].
  - intros _. simpl. auto.
Qed.


(** X13.  An error is not remembered.  With no unexpired record for the
    key, a call whose handler answers outside 2xx leaves no record; so a
    second call with the same key, if the handler left the key table
    alone, runs its own handler on the store the first call left and
    gets that handler's response. *)
Theorem idempotent_error_not_kept
    req key next next' now later now' later' db :
  idempotency_key_header req = Some key -> key <> "" ->
  match find (fun k => String.eqb (idem_key k) key) (idempotencyKey db) with
  | Some existing => expires_at existing < now
  | None => True
  end ->
  let seen :=
    fst (checkIdempotency key (req_user req) (originalUrl req)
           (hashBody JSON_stringify sha256_hex (req_body req)) now db) in
  idempotencyKey (fst (next seen)) = idempotencyKey seen ->
  ~ (200 <= res_status (snd (next seen)) < 300) ->
  let first := idempotent JSON_stringify sha256_hex req next now later db in
  first = next seen
  /\ snd (idempotent JSON_stringify sha256_hex req next' now' later'
                     (fst first))
     = snd (next' (fst first)).
Proof.
  intros Hk Hne Hunused seen Htable Hbad. cbv zeta.
  destruct (@checkIdempotency_unused key (req_user req) (originalUrl req)
              (hashBody JSON_stringify sha256_hex (req_body req)) now db
              Hunused) as [Hchk Hnone].
  fold seen in Hnone.
  assert (Hfirst :
    idempotent JSON_stringify sha256_hex req next now later db = next seen).
  { unfold idempotent, truthy. apply String.eqb_neq in Hne.
    rewrite Hk, Hne. simpl.
    destruct (checkIdempotency key (req_user req) (originalUrl req)
                (hashBody JSON_stringify sha256_hex (req_body req)) now db)
      as [d chk] eqn:E.
    simpl in Hchk. subst chk. simpl. unfold seen. simpl.
    unfold capture. destruct (next d) as [d2 res] eqn:En.
    unfold seen in Hbad. simpl in Hbad. rewrite En in Hbad. simpl in Hbad.
    replace ((200 <=? res_status res) && (res_status res <? 300)) with false;
      [reflexivity|].
    symmetry. apply andb_false_iff. rewrite Z.leb_gt, Z.ltb_ge. lia. }
  rewrite Hfirst. split; [reflexivity|].
  unfold idempotent, truthy. apply String.eqb_neq in Hne.
  rewrite Hk, Hne. simpl. unfold checkIdempotency.
  rewrite Htable, Hnone. simpl. unfold capture.
  destruct (next' (fst (next seen))) as [d3 res3].
  destruct ((200 <=? res_status res3) && (res_status res3 <? 300));
    reflexivity.
Qed.

End IdempotencyRetry.


Lemma idempotent_error_not_kept_witness :
  idempotent (fun _ => "{}") (fun s => s) Retry.call Retry.approve_handler
             2000 2001 Trace.db_decided
  = Retry.approve_handler Trace.db_decided
  /\ snd (idempotent (fun _ => "{}") (fun s => s) Retry.call
                     Retry.approve_handler 3000 3001
                     (fst (idempotent (fun _ => "{}") (fun s => s) Retry.call
                                      Retry.approve_handler 2000 2001
                                      Trace.db_decided)))
     = snd (Retry.approve_handler
              (fst (idempotent (fun _ => "{}") (fun s => s) Retry.call
                               Retry.approve_handler 2000 2001
                               Trace.db_decided))).
Proof.
  apply (@idempotent_error_not_kept (fun _ => "{}") (fun s => s) Retry.call
           "k1" Retry.approve_handler Retry.approve_handler 2000 2001 3000
           3001 Trace.db_decided).
  - reflexivity.
  - discriminate.
  - exact I.
  - reflexivity.
  - vm_compute. intros [_ H]. discriminate H.
Defined.


(** A [null] body and an absent body have the same hash, so that a retry
    with one of a call made with the other is a replay, not a conflict. *)
Lemma hashBody_null (JSON_stringify : Json -> string)
    (sha256_hex : string -> string) :
  hashBody JSON_stringify sha256_hex (Some JNull)
  = hashBody JSON_stringify sha256_hex None.
Proof. reflexivity. Qed.


(** ** Delegations *)

Lemma disableDelegation_Ok id db db' d :
  disableDelegation id db = (db', Ok d) ->
  db' = with_delegations db
          (map (fun d0 => if String.eqb (dlg_id d0) id then disabled_row d0
                          else d0)
               (approvalDelegation db)).
Proof.
  unfold disableDelegation.
  destruct (find _ (approvalDelegation db)) as [d0|]; [|discriminate].
  destruct (negb (dlg_is_active d0)); [discriminate|].
  intros E. apply (f_equal fst) in E. cbn [fst] in E. subst db'. reflexivity.
Qed.

Lemma disableDelegation_store id db :
  fst (disableDelegation id db) = db
  \/ fst (disableDelegation id db)
     = with_delegations db
         (map (fun d0 => if String.eqb (dlg_id d0) id then disabled_row d0
                         else d0)
              (approvalDelegation db)).
Proof.
  destruct (disableDelegation id db) as [db' [d|code]] eqn:E.
  - right. simpl. exact (@disableDelegation_Ok _ _ _ _ E).
  - left. revert E. unfold disableDelegation.
    destruct (find _ (approvalDelegation db)) as [d0|]; [|now intros [= <- _]].
    destruct (negb (dlg_is_active d0)); [now intros [= <- _]|discriminate].
Qed.

(** X14.  A successful [disableDelegation] revokes the delegation: from
    then on no approver lookup, at any instant and for any user, finds a
    delegation with that id; no user's inbox gains a grantor; and
    disabling the same id again is refused with 409, leaving the store as
    it is. *)
Theorem disableDelegation_revokes id db db' d :
  disableDelegation id db = (db', Ok d) ->
  (forall user now d',
      findPendingDelegation db' user now = Some d' -> dlg_id d' <> id)
  /\ (forall user now,
        incl (findDelegationsForInbox db' user now)
             (findDelegationsForInbox db user now))
  /\ disableDelegation id db' = (db', AppError 409).
Proof.
  intros Hok. pose proof (@disableDelegation_Ok _ _ _ _ Hok) as ->.
  split; [|split].
  - intros user now d' Hf. unfold findPendingDelegation in Hf.
    apply find_some in Hf. destruct Hf as [Hin Hact]. cbv beta in Hact.
    apply andb_true_iff in Hact. destruct Hact as [_ Hact].
    unfold delegation_active_at in Hact.
    apply andb_true_iff in Hact. destruct Hact as [Hact _].
    apply andb_true_iff in Hact. destruct Hact as [Hact _].
    simpl in Hin. apply in_map_iff in Hin. destruct Hin as (d0 & <- & _).
    destruct (String.eqb (dlg_id d0) id) eqn:E; [discriminate|].
    now apply String.eqb_neq.
  - intros user now f Hin. unfold findDelegationsForInbox in *.
    apply in_map_iff in Hin. destruct Hin as (d' & <- & Hin).
    apply filter_In in Hin. destruct Hin as [Hin Hact].
    simpl in Hin. apply in_map_iff in Hin. destruct Hin as (d0 & <- & Hin0).
    destruct (String.eqb (dlg_id d0) id).
    + unfold delegation_active_at in Hact. simpl in Hact.
      rewrite andb_false_r in Hact. discriminate.
    + apply in_map. apply filter_In. now split.
  - revert Hok. unfold disableDelegation.
    destruct (find _ (approvalDelegation db)) as [d0|] eqn:Ef; [|discriminate].
    intros _. apply find_some in Ef. destruct Ef as [Hin Hid].
    cbn [approvalDelegation with_delegations].
    assert (Hfind : forall ds,
      In d0 ds ->
      exists d1,
        find (fun d2 => String.eqb (dlg_id d2) id)
             (map (fun d2 => if String.eqb (dlg_id d2) id then disabled_row d2
                             else d2) ds) = Some d1
        /\ dlg_is_active d1 = false).
    { induction ds as [|a ds IH]; [intros []|]. intros Ha. simpl.
      destruct (String.eqb (dlg_id a) id) eqn:Ea.
      - simpl. rewrite Ea. eexists. split; [reflexivity|reflexivity].
      - rewrite Ea. destruct Ha as [->|Ha]; [congruence|]. now apply IH. }
    destruct (Hfind _ Hin) as (d1 & -> & ->). reflexivity.
Qed.

Lemma disableDelegation_revokes_witness :
  disableDelegation "d1" (fst (disableDelegation "d1" Scenario.db_delegated))
  = (fst (disableDelegation "d1" Scenario.db_delegated), AppError 409)
  /\ findDelegationsForInbox
       (fst (disableDelegation "d1" Scenario.db_delegated)) "carol" 2000
     = [].
Proof.
  destruct (@disableDelegation_revokes "d1" Scenario.db_delegated
              (fst (disableDelegation "d1" Scenario.db_delegated))
              {| dlg_id := "d1"; from_user := "bob"; to_user := "carol";
                 start_date := 0; end_date := 10000;
                 dlg_is_active := false |})
    as (_ & _ & Hagain).
  - run.
  - split; [exact Hagain|run].
Defined.

Lemma createDelegation_store data now newId db :
  fst (createDelegation data now newId db) = db
  \/ exists d, snd (createDelegation data now newId db) = Ok d.
Proof.
  unfold createDelegation.
  destruct (String.eqb _ _); [now left|].
  destruct (findUserById db _); [|now left].
  destruct (findUserById db _); [|now left].
  destruct (find _ _); [now left|].
  destruct (find _ _); [now left|].
  right. eexists. reflexivity.
Qed.

Lemma rejectStep_delegations rid actorId rem now db :
  approvalDelegation (fst (rejectStep rid actorId rem now db))
  = approvalDelegation db.
Proof.
  unfold rejectStep.
  destruct (findUserById db actorId); [|reflexivity].
  destruct (findRequestById db rid); [|reflexivity].
  destruct (negb _); [reflexivity|]. cbv zeta.
  destruct (find _ _); reflexivity.
Qed.

Lemma cancelApproval_delegations rid actorId now db :
  approvalDelegation (fst (cancelApproval rid actorId now db))
  = approvalDelegation db.
Proof.
  unfold cancelApproval.
  destruct (findUserById db actorId); [|reflexivity].
  destruct (findRequestById db rid); [|reflexivity].
  destruct (negb _); [reflexivity|]. cbv zeta.
  destruct (_ && _); reflexivity.
Qed.

Lemma requestApproval_delegations data actorId now reqId stepIds db :
  approvalDelegation (fst (requestApproval data actorId now reqId stepIds db))
  = approvalDelegation db.
Proof.
  unfold requestApproval.
  destruct (findActiveRequest db _ _); [reflexivity|].
  destruct (findMatrices db _ _ _ _); reflexivity.
Qed.

Lemma perform_delegations c db :
  match c with
  | CallCreateDelegation _ _ _ | CallDisableDelegation _ => True
  | _ => approvalDelegation (perform c db) = approvalDelegation db
  end.
Proof.
  destruct c; simpl; auto.
  - apply requestApproval_delegations.
  - destruct (approveStep_store approvalRequestId actorId remarks_ now db)
      as [->|(request & f & ss & _ & _ & _ & ->)]; reflexivity.
  - apply rejectStep_delegations.
  - apply cancelApproval_delegations.
  - destruct (runEscalation_flags raises now db) as (ss' & -> & _).
    reflexivity.
Qed.

Lemma disabled_keeps_no_overlap id ds :
  no_overlap ds ->
  no_overlap (map (fun d0 => if String.eqb (dlg_id d0) id then disabled_row d0
                             else d0) ds).
Proof.
  apply ForallOrdPairs_map. intros a b HR.
  destruct (String.eqb (dlg_id a) id); [simpl; discriminate|].
  destruct (String.eqb (dlg_id b) id); [simpl; intros; discriminate|].
  exact HR.
Qed.

Lemma disabled_keeps_no_two_cycle T id ds :
  no_two_cycle T ds ->
  no_two_cycle T (map (fun d0 => if String.eqb (dlg_id d0) id
                                 then disabled_row d0 else d0) ds).
Proof.
  intros Hinv d1 d2 H1 H2.
  apply in_map_iff in H1, H2.
  destruct H1 as (a & <- & Ha), H2 as (b & <- & Hb).
  destruct (String.eqb (dlg_id a) id); [simpl; discriminate|].
  destruct (String.eqb (dlg_id b) id); [simpl; intros; discriminate|].
  now apply Hinv.
Qed.

Lemma created_keeps_no_overlap data now newId db d :
  snd (createDelegation data now newId db) = Ok d ->
  no_overlap (approvalDelegation db) ->
  no_overlap (approvalDelegation (fst (createDelegation data now newId db))).
Proof.
  intros Hok Hinv.
  destruct (createDelegation_Ok _ _ _ _ Hok) as (_ & _ & Hover & Hd & ->).
  simpl. apply ForallOrdPairs_snoc; [exact Hinv|].
  apply Forall_forall. intros d0 Hin. subst d. simpl.
  intros Hf Ha _ t [Hw1 Hw2].
  apply (Hover d0 Hin Hf Ha). unfold in_window in *. simpl in *. lia.
Qed.

Lemma created_keeps_no_two_cycle T data now newId db d :
  now <= T ->
  snd (createDelegation data now newId db) = Ok d ->
  no_two_cycle T (approvalDelegation db) ->
  no_two_cycle T (approvalDelegation
                    (fst (createDelegation data now newId db))).
Proof.
  intros HT Hok Hinv.
  destruct (createDelegation_Ok _ _ _ _ Hok) as (Hne & Hback & _ & Hd & ->).
  subst d. simpl.
  intros d1 d2 H1 H2 Hft Htf Ha1 Ha2 t Ht [Hw1 Hw2].
  apply in_app_or in H1, H2.
  destruct H1 as [H1|[<-|[]]], H2 as [H2|[<-|[]]]; simpl in *.
  - exact (Hinv d1 d2 H1 H2 Hft Htf Ha1 Ha2 t Ht (conj Hw1 Hw2)).
  - pose proof (Hback d1 H1 Hft Htf Ha1). unfold in_window in *. lia.
  - pose proof (Hback d2 H2 (eq_sym Htf) (eq_sym Hft) Ha2).
    unfold in_window in *. lia.
  - congruence.
Qed.

(** X15.  Whatever calls are made on the engine, in whatever order, a
    delegation table in which no grantor has two active delegations
    sharing an instant stays so: creation refuses an overlapping period,
    disabling only switches rows off, and no other call writes the
    table. *)
Theorem delegations_never_overlap calls db :
  no_overlap (approvalDelegation db) ->
  no_overlap (approvalDelegation (perform_all calls db)).
Proof.
  revert db. induction calls as [|c calls IH]; intros db Hinv; [exact Hinv|].
  unfold perform_all. simpl. apply IH.
  pose proof (perform_delegations c db) as Hframe.
  destruct c; try (rewrite Hframe; exact Hinv); simpl.
  - destruct (createDelegation_store data now newId db) as [->|[d Hok]];
      [exact Hinv|].
    exact (created_keeps_no_overlap _ _ _ _ Hok Hinv).
  - destruct (disableDelegation_store id db) as [->| ->]; [exact Hinv|].
    simpl. now apply disabled_keeps_no_overlap.
Qed.

Lemma delegations_never_overlap_witness :
  no_overlap (approvalDelegation (perform_all Deleg.calls Fixture.db_small)).
Proof.
  apply delegations_never_overlap. vm_compute. constructor.
Defined.

(** X16.  When every delegation is created at a clock reading of at most
    [T], a table that has no two active delegations in opposite
    directions between two users overlapping at an instant from [T] on
    stays so under any sequence of calls. *)
Theorem delegations_never_cycle T calls db :
  Forall (before T) calls ->
  no_two_cycle T (approvalDelegation db) ->
  no_two_cycle T (approvalDelegation (perform_all calls db)).
Proof.
  intros Hcalls. revert db.
  induction Hcalls as [|c calls Hc _ IH]; intros db Hinv; [exact Hinv|].
  unfold perform_all. simpl. apply IH.
  pose proof (perform_delegations c db) as Hframe.
  destruct c; try (rewrite Hframe; exact Hinv); simpl.
  - destruct (createDelegation_store data now newId db) as [->|[d Hok]];
      [exact Hinv|].
    exact (@created_keeps_no_two_cycle T data now newId db d Hc Hok Hinv).
  - destruct (disableDelegation_store id db) as [->| ->]; [exact Hinv|].
    simpl. now apply disabled_keeps_no_two_cycle.
Qed.

Lemma delegations_never_cycle_witness :
  Forall (before 2000) Deleg.calls
  /\ no_two_cycle 2000
       (approvalDelegation (perform_all Deleg.calls Fixture.db_small)).
Proof.
  assert (Hcalls : Forall (before 2000) Deleg.calls).
  { repeat constructor; simpl; lia. }
  split; [exact Hcalls|].
  apply (@delegations_never_cycle _ _ _ Hcalls).
  intros d1 d2 H1. vm_compute in H1. destruct H1.
Defined.


(** ** Who a new step is assigned to *)

Lemma resolve_candidates_self db requestedBy now cands r :
  resolve_candidates db requestedBy now cands = Some r ->
  userId r = requestedBy ->
  exists c, In c cands /\ user_id c = requestedBy
            /\ role_code_is db c "super_admin" = true.
Proof.
  intros H Hself. apply resolve_candidates_Some in H.
  destruct H as (pre & c & post & -> & _ & [Hs Hres]).
  destruct Hres as [(d & _ & Hne & ->)|[_ ->]]; simpl in Hself.
  - contradiction.
  - exists c. split; [apply in_or_app; right; now left|].
    split; [exact Hself|]. now apply role_code_is_holds, Hs.
Qed.

Lemma stepInserts_not_self db actorId now reqId stepIds n matrices :
  Forall (not_self_approved db actorId)
         (stepInserts db actorId now reqId stepIds n matrices).
Proof.
  revert n. induction matrices as [|m ms IH]; intros n; simpl;
    constructor; [|apply IH].
  unfold not_self_approved. cbn [approver_user].
  unfold resolveApprover.
  destruct (mx_role_id m) as [rid|]; [|discriminate].
  destruct (String.eqb rid ""); [discriminate|].
  destruct (resolve_candidates db actorId now (findUsersByRole db rid))
    as [r|] eqn:ER; [|discriminate].
  simpl. unfold or_null. destruct (truthy (Some (userId r))); [|discriminate].
  intros [= Hself].
  destruct (@resolve_candidates_self db actorId now _ r ER Hself)
    as (c & Hin & Hc & Hsa).
  apply findUsersByRole_In in Hin. destruct Hin as (Hin & _ & Hact & Hdel).
  exists c. auto.
Qed.

(** X17.  Separation of duties at submission: of the step rows a
    successful [requestApproval] adds, none names the requester as its
    approver, unless the requester is an active, non-deleted holder of
    the [super_admin] role. *)
Theorem requestApproval_never_self_assigned data actorId now reqId stepIds
    db db' out :
  requestApproval data actorId now reqId stepIds db = (db', Ok out) ->
  exists new_steps,
    approvalStep db' = approvalStep db ++ new_steps
    /\ Forall (not_self_approved db actorId) new_steps.
Proof.
  intros Hok.
  destruct (@requestApproval_Ok data actorId now reqId stepIds db db' out Hok)
    as (req & m0 & ms & _ & -> & _).
  eexists. split; [reflexivity|]. apply stepInserts_not_self.
Qed.

Lemma requestApproval_never_self_assigned_witness :
  exists new_steps,
    approvalStep
      (fst (requestApproval (Fixture.submit "PR" "doc-9" 50000) "bob" 1000
                            "req-9" Fixture.stepIds Fixture.db0))
    = approvalStep Fixture.db0 ++ new_steps
    /\ map approver_user new_steps = [Some "erin"].
Proof.
  let o := eval vm_compute in
    (snd (requestApproval (Fixture.submit "PR" "doc-9" 50000) "bob" 1000
                          "req-9" Fixture.stepIds Fixture.db0)) in
  match o with
  | Ok ?x =>
      destruct (@requestApproval_never_self_assigned
                  (Fixture.submit "PR" "doc-9" 50000) "bob" 1000 "req-9"
                  Fixture.stepIds Fixture.db0
                  (fst (requestApproval (Fixture.submit "PR" "doc-9" 50000)
                                        "bob" 1000 "req-9" Fixture.stepIds
                                        Fixture.db0)) x)
        as (new_steps & Hsteps & _)
  end.
  - run.
  - exists new_steps. split; [exact Hsteps|].
    vm_compute in Hsteps. rewrite <- Hsteps. reflexivity.
Defined.

(** ** Who a step is escalated to *)

Lemma resolveEscalationTarget_active db approverUserId u :
  resolveEscalationTarget db approverUserId = Some u ->
  exists usr, In usr (users db) /\ user_id usr = u
              /\ user_is_active usr = true /\ deleted_at usr = None.
Proof.
  unfold resolveEscalationTarget.
  destruct (active_manager db approverUserId) as [m|] eqn:Em.
  - intros [= <-]. apply active_manager_Some in Em.
    destruct Em as (a & approver & manager & _ & _ & _ & _ & _ & Hin & Hid
                    & Hact & Hdel & _).
    exists manager. auto.
  - intros Eu. apply first_super_admin_Some in Eu.
    destruct Eu as (r & admin & _ & _ & _ & Hin & Hid & _ & Hact & Hdel & _).
    exists admin. auto.
Qed.

Lemma escalation_body_Escalate raises now db step request to :
  escalation_body raises now db step request = Escalate to ->
  to = resolveEscalationTarget db (approver_user step).
Proof.
  unfold escalation_body.
  destruct (created_at request); [|discriminate].
  destruct (raises (step_id step)); [discriminate|].
  destruct (sla_matrix db request step) as [matrix|]; [|discriminate].
  destruct (escalation_hours matrix) as [hours|]; [|discriminate].
  destruct (hours =? 0); [discriminate|]. cbv zeta.
  destruct (_ <? _); [discriminate|].
  intros [= <-]. apply resolveEscalationTarget_or_null.
Qed.

(** X18.  On a store with distinct step ids, whatever the scan writes on
    a step is a flag with no target or a flag whose target is a user of
    the store that is active and not deleted: the worker never escalates
    to a deactivated or deleted user. *)
Theorem runEscalation_target_is_active raises now db :
  step_ids_unique db ->
  Forall2 (escalated_to_active db)
          (approvalStep db)
          (approvalStep (fst (runEscalation raises now db))).
Proof.
  intros Hnd. rewrite (@runEscalation_steps raises now db Hnd). simpl.
  induction (approvalStep db) as [|s ss IH]; simpl; constructor; [|exact IH].
  unfold scan_step, escalated_to_active.
  destruct (_ && _); [|now left].
  destruct (findRequestById db (approval_request_id s)) as [r|]; [|now left].
  destruct (RequestStatus_eqb (current_status r) InProgress); [|now left].
  destruct (escalation_body raises now db s r) as [|to|] eqn:E;
    [now left| |now left].
  apply escalation_body_Escalate in E. subst to.
  destruct (resolveEscalationTarget db (approver_user s)) as [u|] eqn:Et;
    [|now right; left].
  apply resolveEscalationTarget_active in Et.
  destruct Et as (usr & Hin & <- & Hact & Hdel).
  right; right. exists usr. auto.
Qed.

Lemma runEscalation_target_is_active_witness :
  Forall2 (escalated_to_active Fixture.db_large)
          (approvalStep Fixture.db_large)
          (approvalStep
             (fst (runEscalation (fun _ => false) 86401000 Fixture.db_large))).
Proof.
  apply runEscalation_target_is_active. distinct_ids.
Defined.


(** ** Roles and permissions *)

Lemma existsb_eqb_In (x : string) l :
  existsb (String.eqb x) l = true <-> In x l.
Proof.
  rewrite existsb_exists. split.
  - intros (y & Hin & E). apply String.eqb_eq in E. now subst.
  - intros Hin. exists x. split; [exact Hin|apply String.eqb_refl].
Qed.

Lemma assignPermissions_Ok roleId codes st st' o :
  assignPermissions roleId codes st = (st', Ok o) ->
  role_findFirst st roleId <> None
  /\ (forall c, In c codes -> In c (map perm_code (permissions_in st codes)))
  /\ st' = with_rolePermission st
             (rbac_rolePermission st ++ newAssignments st roleId codes)
  /\ o = {| added := Z.of_nat (List.length (newAssignments st roleId codes));
            skipped := Z.of_nat (List.length (permissions_in st codes))
                       - Z.of_nat (List.length
                                     (newAssignments st roleId codes));
            total := Z.of_nat (List.length (permissions_in st codes)) |}.
Proof.
  unfold assignPermissions.
  destruct (role_findFirst st roleId); [|discriminate]. cbv zeta.
  destruct (filter _ codes) as [|c0 rest] eqn:Em; [|discriminate].
  simpl. intros [= <- <-]. split; [discriminate|].
  split; [|split; reflexivity].
  intros c Hin. apply existsb_eqb_In.
  destruct (existsb (String.eqb c) (map perm_code (permissions_in st codes)))
    eqn:E; [reflexivity|].
  assert (Hc : In c []); [|destruct Hc].
  rewrite <- Em. apply filter_In. split; [exact Hin|]. now rewrite E.
Qed.

Lemma assignPermissions_error roleId codes st code :
  snd (assignPermissions roleId codes st) = AppError code ->
  fst (assignPermissions roleId codes st) = st.
Proof.
  unfold assignPermissions.
  destruct (role_findFirst st roleId); [|reflexivity]. cbv zeta.
  destruct (0 <? _)%nat; [reflexivity|discriminate].
Qed.

Lemma newAssignments_In st roleId codes rp :
  In rp (newAssignments st roleId codes) <->
  exists p, In p (permissions_in st codes)
            /\ rp = {| rp_role_id := roleId; rp_permission_id := perm_id p |}
            /\ ~ In rp (rbac_rolePermission st).
Proof.
  unfold newAssignments. cbv zeta. rewrite in_map_iff.
  assert (Hex : forall p,
    existsb (String.eqb (perm_id p))
            (map rp_permission_id
                 (filter (fun e => String.eqb (rp_role_id e) roleId)
                         (rbac_rolePermission st))) = true
    <-> In {| rp_role_id := roleId; rp_permission_id := perm_id p |}
           (rbac_rolePermission st)).
  { intros p. rewrite existsb_eqb_In, in_map_iff. split.
    - intros (e & He & Hin). apply filter_In in Hin.
      destruct Hin as [Hin Hr]. apply String.eqb_eq in Hr.
      destruct e as [r i]. simpl in *. now subst.
    - intros Hin. eexists. split; [|apply filter_In; split; [exact Hin|]].
      + reflexivity.
      + apply String.eqb_refl. }
  split.
  - intros (p & <- & Hin). apply filter_In in Hin. destruct Hin as [Hin Hn].
    exists p. split; [exact Hin|]. split; [reflexivity|].
    rewrite <- Hex. destruct (existsb _ _); [discriminate|congruence].
  - intros (p & Hin & -> & Hn). exists p. split; [reflexivity|].
    apply filter_In. split; [exact Hin|].
    rewrite <- Hex in Hn. destruct (existsb _ _); [now elim Hn|reflexivity].
Qed.

(** X20.  [assignPermissions] is all or nothing.  When it succeeds, every
    requested code names a permission of the catalogue that the role
    holds afterwards, and nothing but the assignment table has changed;
    when it fails the store is as it was; and one requested code that
    names no permission makes the call fail with 400 for any role that
    exists. *)
Theorem assignPermissions_all_or_nothing roleId codes st :
  let out := assignPermissions roleId codes st in
  (forall o, snd out = Ok o ->
     rbac_role (fst out) = rbac_role st
     /\ rbac_user (fst out) = rbac_user st
     /\ rbac_permission (fst out) = rbac_permission st
     /\ forall c, In c codes ->
          exists p, In p (rbac_permission st) /\ perm_code p = c
                    /\ In {| rp_role_id := roleId;
                             rp_permission_id := perm_id p |}
                          (rbac_rolePermission (fst out)))
  /\ (forall code, snd out = AppError code -> fst out = st)
  /\ ((exists c, In c codes
                 /\ forall p, In p (rbac_permission st) -> perm_code p <> c) ->
      role_findFirst st roleId <> None ->
      out = (st, AppError 400)).
Proof.
  cbv zeta. split; [|split].
  - intros o Hok.
    destruct (assignPermissions roleId codes st) as [st' r] eqn:E.
    simpl in Hok. subst r.
    destruct (assignPermissions_Ok _ _ _ E) as (_ & Hall & -> & _).
    simpl. do 3 (split; [reflexivity|]).
    intros c Hin. apply Hall in Hin. apply in_map_iff in Hin.
    destruct Hin as (p & Hc & Hp). exists p.
    split; [apply (proj1 (filter_In _ _ _) Hp)|]. split; [exact Hc|].
    apply in_or_app.
    destruct (in_dec
                (fun a b : RolePermission =>
                   ltac:(decide equality; apply string_dec) : {a = b} + {a <> b})
                {| rp_role_id := roleId; rp_permission_id := perm_id p |}
                (rbac_rolePermission st)) as [Hold|Hnew]; [now left|right].
    apply newAssignments_In. now exists p.
  - intros code. apply assignPermissions_error.
  - intros (c & Hin & Hnone) Hrole. unfold assignPermissions.
    destruct (role_findFirst st roleId); [|congruence]. cbv zeta.
    destruct (filter _ codes) as [|c0 rest] eqn:Em; [|reflexivity].
    exfalso. assert (Hc : In c []); [|destruct Hc].
    rewrite <- Em. apply filter_In. split; [exact Hin|].
    destruct (existsb (String.eqb c) (map perm_code (permissions_in st codes)))
      eqn:E; [|reflexivity].
    apply existsb_eqb_In, in_map_iff in E. destruct E as (p & Hc & Hp).
    apply filter_In in Hp. destruct Hp as [Hp _].
    elim (Hnone p Hp Hc).
Qed.

(** X21.  [assignPermissions] is idempotent: repeating a successful call
    changes nothing and reports every found permission as skipped. *)
Theorem assignPermissions_again roleId codes st st' o :
  assignPermissions roleId codes st = (st', Ok o) ->
  assignPermissions roleId codes st'
  = (st', Ok {| added := 0; skipped := total o; total := total o |}).
Proof.
  intros Hok.
  destruct (assignPermissions_Ok _ _ _ Hok) as (Hrole & Hall & -> & ->).
  assert (Hnone : newAssignments
                    (with_rolePermission st
                       (rbac_rolePermission st
                        ++ newAssignments st roleId codes)) roleId codes
                  = []).
  { destruct (newAssignments (with_rolePermission st _) roleId codes)
      as [|rp rest] eqn:E; [reflexivity|].
    assert (Hin : In rp (rp :: rest)) by now left.
    rewrite <- E in Hin. apply newAssignments_In in Hin.
    destruct Hin as (p & Hp & -> & Hn). exfalso. apply Hn. simpl.
    apply in_or_app.
    destruct (in_dec
                (fun a b : RolePermission =>
                   ltac:(decide equality; apply string_dec) : {a = b} + {a <> b})
                {| rp_role_id := roleId; rp_permission_id := perm_id p |}
                (rbac_rolePermission st)) as [Hold|Hnew]; [now left|right].
    apply newAssignments_In. now exists p. }
  unfold assignPermissions.
  change (role_findFirst (with_rolePermission st _) roleId)
    with (role_findFirst st roleId).
  destruct (role_findFirst st roleId); [|congruence]. cbv zeta.
  change (permissions_in (with_rolePermission st _) codes)
    with (permissions_in st codes).
  destruct (filter _ codes) as [|c0 rest] eqn:Em.
  - simpl List.length at 1. cbn [Nat.ltb Nat.leb]. rewrite Hnone.
    cbn [total List.length Z.of_nat]. rewrite app_nil_r, Z.sub_0_r.
    reflexivity.
  - exfalso. assert (Hc : In c0 (c0 :: rest)) by now left.
    rewrite <- Em in Hc. apply filter_In in Hc. destruct Hc as [Hin Hn].
    apply Hall, existsb_eqb_In in Hin. rewrite Hin in Hn. discriminate.
Qed.

Lemma assignPermissions_again_witness :
  assignPermissions "r-pm" Rbac.codes
                    (fst (assignPermissions "r-pm" Rbac.codes Rbac.st0))
  = (fst (assignPermissions "r-pm" Rbac.codes Rbac.st0),
     Ok {| added := 0; skipped := 2; total := 2 |}).
Proof.
  apply (@assignPermissions_again "r-pm" Rbac.codes Rbac.st0
           (fst (assignPermissions "r-pm" Rbac.codes Rbac.st0))
           {| added := 1; skipped := 1; total := 2 |}).
  run.
Defined.

Lemma NoDup_map_inj_on {A B} (f : A -> B) l :
  (forall a b, In a l -> In b l -> f a = f b -> a = b) ->
  NoDup l -> NoDup (map f l).
Proof.
  intros Hinj Hnd. induction Hnd as [|a l Hnotin Hnd IH]; simpl;
    constructor.
  - intros Hin. apply in_map_iff in Hin. destruct Hin as (b & E & Hb).
    apply Hnotin. rewrite (Hinj a b); auto; [now left|now right].
  - apply IH. intros x y Hx Hy. apply Hinj; now right.
Qed.

Lemma NoDup_app_intro {A} (l l' : list A) :
  NoDup l -> NoDup l' -> (forall x, In x l' -> ~ In x l) -> NoDup (l ++ l').
Proof.
  intros Hl Hl' Hdis. induction Hl as [|a l Hnotin Hl IH]; [exact Hl'|].
  simpl. constructor.
  - intros Hin. apply in_app_or in Hin. destruct Hin as [Hin|Hin].
    + contradiction.
    + apply (Hdis a Hin). now left.
  - apply IH. intros x Hx Hin. apply (Hdis x Hx). now right.
Qed.

(** X22.  When permission ids are distinct and the assignment table has
    no duplicate row, a successful [assignPermissions] leaves it without
    duplicates, adds exactly [added] rows, and [added + skipped = total]
    with neither count negative. *)
Theorem assignPermissions_no_duplicates roleId codes st st' o :
  NoDup (map perm_id (rbac_permission st)) ->
  NoDup (rbac_rolePermission st) ->
  assignPermissions roleId codes st = (st', Ok o) ->
  NoDup (rbac_rolePermission st')
  /\ Z.of_nat (List.length (rbac_rolePermission st'))
     = Z.of_nat (List.length (rbac_rolePermission st)) + added o
  /\ added o + skipped o = total o
  /\ 0 <= added o /\ 0 <= skipped o.
Proof.
  intros Hids Hrows Hok.
  destruct (assignPermissions_Ok _ _ _ Hok) as (_ & _ & -> & ->).
  cbn [rbac_rolePermission with_rolePermission added skipped total].
  split; [|split; [|split; [|split]]].
  - apply NoDup_app_intro; [exact Hrows| |].
    + unfold newAssignments. cbv zeta. apply NoDup_map_inj_on.
      * intros a b Ha Hb [= E].
        apply filter_In in Ha, Hb. destruct Ha as [Ha _], Hb as [Hb _].
        apply filter_In in Ha, Hb. destruct Ha as [Ha _], Hb as [Hb _].
        revert Hids Ha Hb E. generalize (rbac_permission st).
        induction l as [|x l IH]; [intros _ []|].
        simpl. intros Hnd Ha Hb E. inversion Hnd as [|? ? Hx Hl]; subst.
        destruct Ha as [->|Ha], Hb as [->|Hb]; auto.
        -- exfalso. apply Hx. rewrite E. now apply in_map.
        -- exfalso. apply Hx. rewrite <- E. now apply in_map.
      * apply NoDup_filter. apply NoDup_filter.
        apply (NoDup_map_inv perm_id). exact Hids.
    + intros rp Hin. apply newAssignments_In in Hin.
      destruct Hin as (p & _ & _ & Hn). exact Hn.
  - rewrite length_app. lia.
  - lia.
  - lia.
  - unfold newAssignments. cbv zeta. rewrite length_map.
    pose proof (filter_length_le
                  (fun p => negb (existsb (String.eqb (perm_id p))
                     (map rp_permission_id
                        (filter (fun e => String.eqb (rp_role_id e) roleId)
                                (rbac_rolePermission st)))))
                  (permissions_in st codes)).
    lia.
Qed.

Lemma assignPermissions_no_duplicates_witness :
  NoDup (rbac_rolePermission
           (fst (assignPermissions "r-pm" Rbac.codes Rbac.st0)))
  /\ Z.of_nat (List.length
                 (rbac_rolePermission
                    (fst (assignPermissions "r-pm" Rbac.codes Rbac.st0))))
     = Z.of_nat (List.length (rbac_rolePermission Rbac.st0)) + 1.
Proof.
  destruct (@assignPermissions_no_duplicates "r-pm" Rbac.codes Rbac.st0
              (fst (assignPermissions "r-pm" Rbac.codes Rbac.st0))
              {| added := 1; skipped := 1; total := 2 |})
    as (Hnd & Hlen & _).
  - vm_compute. repeat (constructor; [simpl; intuition discriminate|]).
    constructor.
  - vm_compute. repeat (constructor; [simpl; intuition discriminate|]).
    constructor.
  - run.
  - split; [exact Hnd|exact Hlen].
Defined.

Lemma role_findFirst_deleted st id now later :
  find (fun r => String.eqb (rr_id r) id && is_null (rr_deleted_at r))
       (map (fun r =>
               if String.eqb (rr_id r) id
               then {| rr_id := rr_id r; rr_name := rr_name r;
                       rr_code := rr_code r;
                       rr_is_system_role := rr_is_system_role r;
                       rr_is_active := false;
                       rr_deleted_at := Some now;
                       rr_updated_at := Some later |}
               else r)
            (rbac_role st)) = None.
Proof.
  induction (rbac_role st) as [|r rs IH]; [reflexivity|]. simpl.
  destruct (String.eqb (rr_id r) id) eqn:E; simpl; rewrite E; simpl;
    exact IH.
Qed.

(** X23.  [deleteRole] only retires a role nobody uses.  When it
    succeeds, the role it found was not a system role, and no active,
    non-deleted user holds it, so that the approver resolver of any store
    with these users finds no candidate for it; afterwards the role is
    gone for the service: reading it, deleting it again and assigning
    permissions to it all answer 404; users and assignments are kept. *)
Theorem deleteRole_only_unused id now later st st' :
  deleteRole id now later st = (st', Ok tt) ->
  (exists role, role_findFirst st id = Some role
                /\ rr_is_system_role role = false)
  /\ (forall db requestedBy t,
        users db = rbac_user st ->
        findUsersByRole db id = []
        /\ resolveApprover db (Some id) requestedBy t = None)
  /\ getRoleById id st' = AppError 404
  /\ (forall now' later', deleteRole id now' later' st' = (st', AppError 404))
  /\ (forall codes, assignPermissions id codes st' = (st', AppError 404))
  /\ rbac_user st' = rbac_user st
  /\ rbac_rolePermission st' = rbac_rolePermission st.
Proof.
  unfold deleteRole.
  destruct (role_findFirst st id) as [role|] eqn:Er; [|discriminate].
  destruct (rr_is_system_role role) eqn:Es; [discriminate|]. cbv zeta.
  destruct (filter _ (rbac_user st)) as [|u0 us] eqn:Eu; [|discriminate].
  simpl. intros [= <-].
  split; [now exists role|]. split; [|split; [|split; [|split]]].
  - intros db requestedBy t Hu.
    assert (Hnone : findUsersByRole db id = []).
    { unfold findUsersByRole. rewrite Hu.
      destruct (filter (fun u => opt_eqb (user_role_id u) id
                                 && user_is_active u && is_null (deleted_at u))
                       (rbac_user st)) as [|u1 us1] eqn:Ef; [reflexivity|].
      exfalso. assert (Hin : In u1 (u1 :: us1)) by now left.
      rewrite <- Ef in Hin. apply filter_In in Hin.
      destruct Hin as [Hin Hc]. apply andb_true_iff in Hc.
      destruct Hc as [Hc H3]. apply andb_true_iff in Hc.
      destruct Hc as [H1 H2].
      assert (Hin' : In u1 []); [|destruct Hin'].
      rewrite <- Eu. apply filter_In. split; [exact Hin|].
      now rewrite H1, H2, H3. }
    split; [exact Hnone|].
    unfold resolveApprover. rewrite Hnone.
    destruct (String.eqb id ""); reflexivity.
  - unfold getRoleById, role_findFirst. simpl.
    now rewrite role_findFirst_deleted.
  - intros now' later'. unfold deleteRole, role_findFirst. simpl.
    now rewrite role_findFirst_deleted.
  - intros codes. unfold assignPermissions, role_findFirst. simpl.
    now rewrite role_findFirst_deleted.
  - split; reflexivity.
Qed.

Lemma deleteRole_only_unused_witness :
  getRoleById "r-old" (fst (deleteRole "r-old" 5000 5001 Rbac.st0))
  = AppError 404
  /\ deleteRole "r-pm" 5000 5001 Rbac.st0 = (Rbac.st0, AppError 409).
Proof.
  destruct (@deleteRole_only_unused "r-old" 5000 5001 Rbac.st0
              (fst (deleteRole "r-old" 5000 5001 Rbac.st0)))
    as (_ & _ & Hgone & _).
  - run.
  - split; [exact Hgone|run].
Defined.
